(** * WiseTestAI: a shallow embedding of the test runner's core logic

    The development follows the Python sources module by module:
    string helpers and the regular-expression engine the parser relies on,
    the feature parser, the configuration manager, the cache manager, the
    AI element finder, the browser manager, the scenario executor, the API
    executor and the table verification of the step executor.  Definitions
    come first, the theorems about them follow. *)

From Stdlib Require Import Strings.String Strings.Ascii Lists.List ZArith QArith Lia Bool Arith.
From stdpp Require Import base option list strings gmap.
Import ListNotations.

Local Open Scope string_scope.
Local Open Scope list_scope.
Local Open Scope nat_scope.

(* ===================================================================== *)
(** ** Python string operations *)
(* ===================================================================== *)

Module Py.

(** Texts are ASCII.  The double quote cannot be written inside the string
    literals of this file, so literals write a backtick where the Python
    source has a double quote and [py] restores it. *)
Definition dq : ascii := ascii_of_nat 34.
Definition bt : ascii := ascii_of_nat 96.

Fixpoint py (s : string) : string :=
  match s with
  | EmptyString => EmptyString
  | String c r => String (if Ascii.eqb c bt then dq else c) (py r)
  end.

Definition chars (s : string) : list ascii := list_ascii_of_string s.
Definition str (l : list ascii) : string := string_of_list_ascii l.

(** [str.isspace] on ASCII: tab, newline, vertical tab, form feed, carriage
    return, the four separators 28..31 and the space. *)
Definition is_space (c : ascii) : bool :=
  let n := nat_of_ascii c in
  ((9 <=? n) && (n <=? 13)) || ((28 <=? n) && (n <=? 32)).

Definition is_digit (c : ascii) : bool :=
  let n := nat_of_ascii c in (48 <=? n) && (n <=? 57).

Definition lower_char (c : ascii) : ascii :=
  let n := nat_of_ascii c in
  if (65 <=? n) && (n <=? 90) then ascii_of_nat (n + 32) else c.

(** [s.lower()] *)
Definition lower_l (l : list ascii) : list ascii := map lower_char l.
Definition lower (s : string) : string := str (lower_l (chars s)).

Fixpoint lstrip_by (p : ascii -> bool) (l : list ascii) : list ascii :=
  match l with
  | [] => []
  | c :: r => if p c then lstrip_by p r else l
  end.

Definition rstrip_by (p : ascii -> bool) (l : list ascii) : list ascii :=
  rev (lstrip_by p (rev l)).

Definition strip_by (p : ascii -> bool) (l : list ascii) : list ascii :=
  rstrip_by p (lstrip_by p l).

(** [s.strip()] *)
Definition strip (s : string) : string := str (strip_by is_space (chars s)).

(** [s.strip(cs)] *)
Definition strip_chars (cs : list ascii) (s : string) : string :=
  str (strip_by (fun c => existsb (Ascii.eqb c) cs) (chars s)).

(** [s.rstrip(cs)] and [s.lstrip(cs)] *)
Definition rstrip_chars (cs : list ascii) (s : string) : string :=
  str (rstrip_by (fun c => existsb (Ascii.eqb c) cs) (chars s)).
Definition lstrip_chars (cs : list ascii) (s : string) : string :=
  str (lstrip_by (fun c => existsb (Ascii.eqb c) cs) (chars s)).

Fixpoint prefix_l (p l : list ascii) : bool :=
  match p, l with
  | [], _ => true
  | a :: p', b :: l' => Ascii.eqb a b && prefix_l p' l'
  | _ :: _, [] => false
  end.

(** [s.startswith(p)] *)
Definition startswith (p s : string) : bool := prefix_l (chars p) (chars s).

(** [s.endswith(p)] *)
Definition endswith (p s : string) : bool :=
  prefix_l (rev (chars p)) (rev (chars s)).

(** [s.find(sub)] on character lists: the least index where [sub] starts. *)
Fixpoint find_l (sub l : list ascii) : option nat :=
  if prefix_l sub l then Some 0
  else match l with
       | [] => None
       | _ :: r => match find_l sub r with
                   | Some i => Some (S i)
                   | None => None
                   end
       end.

(** [s.rfind(sub)]: the greatest index where [sub] starts. *)
Fixpoint rfind_l (sub l : list ascii) : option nat :=
  match l with
  | [] => if prefix_l sub [] then Some 0 else None
  | _ :: r => match rfind_l sub r with
              | Some i => Some (S i)
              | None => if prefix_l sub l then Some 0 else None
              end
  end.

(** [sub in s] *)
Definition contains (sub s : string) : bool :=
  match find_l (chars sub) (chars s) with Some _ => true | None => false end.

(** [s.replace(old, new)] for a non-empty [old]: occurrences are replaced
    from left to right without overlap.  The fuel is the length of the text. *)
Fixpoint replace_l (fuel : nat) (old new l : list ascii) : list ascii :=
  match fuel with
  | 0 => l
  | S f =>
      match l with
      | [] => []
      | c :: r =>
          if prefix_l old l
          then new ++ replace_l f old new (skipn (List.length old) l)
          else c :: replace_l f old new r
      end
  end.

Definition replace (old new s : string) : string :=
  str (replace_l (String.length s) (chars old) (chars new) (chars s)).

(** [s.split()] : the maximal runs of characters that are not whitespace. *)
Fixpoint split_ws_l (cur : list ascii) (l : list ascii) : list (list ascii) :=
  match l with
  | [] => match cur with [] => [] | _ => [rev cur] end
  | c :: r =>
      if is_space c
      then match cur with
           | [] => split_ws_l [] r
           | _ => rev cur :: split_ws_l [] r
           end
      else split_ws_l (c :: cur) r
  end.

Definition split_ws (s : string) : list string :=
  map str (split_ws_l [] (chars s)).

(** [s.split(sep)] for a one-character separator: always at least one
    piece, empty pieces are kept. *)
Fixpoint split_on_l (sep : ascii) (cur : list ascii) (l : list ascii)
  : list (list ascii) :=
  match l with
  | [] => [rev cur]
  | c :: r =>
      if Ascii.eqb c sep then rev cur :: split_on_l sep [] r
      else split_on_l sep (c :: cur) r
  end.

Definition split_on (sep : ascii) (s : string) : list string :=
  map str (split_on_l sep [] (chars s)).

(** [s.split(sep, 1)]: cut at the first separator only. *)
Fixpoint split1_l (sep : ascii) (cur : list ascii) (l : list ascii)
  : list (list ascii) :=
  match l with
  | [] => [rev cur]
  | c :: r =>
      if Ascii.eqb c sep then [rev cur; r] else split1_l sep (c :: cur) r
  end.

Definition split1 (sep : ascii) (s : string) : list string :=
  map str (split1_l sep [] (chars s)).

(** [xs[1:-1]] *)
Definition slice_1_m1 {A} (xs : list A) : list A :=
  tl (removelast xs).

(** [s[n:]] *)
Definition drop_str (n : nat) (s : string) : string := str (skipn n (chars s)).

(** [sep.join(xs)] *)
Fixpoint join (sep : string) (xs : list string) : string :=
  match xs with
  | [] => ""
  | [x] => x
  | x :: r => x ++ sep ++ join sep r
  end.

(** [str(n)] for a natural number. *)
Definition digit_char (d : nat) : ascii := ascii_of_nat (48 + d).

Fixpoint nat_digits (fuel n : nat) (acc : list ascii) : list ascii :=
  match fuel with
  | 0 => acc
  | S f =>
      let acc' := digit_char (n mod 10) :: acc in
      if n <? 10 then acc' else nat_digits f (n / 10) acc'
  end.

Definition str_of_nat (n : nat) : string := str (nat_digits (S n) n []).

End Py.

(* ===================================================================== *)
(** ** Regular expressions (the fragment of Python's [re] the sources use) *)
(* ===================================================================== *)

Module Re.

Inductive item : Type :=
| IChr (c : ascii)
| IRange (lo hi : ascii)
| ISpc
| IDig.

Inductive re : Type :=
| Eps
| Chr (c : ascii)
| Any
| Cls (neg : bool) (l : list item)
| Spc
| Dig
| Eol
| Seq (r1 r2 : re)
| Alt (r1 r2 : re)
| Opt (greedy : bool) (r : re)
| Star (greedy : bool) (r : re)
| Grp (i : nat) (r : re).

Definition Plus (greedy : bool) (r : re) : re := Seq r (Star greedy r).

(** *** Parsing a pattern *)

Definition ch (n : nat) : ascii := ascii_of_nat n.
Definition c_lpar : ascii := ch 40.
Definition c_rpar : ascii := ch 41.
Definition c_star : ascii := ch 42.
Definition c_plus : ascii := ch 43.
Definition c_dot : ascii := ch 46.
Definition c_quest : ascii := ch 63.
Definition c_lbrk : ascii := ch 91.
Definition c_bsl : ascii := ch 92.
Definition c_rbrk : ascii := ch 93.
Definition c_caret : ascii := ch 94.
Definition c_bar : ascii := ch 124.
Definition c_dollar : ascii := ch 36.
Definition c_colon : ascii := ch 58.
Definition c_minus : ascii := ch 45.
Definition c_s : ascii := ch 115.
Definition c_d : ascii := ch 100.

Definition ceq (a b : ascii) : bool := Ascii.eqb a b.

(** An escape outside a class. *)
Definition escape (c : ascii) : re :=
  if ceq c c_s then Spc else if ceq c c_d then Dig else Chr c.

Definition escape_item (c : ascii) : item :=
  if ceq c c_s then ISpc else if ceq c c_d then IDig else IChr c.

(** The items of a class up to the closing bracket. *)
Fixpoint p_items (fuel : nat) (s : list ascii) (acc : list item)
  : option (list item * list ascii) :=
  match fuel with
  | 0 => None
  | S f =>
      match s with
      | [] => None
      | c :: r =>
          if ceq c c_rbrk then Some (rev acc, r)
          else if ceq c c_bsl then
            match r with
            | e :: r' => p_items f r' (escape_item e :: acc)
            | [] => None
            end
          else
            match r with
            | m :: hi :: r' =>
                if ceq m c_minus && negb (ceq hi c_rbrk)
                then p_items f r' (IRange c hi :: acc)
                else p_items f r (IChr c :: acc)
            | _ => p_items f r (IChr c :: acc)
            end
      end
  end.

(** A quantifier after an atom, with its optional lazy mark. *)
Definition p_quant (a : re) (s : list ascii) : re * list ascii :=
  match s with
  | q :: r =>
      let lazy_rest :=
        match r with
        | l :: r' => if ceq l c_quest then (false, r') else (true, r)
        | [] => (true, r)
        end in
      if ceq q c_quest then (Opt (fst lazy_rest) a, snd lazy_rest)
      else if ceq q c_star then (Star (fst lazy_rest) a, snd lazy_rest)
      else if ceq q c_plus then (Plus (fst lazy_rest) a, snd lazy_rest)
      else (a, s)
  | [] => (a, s)
  end.

(** Recursive descent; [g] is the number the next capturing group gets. *)
Fixpoint p_alt (fuel : nat) (s : list ascii) (g : nat)
  : option (re * list ascii * nat) :=
  match fuel with
  | 0 => None
  | S f =>
      match p_seq f s g with
      | None => None
      | Some (r1, s1, g1) =>
          match s1 with
          | c :: s2 =>
              if ceq c c_bar then
                match p_alt f s2 g1 with
                | Some (r2, s3, g2) => Some (Alt r1 r2, s3, g2)
                | None => None
                end
              else Some (r1, s1, g1)
          | [] => Some (r1, s1, g1)
          end
      end
  end
with p_seq (fuel : nat) (s : list ascii) (g : nat)
  : option (re * list ascii * nat) :=
  match fuel with
  | 0 => None
  | S f =>
      match s with
      | [] => Some (Eps, [], g)
      | c :: _ =>
          if ceq c c_bar || ceq c c_rpar then Some (Eps, s, g)
          else
            match p_atom f s g with
            | None => None
            | Some (a, s1, g1) =>
                let qs := p_quant a s1 in
                match p_seq f (snd qs) g1 with
                | Some (r, s3, g2) => Some (Seq (fst qs) r, s3, g2)
                | None => None
                end
            end
      end
  end
with p_atom (fuel : nat) (s : list ascii) (g : nat)
  : option (re * list ascii * nat) :=
  match fuel with
  | 0 => None
  | S f =>
      match s with
      | [] => None
      | c :: s1 =>
          if ceq c c_lpar then
            match s1 with
            | q :: k :: s2 =>
                if ceq q c_quest then
                  if ceq k c_colon then
                    match p_alt f s2 g with
                    | Some (r, e :: s3, g1) =>
                        if ceq e c_rpar then Some (r, s3, g1) else None
                    | _ => None
                    end
                  else None
                else
                  match p_alt f s1 (S g) with
                  | Some (r, e :: s3, g1) =>
                      if ceq e c_rpar then Some (Grp g r, s3, g1) else None
                  | _ => None
                  end
            | _ =>
                match p_alt f s1 (S g) with
                | Some (r, e :: s3, g1) =>
                    if ceq e c_rpar then Some (Grp g r, s3, g1) else None
                | _ => None
                end
            end
          else if ceq c c_lbrk then
            match s1 with
            | n :: s2 =>
                if ceq n c_caret then
                  match p_items f s2 [] with
                  | Some (l, s3) => Some (Cls true l, s3, g)
                  | None => None
                  end
                else
                  match p_items f s1 [] with
                  | Some (l, s3) => Some (Cls false l, s3, g)
                  | None => None
                  end
            | [] => None
            end
          else if ceq c c_bsl then
            match s1 with
            | e :: s2 => Some (escape e, s2, g)
            | [] => None
            end
          else if ceq c c_dot then Some (Any, s1, g)
          else if ceq c c_dollar then Some (Eol, s1, g)
          else if ceq c c_star || ceq c c_plus || ceq c c_quest then None
          else Some (Chr c, s1, g)
      end
  end.

(** A compiled pattern: its syntax tree and its number of groups. *)
Record regex : Type := { tree : re; ngroups : nat }.

(** [re.compile(pattern)]; [None] stands for [re.error]. *)
Definition compile (pattern : string) : option regex :=
  let s := Py.chars pattern in
  match p_alt (3 * List.length s + 3) s 0 with
  | Some (r, [], g) => Some {| tree := r; ngroups := g |}
  | _ => None
  end.

(** *** Matching by backtracking *)

Definition caps : Type := list (option (list ascii)).

Fixpoint set_cap (i : nat) (v : list ascii) (c : caps) : caps :=
  match c, i with
  | [], _ => []
  | _ :: r, 0 => Some v :: r
  | x :: r, S j => x :: set_cap j v r
  end.

Definition chr_eq (ic : bool) (a b : ascii) : bool :=
  if ic then Ascii.eqb (Py.lower_char a) (Py.lower_char b) else Ascii.eqb a b.

Definition in_range (lo hi x : ascii) : bool :=
  (nat_of_ascii lo <=? nat_of_ascii x) && (nat_of_ascii x <=? nat_of_ascii hi).

Definition item_ok (ic : bool) (x : ascii) (i : item) : bool :=
  match i with
  | IChr c => chr_eq ic c x
  | IRange lo hi =>
      in_range lo hi x ||
      (ic && (in_range lo hi (Py.lower_char x) ||
              in_range (Py.lower_char lo) (Py.lower_char hi) (Py.lower_char x)))
  | ISpc => Py.is_space x
  | IDig => Py.is_digit x
  end.

Definition newline : ascii := ch 10.

(** One character against a one-character atom. *)
Definition atom_ok (ic : bool) (r : re) (x : ascii) : bool :=
  match r with
  | Chr c => chr_eq ic c x
  | Any => negb (Ascii.eqb x newline)
  | Cls neg l => xorb neg (existsb (item_ok ic x) l)
  | Spc => Py.is_space x
  | Dig => Py.is_digit x
  | _ => false
  end.

(** [m ic r s c k]: match [r] at the front of [s] with captures [c], then
    continue with [k] on the rest.  Alternatives are explored in the order
    of the backtracking engine: the left branch first, a greedy quantifier
    with one more repetition first, a lazy one with one fewer first.  A
    repetition only goes on when its body has consumed a character, so the
    inner loop needs at most one round per character left. *)
Fixpoint m (ic : bool) (r : re) (s : list ascii) (c : caps)
  (k : list ascii -> caps -> option caps) {struct r} : option caps :=
  match r with
  | Eps => k s c
  | Chr _ | Any | Cls _ _ | Spc | Dig =>
      match s with
      | x :: s' => if atom_ok ic r x then k s' c else None
      | [] => None
      end
  | Eol =>
      match s with
      | [] => k s c
      | [x] => if Ascii.eqb x newline then k s c else None
      | _ => None
      end
  | Seq r1 r2 => m ic r1 s c (fun s' c' => m ic r2 s' c' k)
  | Alt r1 r2 =>
      match m ic r1 s c k with
      | Some res => Some res
      | None => m ic r2 s c k
      end
  | Opt true r1 =>
      match m ic r1 s c k with
      | Some res => Some res
      | None => k s c
      end
  | Opt false r1 =>
      match k s c with
      | Some res => Some res
      | None => m ic r1 s c k
      end
  | Star greedy r1 =>
      (fix loop (n : nat) (s : list ascii) (c : caps) {struct n} : option caps :=
         match n with
         | 0 => k s c
         | S n' =>
             let again (_ : unit) :=
               m ic r1 s c
                 (fun s' c' =>
                    if List.length s' <? List.length s then loop n' s' c'
                    else None) in
             if greedy then
               match again tt with
               | Some res => Some res
               | None => k s c
               end
             else
               match k s c with
               | Some res => Some res
               | None => again tt
               end
         end) (S (List.length s)) s c
  | Grp i r1 =>
      m ic r1 s c
        (fun s' c' =>
           k s' (set_cap i (firstn (List.length s - List.length s') s) c'))
  end.

(** The groups of a successful match, as [match.groups()] gives them. *)
Definition groups : Type := list (option string).

Definition to_groups (c : caps) : groups := map (option_map Py.str) c.

(** A match anchored at the front of [s]: the groups and the rest. *)
Definition match_at (ic : bool) (rx : regex) (s : list ascii)
  : option (caps * list ascii) :=
  let n := rx.(ngroups) in
  match m ic (Grp n rx.(tree)) s (repeat None (S n))
          (fun _ c => Some c) with
  | Some c =>
      match nth n c None with
      | Some whole => Some (firstn n c, skipn (List.length whole) s)
      | None => None
      end
  | None => None
  end.

(** [re.match(pattern, text, flags)] followed by [.groups()]. *)
Definition re_match (ic : bool) (pattern text : string) : option groups :=
  match compile pattern with
  | Some rx =>
      match match_at ic rx (Py.chars text) with
      | Some (c, _) => Some (to_groups c)
      | None => None
      end
  | None => None
  end.

(** [re.search(pattern, text, flags) is not None] *)
Fixpoint search_l (ic : bool) (rx : regex) (s : list ascii) : bool :=
  match match_at ic rx s with
  | Some _ => true
  | None => match s with
            | [] => false
            | _ :: r => search_l ic rx r
            end
  end.

Definition re_search (ic : bool) (pattern text : string) : bool :=
  match compile pattern with
  | Some rx => search_l ic rx (Py.chars text)
  | None => false
  end.

(** [re.findall] for a pattern with exactly one group: the group's text of
    every match, scanning from left to right past each match. *)
Fixpoint findall_l (fuel : nat) (ic : bool) (rx : regex) (s : list ascii)
  : list string :=
  match fuel with
  | 0 => []
  | S f =>
      match match_at ic rx s with
      | Some (c, rest) =>
          let g := match nth 0 c None with Some t => Py.str t | None => "" end in
          if List.length rest <? List.length s
          then g :: findall_l f ic rx rest
          else match s with
               | [] => [g]
               | _ :: r => g :: findall_l f ic rx r
               end
      | None =>
          match s with
          | [] => []
          | _ :: r => findall_l f ic rx r
          end
      end
  end.

Definition re_findall (ic : bool) (pattern text : string) : list string :=
  match compile pattern with
  | Some rx => findall_l (S (String.length text)) ic rx (Py.chars text)
  | None => []
  end.

(** [re.sub(pattern, repl, text)] with a function [repl] that may raise:
    the text is scanned from left to right, every match is replaced by
    what [repl] makes of its groups, and the scan goes on after the match. *)
Fixpoint sub_l {E : Type} (fuel : nat) (ic : bool) (rx : regex)
  (repl : groups -> E + string) (s : list ascii) : E + list ascii :=
  match fuel with
  | 0 => inr s
  | S f =>
      match match_at ic rx s with
      | Some (c, rest) =>
          match repl (to_groups c) with
          | inl e => inl e
          | inr new =>
              if List.length rest <? List.length s then
                match sub_l f ic rx repl rest with
                | inl e => inl e
                | inr out => inr (Py.chars new ++ out)
                end
              else
                match s with
                | [] => inr (Py.chars new)
                | x :: r =>
                    match sub_l f ic rx repl r with
                    | inl e => inl e
                    | inr out => inr (Py.chars new ++ x :: out)
                    end
                end
          end
      | None =>
          match s with
          | [] => inr []
          | x :: r =>
              match sub_l f ic rx repl r with
              | inl e => inl e
              | inr out => inr (x :: out)
              end
          end
      end
  end.

Definition re_sub {E : Type} (ic : bool) (pattern : string)
  (repl : groups -> E + string) (text : string) : E + string :=
  match compile pattern with
  | Some rx =>
      match sub_l (S (String.length text)) ic rx repl (Py.chars text) with
      | inl e => inl e
      | inr out => inr (Py.str out)
      end
  | None => inr text
  end.

End Re.

(* ===================================================================== *)
(** ** Python dictionaries with string keys *)
(* ===================================================================== *)

Module Dict.

(** A [dict] keeps its keys in insertion order: an association list in
    which every key occurs once. *)
Definition t (V : Type) : Type := list (string * V).

Fixpoint get {V} (k : string) (d : t V) : option V :=
  match d with
  | [] => None
  | (k', v) :: r => if String.eqb k k' then Some v else get k r
  end.

(** [k in d] *)
Definition mem {V} (k : string) (d : t V) : bool :=
  match get k d with Some _ => true | None => false end.

(** [d[k] = v]: the value is replaced in place, a new key goes last. *)
Fixpoint set {V} (k : string) (v : V) (d : t V) : t V :=
  match d with
  | [] => [(k, v)]
  | (k', v') :: r =>
      if String.eqb k k' then (k, v) :: r else (k', v') :: set k v r
  end.

(** [d.pop(k)] and [del d[k]]: the dictionary without the key. *)
Fixpoint remove {V} (k : string) (d : t V) : t V :=
  match d with
  | [] => []
  | (k', v') :: r =>
      if String.eqb k k' then r else (k', v') :: remove k r
  end.

(** [dict(zip(ks, vs))] *)
Fixpoint of_zip {V} (ks : list string) (vs : list V) (acc : t V) : t V :=
  match ks, vs with
  | k :: ks', v :: vs' => of_zip ks' vs' (set k v acc)
  | _, _ => acc
  end.

End Dict.

(* ===================================================================== *)
(** ** src/parser/feature_parser.py *)
(* ===================================================================== *)

Module FeatureParser.

Inductive StepType : Type := GIVEN | WHEN | THEN | AND | BUT.

(** [StepType(value)]; [None] stands for the [ValueError] of the enum. *)
Definition StepType_of (v : string) : option StepType :=
  if String.eqb v "given" then Some GIVEN
  else if String.eqb v "when" then Some WHEN
  else if String.eqb v "then" then Some THEN
  else if String.eqb v "and" then Some AND
  else if String.eqb v "but" then Some BUT
  else None.

(** The values a step's parameter dictionary holds: captured texts, the
    [force_ai] flag, and the data table the executor adds. *)
Inductive pval : Type :=
| PStr (s : string)
| PBool (b : bool)
| PTable (t : list (list string)).

Definition Params : Type := Dict.t pval.

Record Step : Type := mkStep {
  s_type : StepType;
  s_text : string;
  s_action : string;
  s_parameters : Params;
  s_line_number : nat;
  s_data_table : option (list (list string))
}.

(** The dictionary [_process_examples] builds: empty, or headers and rows. *)
Inductive Examples : Type :=
| ExEmpty
| ExTable (headers : list string) (rows : list (Dict.t string)).

(** A scenario over references of type [R] to its steps: the parser works
    on objects that hold addresses, its caller sees the values. *)
Record ScenarioOf (R : Type) : Type := mkScenario {
  sc_name : string;
  sc_description : string;
  sc_steps : list R;
  sc_tags : list string;
  sc_examples : option Examples;
  sc_line_number : nat
}.
Arguments mkScenario {R}.
Arguments sc_name {R}.
Arguments sc_description {R}.
Arguments sc_steps {R}.
Arguments sc_tags {R}.
Arguments sc_examples {R}.
Arguments sc_line_number {R}.

Record FeatureOf (S : Type) : Type := mkFeature {
  f_name : string;
  f_description : string;
  f_scenarios : list S;
  f_tags : list string;
  f_background : option S;
  f_file_path : string
}.
Arguments mkFeature {S}.
Arguments f_name {S}.
Arguments f_description {S}.
Arguments f_scenarios {S}.
Arguments f_tags {S}.
Arguments f_background {S}.
Arguments f_file_path {S}.

Definition Scenario : Type := ScenarioOf Step.
Definition Feature : Type := FeatureOf Scenario.

#[global] Instance StepType_eq_dec : EqDecision StepType.
Proof. solve_decision. Defined.
#[global] Instance pval_eq_dec : EqDecision pval.
Proof. solve_decision. Defined.
#[global] Instance Step_eq_dec : EqDecision Step.
Proof. solve_decision. Defined.
#[global] Instance Examples_eq_dec : EqDecision Examples.
Proof. solve_decision. Defined.
#[global] Instance Scenario_eq_dec : EqDecision Scenario.
Proof. solve_decision. Defined.

(** *** The pattern table *)

Record pattern_info : Type := {
  patterns : list string;
  action : string;
  params : list string
}.

(** [_initialize_action_patterns]; every backtick stands for a double
    quote, see [Py.py]. *)
Definition action_patterns_src : Dict.t pattern_info := [
    ("navigate", {| patterns := [
        "(?:i )?(?:open|navigate to|go to|visit|access) (?:the )?(?:url |page |site )?(.+)";
        "(?:i am|user is) on (?:the )?(.+) page";
        "(?:the )?(?:url|page) is (.+)" ];
      action := "navigate";
      params := ["url"] |});
    ("select", {| patterns := [
        "(?:i )?select\s+[`\']*(.+?)[`\']*\s+from\s+(?:the\s+)?[`\']*(.+?)[`\']*\s*(?:dropdown|select|list|listbox|combobox)?$";
        "(?:i )?select\s+[`\']*(.+?)[`\']*\s+in\s+(.+?)$";
        "(?:i )?choose\s+[`\']*(.+?)[`\']*\s+(?:from|in)\s+(?:the\s+)?[`\']*(.+?)[`\']*$";
        "(?:from|in)\s+(?:the\s+)?[`\']*(.+?)[`\']*\s+(?:dropdown\s+|select\s+)?(?:i\s+)?select\s+[`\']*(.+?)[`\']*$" ];
      action := "select";
      params := ["option"; "element"] |});
    ("click", {| patterns := [
        "(?:i )?click(?:\s+on)?\s+(?:the\s+)?[`\']*(.+?)[`\']*(?:\s*(?:button|link|element))?$";
        "(?:i )?(?:press|tap)\s+(?:the\s+)?[`\']*(.+?)[`\']*(?:\s*(?:button|link))?$";
        "(?:the )?(?:user )?clicks?\s+(?:on\s+)?(?:the\s+)?[`\']*(.+?)[`\']*$" ];
      action := "click";
      params := ["element"] |});
    ("input", {| patterns := [
        "(?:i )?(?:enter|type|input|fill|write)\s+[`\']*(.+?)[`\']*\s+(?:in|into)\s+(?:the\s+)?[`\']*(.+?)[`\']*(?:\s*(?:field|input|textbox))?(?:\s*\[force ai\])?$";
        "(?:i )?(?:enter|type|input|fill|write)\s+[`\']*(.+?)[`\']*\s+(?:in|into)\s+(?:the\s+)?[`\']*(.+?)[`\']*(?:\s*(?:field|input|textbox))?$";
        "(?:i )?(?:fill|enter)\s+(?:the\s+)?[`\']*(.+?)[`\']*(?:\s*(?:field|input))?\s+with\s+[`\']*(.+?)[`\']*$";
        "(?:the )?(?:user )?(?:enters|types|inputs)\s+[`\']*(.+?)[`\']*\s+(?:in|into)\s+(?:the\s+)?[`\']*(.+?)[`\']*$" ];
      action := "input";
      params := ["value"; "element"] |});
    ("checkbox", {| patterns := [
        "(?:i )?(?:check|tick|mark|select)\s+(?:the\s+)?[`\']*(.+?)[`\']*\s+(?:checkbox|check\s*box)$";
        "(?:i )?(?:uncheck|untick|unmark|deselect)\s+(?:the\s+)?[`\']*(.+?)[`\']*\s+(?:checkbox|check\s*box)$";
        "(?:i )?(?:select|choose)\s+[`\']*(.+?)[`\']*\s+checkbox$";
        "(?:i )?(?:deselect)\s+[`\']*(.+?)[`\']*\s+checkbox$";
        "(?:the\s+)?[`\']*(.+?)[`\']*\s+(?:checkbox|check\s*box)\s+(?:should\s+)?(?:be\s+)?(checked|unchecked)$";
        "(?:i )?(?:enable|disable)\s+(?:the\s+)?[`\']*(.+?)[`\']*\s+(?:checkbox|check\s*box)$";
        "(?:i )?(?:click|toggle)\s+(?:on\s+)?(?:the\s+)?[`\']*(.+?)[`\']*\s+(?:checkbox|check\s*box)$";
        "(?:i )?(?:set|make)\s+(?:the\s+)?[`\']*(.+?)[`\']*\s+(?:checkbox|check\s*box)\s+(?:to\s+)?(checked|unchecked)$" ];
      action := "checkbox";
      params := ["element"; "state"] |});
    ("radio", {| patterns := [
        "(?:i )?select\s+[`\']*(.+?)[`\']*\s+radio\s*(?:button)?$";
        "(?:i )?(?:choose|pick|select)\s+(?:the\s+)?[`\']*(.+?)[`\']*\s+(?:radio\s+)?option$";
        "(?:i )?(?:click|select)\s+(?:on\s+)?(?:the\s+)?[`\']*(.+?)[`\']*\s+radio\s*(?:button)?$";
        "(?:the )?radio\s*(?:button)?\s+[`\']*(.+?)[`\']*\s+is\s+selected$";
        "(?:i )?(?:select|choose)\s+radio\s*(?:button)?\s+[`\']*(.+?)[`\']*$" ];
      action := "radio";
      params := ["element"] |});
    ("verify_text", {| patterns := [
        "(?:i )?(?:should\s+)?see\s+(?:the\s+)?(?:text\s+|message\s+)?[`\']*(.+?)[`\']*$";
        "(?:the )?(?:page|screen)\s+(?:should\s+)?(?:contain|display|show)s?\s+(?:the\s+)?(?:text\s+|message\s+)?[`\']*(.+?)[`\']*$";
        "(?:i )?(?:verify|check|validate)\s+(?:that\s+)?(?:the\s+)?(?:text\s+|message\s+)?[`\']*(.+?)[`\']*\s+is\s+(?:displayed|shown|visible)$" ];
      action := "verify_text";
      params := ["text"] |});
    ("verify_element", {| patterns := [
        "(?:i )?(?:should\s+)?see\s+(?:the\s+)?(?:element\s+|button\s+|link\s+|field\s+)?[`\']*(.+?)[`\']*\s+element$";
        "(?:i )?(?:should\s+)?see\s+(?:the\s+)?[`\']*(.+?)[`\']*\s+(?:element|button|link|field)$";
        "(?:the )?(?:element\s+|button\s+|link\s+|field\s+)?[`\']*(.+?)[`\']*\s+(?:should\s+)?(?:be|is)\s+(?:displayed|visible|shown)$";
        "(?:i )?(?:verify|check)\s+(?:that\s+)?(?:the\s+)?[`\']*(.+?)[`\']*\s+is\s+(?:displayed|visible|present)$" ];
      action := "verify_element";
      params := ["element"] |});
    ("wait", {| patterns := [
        "(?:i )?wait\s+(?:for\s+)?(\d+)\s+(?:seconds?|secs?|milliseconds?|ms)$";
        "(?:i )?wait\s+(?:for|until)\s+(?:the\s+)?(?:element\s+|button\s+|link\s+)?[`\']*(.+?)[`\']*\s+(?:is|to\s+be)\s+(?:displayed|visible|shown)$";
        "(?:i )?wait\s+for\s+text\s+[`\']*(.+?)[`\']*\s+to\s+(?:load|appear|be\s+visible)$";
        "(?:i )?pause\s+(?:for\s+)?(\d+)\s+(?:seconds?|secs?)$" ];
      action := "wait";
      params := ["duration"; "element"; "text"] |});
    ("search", {| patterns := [
        "(?:i )?search\s+(?:for\s+|with\s+)?(?:text\s+)?[`\']*(.+?)[`\']*$";
        "(?:i )?search\s+(?:for\s+|with\s+)?[`\']*(.+?)[`\']*\s+in\s+(?:the\s+)?[`\']*(.+?)[`\']*(?:\s+field)?$";
        "(?:i )?(?:enter|type)\s+[`\']*(.+?)[`\']*\s+in\s+(?:the\s+)?search\s+(?:box|field|bar)$";
        "(?:i )?search\s+in\s+(?:the\s+)?[`\']*(.+?)[`\']*\s+(?:field\s+)?(?:for|with)\s+[`\']*(.+?)[`\']*$" ];
      action := "search";
      params := ["query"; "field"] |});
    ("verify_table", {| patterns := [
        "(?:i )?(?:verify|check|validate)\s+(?:that\s+)?(?:the\s+)?table\s+(?:data|contains|shows).*$";
        "(?:i )?(?:verify|check|validate)\s+(?:the\s+)?[`\']*(.+?)[`\']*\s+table\s+(?:data|contains|shows).*$";
        "(?:the\s+)?table\s+(?:should\s+)?(?:contain|show|display)s?.*$";
        "(?:the\s+)?[`\']*(.+?)[`\']*\s+table\s+(?:should\s+)?(?:contain|show|display)s?.*$";
        "(?:i )?(?:should\s+)?see\s+(?:the\s+)?following\s+(?:data\s+)?in\s+(?:the\s+)?table.*$";
        "(?:i )?validate\s+(?:the\s+)?table\s+(?:with\s+)?(?:the\s+)?following\s+(?:data|values).*$" ];
      action := "verify_table";
      params := ["table"] |});
    ("screenshot", {| patterns := [
        "(?:i )?(?:take|capture)\s+(?:a\s+)?screenshot(?:\s+(?:of|for)\s+[`\']*(.+?)[`\']*)?$";
        "(?:i )?screenshot\s+(?:the\s+)?(?:page|screen)(?:\s+as\s+[`\']*(.+?)[`\']*)?$" ];
      action := "screenshot";
      params := ["name"] |});
    ("verify_section_state", {| patterns := [
        "(?:i )?(?:verify|check|validate)\s+(?:that\s+)?(?:the\s+)?[`\']*(.+?)[`\']*\s+(?:section|step|tab)\s+is\s+(enabled|disabled|active|inactive)$";
        "(?:the\s+)?[`\']*(.+?)[`\']*\s+(?:section|step|tab)\s+(?:should\s+)?(?:be|is)\s+(enabled|disabled|active|inactive)$";
        "(?:i )?(?:should\s+)?see\s+(?:that\s+)?(?:the\s+)?[`\']*(.+?)[`\']*\s+(?:section|step|tab)\s+is\s+(enabled|disabled|active|inactive)$" ];
      action := "verify_section_state";
      params := ["section"; "state"] |});
    ("verify_sections_state", {| patterns := [
        "(?:i )?(?:verify|check|validate)\s+(?:the\s+)?(?:following\s+)?sections?\s+(?:states?|status)?:?$";
        "(?:the\s+)?(?:following\s+)?sections?\s+(?:should\s+)?(?:have|be)\s+(?:the\s+)?(?:following\s+)?(?:states?|status)?:?$";
        "(?:i )?(?:should\s+)?see\s+(?:the\s+)?(?:following\s+)?sections?\s+(?:with\s+)?(?:states?|status)?:?$" ];
      action := "verify_sections_state";
      params := [] |});
    ("select_date", {| patterns := [
        "(?:i )?(?:select|choose|pick|enter)\s+date\s+[`\']*(.+?)[`\']*\s+(?:in|for)\s+(?:the\s+)?[`\']*(.+?)[`\']*(?:\s+field)?$";
        "(?:i )?(?:select|set)\s+[`\']*(.+?)[`\']*\s+(?:as\s+)?(?:the\s+)?date\s+(?:in|for)\s+[`\']*(.+?)[`\']*$";
        "(?:i )?(?:enter|input|fill)\s+[`\']*(.+?)[`\']*\s+in\s+(?:the\s+)?[`\']*(.+?)[`\']*\s+date\s*(?:picker|field)?$";
        "(?:the\s+)?[`\']*(.+?)[`\']*\s+date\s+(?:should\s+)?be\s+[`\']*(.+?)[`\']*$" ];
      action := "select_date";
      params := ["date"; "element"] |});
    ("select_date_range", {| patterns := [
        "(?:i )?(?:select|choose|pick)\s+date\s+range\s+[`\']*(.+?)[`\']*\s+to\s+[`\']*(.+?)[`\']*\s+(?:in|for)\s+(?:the\s+)?[`\']*(.+?)[`\']*(?:\s+field)?$";
        "(?:i )?(?:select|set)\s+[`\']*(.+?)[`\']*\s+to\s+[`\']*(.+?)[`\']*\s+(?:as\s+)?(?:the\s+)?date\s+range\s+(?:in|for)\s+[`\']*(.+?)[`\']*$";
        "(?:i )?(?:enter|input)\s+date\s+range\s+[`\']*(.+?)[`\']*\s+(?:to|-)\s+[`\']*(.+?)[`\']*\s+(?:in|for)\s+[`\']*(.+?)[`\']*$";
        "(?:i )?(?:select|choose|pick)\s+date\s+range\s+\$\{(.+?)\}\s+to\s+\$\{(.+?)\}\s+(?:in|for)\s+(?:the\s+)?[`\']*(.+?)[`\']*(?:\s+field)?$" ];
      action := "select_date_range";
      params := ["start_date"; "end_date"; "element"] |});
    ("generate_date", {| patterns := [
        "(?:i )?generate\s+(?:a\s+)?date\s+[`\']*(.+?)[`\']*\s+(?:and\s+)?store\s+(?:it\s+)?as\s+[`\']*(.+?)[`\']*$";
        "(?:i )?(?:get|create)\s+(?:a\s+)?[`\']*(.+?)[`\']*\s+date\s+(?:and\s+)?store\s+(?:it\s+)?as\s+[`\']*(.+?)[`\']*$";
        "(?:i )?store\s+[`\']*(.+?)[`\']*\s+as\s+[`\']*(.+?)[`\']*$";
        "(?:i )?generate\s+(?:a\s+)?datetime\s+[`\']*(.+?)[`\']*\s+(?:and\s+)?store\s+(?:it\s+)?as\s+[`\']*(.+?)[`\']*$";
        "(?:i )?(?:get|create)\s+(?:a\s+)?[`\']*(.+?)[`\']*\s+datetime\s+(?:and\s+)?store\s+(?:it\s+)?as\s+[`\']*(.+?)[`\']*$" ];
      action := "generate_date";
      params := ["date_spec"; "variable_name"] |});
    ("select_datetime", {| patterns := [
        "(?:i )?(?:select|choose|pick|enter)\s+datetime\s+[`\']*(.+?)[`\']*\s+(?:in|for)\s+(?:the\s+)?[`\']*(.+?)[`\']*(?:\s+field)?$";
        "(?:i )?(?:select|set)\s+[`\']*(.+?)[`\']*\s+(?:as\s+)?(?:the\s+)?datetime\s+(?:in|for)\s+[`\']*(.+?)[`\']*$";
        "(?:i )?(?:enter|input|fill)\s+[`\']*(.+?)[`\']*\s+in\s+(?:the\s+)?[`\']*(.+?)[`\']*\s+datetime\s*(?:picker|field)?$";
        "(?:i )?(?:select|choose|pick|enter)\s+date\s+[`\']*(.+?)[`\']*\s+(?:in|for)\s+(?:the\s+)?[`\']*(.+?)[`\']*(?:\s+field)?$";
        "(?:i )?(?:enter|input|fill)\s+[`\']*(.+?)[`\']*\s+in\s+(?:the\s+)?[`\']*(.+?)[`\']*\s+date\s*(?:picker|field)?$" ];
      action := "select_datetime";
      params := ["datetime"; "element"] |});
    ("call_api", {| patterns := [
        "(?:i )?call (?:the )?[`\'](.*?)[`\'] (?:api|API|endpoint)$";
        "(?:i )?(?:make|send|execute) (?:a )?(?:api|API) (?:call|request) (?:to )?[`\'](.*?)[`\']$" ];
      action := "call_api";
      params := ["api_name"] |});
    ("call_api_with_data", {| patterns := [
        "(?:i )?call (?:the )?[`\'](.*?)[`\'] (?:api|API) with:?$";
        "(?:i )?(?:make|send) (?:a )?(?:api|API) (?:call|request) (?:to )?[`\'](.*?)[`\'] with:?$" ];
      action := "call_api_with_data";
      params := ["api_name"] |});
    ("authenticate", {| patterns := [
        "(?:i )?authenticate with (?:username )?[`\'](.*?)[`\'] and (?:password )?[`\'](.*?)[`\']$";
        "(?:i )?login with (?:username )?[`\'](.*?)[`\'] and (?:password )?[`\'](.*?)[`\']$" ];
      action := "authenticate";
      params := ["username"; "password"] |});
    ("authenticate_with_env", {| patterns := [
        "(?:i )?authenticate using (?:the )?[`\'](.*?)[`\'] credentials$";
        "(?:i )?login using (?:the )?[`\'](.*?)[`\'] credentials$" ];
      action := "authenticate_with_env";
      params := ["credential_key"] |});
    ("verify_api_status", {| patterns := [
        "(?:the )?(?:api|API) response status (?:should be|is) (\d+)$";
        "(?:the )?(?:api|API) (?:should )?(?:return|respond with) (?:status )?(\d+)$" ];
      action := "verify_api_status";
      params := ["status_code"] |});
    ("verify_api_contains", {| patterns := [
        "(?:the )?(?:api|API) response (?:should )?contains? [`\'](.*?)[`\']$";
        "(?:the )?response (?:should )?(?:contain|include)s? [`\'](.*?)[`\']$" ];
      action := "verify_api_contains";
      params := ["text"] |});
    ("verify_api_field", {| patterns := [
        "(?:the )?(?:api|API) response field [`\'](.*?)[`\'] (?:should be|equals) [`\'](.*?)[`\']$";
        "(?:the )?field [`\'](.*?)[`\'] (?:should be|equals) [`\'](.*?)[`\']$" ];
      action := "verify_api_field";
      params := ["field_path"; "expected_value"] |});
    ("verify_api_response_table", {| patterns := [
        "(?:i )?verify (?:the )?(?:api|API) response matches:?$";
        "(?:the )?(?:api|API) response (?:should )?match(?:es)?:?$" ];
      action := "verify_api_response_table";
      params := [] |});
    ("verify_api_response_time", {| patterns := [
        "(?:the )?(?:api|API) response time should be less than (\d+(?:\.\d+)?) seconds?$";
        "(?:the )?response (?:should )?(?:take|complete) (?:less than|under) (\d+(?:\.\d+)?) seconds?$" ];
      action := "verify_api_response_time";
      params := ["max_time"] |});
    ("store_api_field", {| patterns := [
        "(?:i )?store (?:the )?(?:api|API) response field [`\'](.*?)[`\'] as [`\'](.*?)[`\']$";
        "(?:i )?save (?:the )?field [`\'](.*?)[`\'] as [`\'](.*?)[`\']$" ];
      action := "store_api_field";
      params := ["field_path"; "variable_name"] |});
    ("store_api_response", {| patterns := [
        "(?:i )?store (?:the )?(?:api|API) response as [`\'](.*?)[`\']$";
        "(?:i )?save (?:the )?response as [`\'](.*?)[`\']$" ];
      action := "store_api_response";
      params := ["variable_name"] |});
    ("use_stored_value", {| patterns := [
        "(?:i )?use (?:the )?stored [`\'](.*?)[`\'] (?:value )?(?:as|for) [`\'](.*?)[`\']$" ];
      action := "use_stored_value";
      params := ["stored_name"; "param_name"] |});
    ("wait_api", {| patterns := [
        "(?:i )?wait (\d+(?:\.\d+)?) seconds?(?: (?:before|after) (?:the )?(?:api|API) call)?$" ];
      action := "wait_api";
      params := ["duration"] |});
    ("upload_file", {| patterns := [
        "(?:i )?upload file [`\'](.*?)[`\'] to [`\'](.*?)[`\'] (?:api|API)$";
        "(?:i )?upload [`\'](.*?)[`\'] to [`\'](.*?)[`\'] (?:api|API)$" ];
      action := "upload_file";
      params := ["file_path"; "api_name"] |});
    ("authenticate_with_role", {| patterns := [
        "(?:i )?authenticate as (?:a )?[`\'](.*?)[`\'](?:\s+role)?$";
        "(?:i )?login as (?:a )?[`\'](.*?)[`\'](?:\s+role)?$";
        "(?:i )?(?:am|are) authenticated as (?:a )?[`\'](.*?)[`\']$" ];
      action := "authenticate_with_role";
      params := ["role"] |});
    ("login_as_role", {| patterns := [
        "(?:i )?(?:am logged in|log in|login) as (?:a )?[`\'](.*?)[`\'](?:\s+(?:user|role))?$";
        "(?:i )?sign in as (?:a )?[`\'](.*?)[`\'](?:\s+(?:user|role))?$" ];
      action := "login_as_role";
      params := ["role"] |})
  ].

Definition action_patterns : Dict.t pattern_info :=
  map (fun kv =>
         (fst kv,
          {| patterns := map Py.py (patterns (snd kv));
             action := action (snd kv);
             params := params (snd kv) |}))
      action_patterns_src.

Definition pattern_order : list string :=
  ["navigate"; "select_date_range"; "checkbox"; "select"; "radio"; "click"; "input";
   "generate_date"; "select_datetime"; "select_date";
   "verify_text"; "verify_element"; "verify_section_state"; "verify_sections_state";
   "wait"; "search"; "verify_table"; "screenshot";
   "call_api_with_data"; "call_api"; "authenticate"; "authenticate_with_env";
   "authenticate_with_role"; "login_as_role";
   "verify_api_status"; "verify_api_contains"; "verify_api_field";
   "verify_api_response_table"; "verify_api_response_time";
   "store_api_field"; "store_api_response"; "use_stored_value";
   "wait_api"; "upload_file"].

(** *** [_parse_step_text] *)

Definition quotes : list ascii := [Py.dq; ascii_of_nat 39].

(** The loop that maps the matched groups to the parameter names: a group
    that did not take part, or that is empty, sets nothing. *)
Fixpoint map_groups (names : list string) (gs : Re.groups) (d : Params)
  : Params :=
  match names, gs with
  | n :: names', g :: gs' =>
      let d' :=
        match g with
        | Some t => if String.eqb t "" then d
                    else Dict.set n (PStr (Py.strip_chars quotes t)) d
        | None => d
        end in
      map_groups names' gs' d'
  | _, _ => d
  end.

Definition any_in (words : list string) (s : string) : bool :=
  existsb (fun w => Py.contains w s) words.

(** The body run at the first pattern that matches. *)
Definition on_match (action_type : string) (info : pattern_info)
  (gs : Re.groups) (force_ai : bool) (step_text : string) : string * Params :=
  let p1 := map_groups info.(params) gs [] in
  let p2 := if force_ai then Dict.set "force_ai" (PBool true) p1 else p1 in
  let p3 := map_groups info.(params) gs p2 in
  let p4 :=
    if String.eqb action_type "checkbox" && negb (Dict.mem "state" p3) then
      if any_in ["uncheck"; "untick"; "unmark"; "deselect"; "disable"]
           (Py.lower step_text)
      then Dict.set "state" (PStr "unchecked") p3
      else Dict.set "state" (PStr "checked") p3
    else p3 in
  (info.(action), p4).

(** The first pattern of a bucket that matches, with its groups. *)
Fixpoint first_match (pats : list string) (step_text : string)
  : option Re.groups :=
  match pats with
  | [] => None
  | p :: r =>
      match Re.re_match true p step_text with
      | Some gs => Some gs
      | None => first_match r step_text
      end
  end.

(** [_fallback_parse] *)
Definition _fallback_parse (step_text : string) : string * Params :=
  let quoted_strings :=
    Re.re_findall false (Py.py "[`\']([^`\']+)[`\']") step_text in
  let step_lower := Py.lower step_text in
  let q0_or (d : string) := hd d quoted_strings in
  if any_in ["select"; "choose"; "pick"] step_lower
     && Py.contains " in " step_lower then
    if 1 <=? List.length quoted_strings then
      let in_pos :=
        match Py.rfind_l (Py.chars " in ") (Py.chars step_lower) with
        | Some i => i
        | None => 0
        end in
      let element_part := Py.strip (Py.drop_str (in_pos + 4) step_text) in
      ("select", [("option", PStr (q0_or "")); ("element", PStr element_part)])
    else ("select", [("option", PStr ""); ("element", PStr step_text)])
  else if any_in ["select"; "choose"; "pick"] step_lower
          && Py.contains " from " step_lower then
    if 2 <=? List.length quoted_strings then
      ("select", [("option", PStr (q0_or ""));
                  ("element", PStr (nth 1 quoted_strings ""))])
    else ("select", [("option", PStr (q0_or "")); ("element", PStr step_text)])
  else if any_in ["click"; "press"; "tap"] step_lower then
    ("click", [("element", PStr (q0_or step_text))])
  else if any_in ["enter"; "type"; "input"; "fill"] step_lower then
    if 2 <=? List.length quoted_strings then
      ("input", [("value", PStr (q0_or ""));
                 ("element", PStr (nth 1 quoted_strings ""))])
    else ("input", [("value", PStr (q0_or "")); ("element", PStr step_text)])
  else if any_in ["search"] step_lower then
    ("search", [("query", PStr (q0_or step_text))])
  else if any_in ["see"; "verify"; "check"; "should"] step_lower then
    ("verify_text", [("text", PStr (q0_or step_text))])
  else if any_in ["navigate"; "go"; "open"; "visit"] step_lower then
    ("navigate", [("url", PStr (q0_or step_text))])
  else if any_in ["wait"] step_lower then
    ("wait", [("text", PStr (q0_or step_text))])
  else if any_in ["table"; "verify table"; "validate table"] step_lower then
    match quoted_strings with
    | q :: _ => ("verify_table", [("table", PStr q)])
    | [] => ("verify_table", [])
    end
  else ("unknown", [("text", PStr step_text)]).

(** The loop over [pattern_order]; [None] stands for the [KeyError] of a
    bucket name that the table does not have. *)
Fixpoint try_buckets (order : list string) (force_ai : bool)
  (step_text : string) : option (string * Params) :=
  match order with
  | [] => Some (_fallback_parse step_text)
  | action_type :: rest =>
      match Dict.get action_type action_patterns with
      | None => None
      | Some info =>
          match first_match info.(patterns) step_text with
          | Some gs => Some (on_match action_type info gs force_ai step_text)
          | None => try_buckets rest force_ai step_text
          end
      end
  end.

Definition _parse_step_text (step_text : string) : option (string * Params) :=
  let original_step_text := Py.strip step_text in
  let force_ai := Py.contains "[force ai]" (Py.lower original_step_text) in
  let step_text :=
    if force_ai then
      Py.strip (Py.replace "[Force AI]" ""
                 (Py.replace "[FORCE AI]" ""
                   (Py.replace "[force ai]" "" original_step_text)))
    else original_step_text in
  try_buckets pattern_order force_ai step_text.

(** *** [_process_examples] *)

Definition _process_examples (examples_data : list (list string)) : Examples :=
  if List.length examples_data <? 2 then ExEmpty
  else
    match examples_data with
    | [] => ExEmpty
    | headers :: data_rows =>
        ExTable headers
          (map (fun row => Dict.of_zip headers row [])
               (List.filter (fun row => List.length row =? List.length headers)
                       data_rows))
    end.

(** *** [_parse_feature_file]

    The parser mutates the objects it has created while other names still
    refer to them: [current_scenario] and [background] may be one object,
    and [current_step] stays bound to a step of a scenario that has already
    been put into the feature.  Scenario and step objects therefore live in
    two stores and are referred to by their addresses; the values are read
    off the stores when the function returns. *)

Definition addr : Type := nat.

Record PState : Type := mkPState {
  steps_store : list Step;
  scen_store : list (ScenarioOf addr);
  feature : option (FeatureOf addr);
  current_scenario : option addr;
  current_step : option addr;
  background : option addr;
  in_examples : bool;
  examples_data : list (list string);
  tags : list string
}.

Definition init_state : PState :=
  {| steps_store := []; scen_store := []; feature := None;
     current_scenario := None; current_step := None; background := None;
     in_examples := false; examples_data := []; tags := [] |}.

(** The value of a scenario object. *)
Definition scenario_value (steps : list Step) (o : ScenarioOf addr)
  : Scenario :=
  {| sc_name := o.(sc_name); sc_description := o.(sc_description);
     sc_steps := omap (fun a => steps !! a) o.(sc_steps);
     sc_tags := o.(sc_tags); sc_examples := o.(sc_examples);
     sc_line_number := o.(sc_line_number) |}.

Definition scenario_at (st : PState) (a : addr) : option Scenario :=
  option_map (scenario_value st.(steps_store)) (st.(scen_store) !! a).

(** [current_scenario and current_scenario != background]: the dataclass
    [__eq__] compares the fields, and an object differs from [None]. *)
Definition current_is_plain (st : PState) : option addr :=
  match st.(current_scenario) with
  | None => None
  | Some a =>
      match st.(background) with
      | None => Some a
      | Some b =>
          if bool_decide (scenario_at st a = scenario_at st b) then None
          else Some a
      end
  end.

(** [list.append] on the object at an address. *)
Definition update_at {A} (a : addr) (f : A -> A) (l : list A) : list A :=
  match l !! a with
  | Some x => <[a := f x]> l
  | None => l
  end.

Definition append_step (s : addr) (o : ScenarioOf addr) : ScenarioOf addr :=
  {| sc_name := o.(sc_name); sc_description := o.(sc_description);
     sc_steps := o.(sc_steps) ++ [s];
     sc_tags := o.(sc_tags); sc_examples := o.(sc_examples);
     sc_line_number := o.(sc_line_number) |}.

Definition set_examples (e : Examples) (o : ScenarioOf addr)
  : ScenarioOf addr :=
  {| sc_name := o.(sc_name); sc_description := o.(sc_description);
     sc_steps := o.(sc_steps);
     sc_tags := o.(sc_tags); sc_examples := Some e;
     sc_line_number := o.(sc_line_number) |}.

Definition append_row (row : list string) (s : Step) : Step :=
  {| s_type := s.(s_type); s_text := s.(s_text); s_action := s.(s_action);
     s_parameters := s.(s_parameters); s_line_number := s.(s_line_number);
     s_data_table :=
       Some (match s.(s_data_table) with
             | None => [row]
             | Some t => t ++ [row]
             end) |}.

Definition append_scenario {S} (a : S) (f : FeatureOf S) : FeatureOf S :=
  {| f_name := f.(f_name); f_description := f.(f_description);
     f_scenarios := f.(f_scenarios) ++ [a];
     f_tags := f.(f_tags); f_background := f.(f_background);
     f_file_path := f.(f_file_path) |}.

Definition set_background {S} (b : S) (f : FeatureOf S) : FeatureOf S :=
  {| f_name := f.(f_name); f_description := f.(f_description);
     f_scenarios := f.(f_scenarios);
     f_tags := f.(f_tags); f_background := Some b;
     f_file_path := f.(f_file_path) |}.

Definition set_scenarios {S} (l : list S) (f : FeatureOf S) : FeatureOf S :=
  {| f_name := f.(f_name); f_description := f.(f_description);
     f_scenarios := l;
     f_tags := f.(f_tags); f_background := f.(f_background);
     f_file_path := f.(f_file_path) |}.

Definition mem_str (x : string) (l : list string) : bool :=
  existsb (String.eqb x) l.

(** The scenario's own tags, then the feature's tags it does not have. *)
Fixpoint inherit_tags (ftags scenario_tags : list string) : list string :=
  match ftags with
  | [] => scenario_tags
  | ftag :: r =>
      inherit_tags r
        (if mem_str ftag scenario_tags then scenario_tags
         else scenario_tags ++ [ftag])
  end.

(** [[cell.strip() for cell in line.split('|')[1:-1]]] *)
Definition row_of_line (line : string) : list string :=
  map Py.strip (Py.slice_1_m1 (Py.split_on (ascii_of_nat 124) line)).

Definition step_prefixes : list string :=
  ["Given "; "When "; "Then "; "And "; "But "].

Definition is_step_line (line : string) : bool :=
  existsb (fun prefix => Py.startswith prefix line) step_prefixes.

Definition with_tags (st : PState) (t : list string) : PState :=
  {| steps_store := st.(steps_store); scen_store := st.(scen_store);
     feature := st.(feature); current_scenario := st.(current_scenario);
     current_step := st.(current_step); background := st.(background);
     in_examples := st.(in_examples); examples_data := st.(examples_data);
     tags := t |}.

Definition with_feature (st : PState) (f : option (FeatureOf addr)) : PState :=
  {| steps_store := st.(steps_store); scen_store := st.(scen_store);
     feature := f; current_scenario := st.(current_scenario);
     current_step := st.(current_step); background := st.(background);
     in_examples := st.(in_examples); examples_data := st.(examples_data);
     tags := st.(tags) |}.

Definition with_examples (st : PState) (b : bool) (d : list (list string))
  : PState :=
  {| steps_store := st.(steps_store); scen_store := st.(scen_store);
     feature := st.(feature); current_scenario := st.(current_scenario);
     current_step := st.(current_step); background := st.(background);
     in_examples := b; examples_data := d;
     tags := st.(tags) |}.

(** One round of the loop over the lines; [None] stands for an exception,
    which the function's [try] turns into the result [None]. *)
Definition parse_line (file_path : string) (st : PState) (line_num : nat)
  (raw : string) : option PState :=
  let line := Py.strip raw in
  if String.eqb line "" || Py.startswith "#" line then Some st
  else if Py.startswith "@" line then
    Some (with_tags st
            (map Py.strip (List.filter (Py.startswith "@") (Py.split_ws line))))
  else if Py.startswith "Feature:" line then
    Some (with_feature st
            (Some {| f_name := Py.strip (Py.drop_str 8 line);
                     f_description := "";
                     f_scenarios := [];
                     f_tags := st.(tags);
                     f_background := None;
                     f_file_path := file_path |}))
  else if Py.startswith "Background:" line then
    let b := List.length st.(scen_store) in
    Some {| steps_store := st.(steps_store);
            scen_store :=
              st.(scen_store) ++
              [{| sc_name := "Background"; sc_description := "";
                  sc_steps := []; sc_tags := []; sc_examples := None;
                  sc_line_number := 0 |}];
            feature := st.(feature);
            current_scenario := Some b;
            current_step := st.(current_step);
            background := Some b;
            in_examples := st.(in_examples);
            examples_data := st.(examples_data);
            tags := st.(tags) |}
  else if Py.startswith "Scenario:" line
          || Py.startswith "Scenario Outline:" line then
    let flushed : option (option (FeatureOf addr)) :=
      match current_is_plain st with
      | Some a =>
          match st.(feature) with
          | Some f => Some (Some (append_scenario a f))
          | None => None
          end
      | None => Some st.(feature)
      end in
    match flushed with
    | None => None
    | Some feature' =>
        let scenario_name :=
          Py.strip (nth 1 (Py.split1 (ascii_of_nat 58) line) "") in
        let scenario_tags :=
          match feature' with
          | Some f => inherit_tags f.(f_tags) st.(tags)
          | None => st.(tags)
          end in
        let a := List.length st.(scen_store) in
        Some {| steps_store := st.(steps_store);
                scen_store :=
                  st.(scen_store) ++
                  [{| sc_name := scenario_name; sc_description := "";
                      sc_steps := []; sc_tags := scenario_tags;
                      sc_examples := None; sc_line_number := line_num |}];
                feature := feature';
                current_scenario := Some a;
                current_step := st.(current_step);
                background := st.(background);
                in_examples := false;
                examples_data := st.(examples_data);
                tags := [] |}
    end
  else if Py.startswith "Examples:" line then
    Some (with_examples st true [])
  else if st.(in_examples) && Py.startswith "|" line then
    Some (with_examples st true (st.(examples_data) ++ [row_of_line line]))
  else if is_step_line line then
    let step_parts := Py.split1 (ascii_of_nat 32) line in
    match StepType_of (Py.lower (nth 0 step_parts "")) with
    | None => None
    | Some step_type =>
        let step_text :=
          if 1 <? List.length step_parts then nth 1 step_parts "" else "" in
        match _parse_step_text step_text with
        | None => None
        | Some (act, prm) =>
            let s := List.length st.(steps_store) in
            let step :=
              {| s_type := step_type; s_text := step_text; s_action := act;
                 s_parameters := prm; s_line_number := line_num;
                 s_data_table := None |} in
            Some {| steps_store := st.(steps_store) ++ [step];
                    scen_store :=
                      match st.(current_scenario) with
                      | Some a => update_at a (append_step s) st.(scen_store)
                      | None => st.(scen_store)
                      end;
                    feature := st.(feature);
                    current_scenario := st.(current_scenario);
                    current_step := Some s;
                    background := st.(background);
                    in_examples := st.(in_examples);
                    examples_data := st.(examples_data);
                    tags := st.(tags) |}
        end
    end
  else if Py.startswith "|" line && negb st.(in_examples) then
    match st.(current_step) with
    | Some s =>
        Some {| steps_store :=
                  update_at s (append_row (row_of_line line)) st.(steps_store);
                scen_store := st.(scen_store);
                feature := st.(feature);
                current_scenario := st.(current_scenario);
                current_step := st.(current_step);
                background := st.(background);
                in_examples := st.(in_examples);
                examples_data := st.(examples_data);
                tags := st.(tags) |}
    | None => Some st
    end
  else Some st.

(** [for line_num, line in enumerate(lines, 1)] *)
Fixpoint parse_lines (file_path : string) (st : PState) (line_num : nat)
  (lines : list string) : option PState :=
  match lines with
  | [] => Some st
  | raw :: rest =>
      match parse_line file_path st line_num raw with
      | None => None
      | Some st' => parse_lines file_path st' (S line_num) rest
      end
  end.

(** What follows the loop: the last scenario gets its examples and goes
    into the feature, then the background is set. *)
Definition finish (st : PState) : option PState :=
  let after_last : option PState :=
    match current_is_plain st with
    | Some a =>
        let scen :=
          if st.(in_examples) && negb (Nat.eqb (List.length st.(examples_data)) 0)
          then update_at a (set_examples (_process_examples st.(examples_data)))
                         st.(scen_store)
          else st.(scen_store) in
        match st.(feature) with
        | Some f =>
            Some {| steps_store := st.(steps_store); scen_store := scen;
                    feature := Some (append_scenario a f);
                    current_scenario := st.(current_scenario);
                    current_step := st.(current_step);
                    background := st.(background);
                    in_examples := st.(in_examples);
                    examples_data := st.(examples_data);
                    tags := st.(tags) |}
        | None => None
        end
    | None => Some st
    end in
  match after_last with
  | None => None
  | Some st1 =>
      match st1.(background) with
      | Some b =>
          match st1.(feature) with
          | Some f => Some (with_feature st1 (Some (set_background b f)))
          | None => None
          end
      | None => Some st1
      end
  end.

(** The feature the caller gets: every address replaced by the value of
    the object it refers to. *)
Definition feature_value (st : PState) (f : FeatureOf addr) : Feature :=
  {| f_name := f.(f_name); f_description := f.(f_description);
     f_scenarios := omap (scenario_at st) f.(f_scenarios);
     f_tags := f.(f_tags);
     f_background := f.(f_background) ≫= scenario_at st;
     f_file_path := f.(f_file_path) |}.

(** [_parse_feature_file] on the lines of a file that could be read. *)
Definition _parse_feature_file (file_path : string) (lines : list string)
  : option Feature :=
  match parse_lines file_path init_state 1 lines with
  | None => None
  | Some st =>
      match finish st with
      | None => None
      | Some st' => option_map (feature_value st') st'.(feature)
      end
  end.

(** *** [parse_features]

    The directory is the list of its [.feature] files in the order the
    glob yields them, each with its lines; a file that cannot be read has
    no lines to offer and parses to [None] like any other failure. *)
Definition scenario_matches (tags : list string) (sc : Scenario) : bool :=
  existsb (fun tag => mem_str tag sc.(sc_tags)) tags.

Fixpoint parse_features (files : list (string * option (list string)))
  (tags : option (list string)) : list Feature :=
  match files with
  | [] => []
  | (path, content) :: rest =>
      let parsed :=
        match content with
        | Some lines => _parse_feature_file path lines
        | None => None
        end in
      match parsed with
      | None => parse_features rest tags
      | Some feature =>
          match tags with
          | Some ((_ :: _) as ts) =>
              let filtered_scenarios :=
                List.filter (scenario_matches ts) feature.(f_scenarios) in
              match filtered_scenarios with
              | [] => parse_features rest tags
              | _ => set_scenarios filtered_scenarios feature
                     :: parse_features rest tags
              end
          | _ => feature :: parse_features rest tags
          end
      end
  end.

End FeatureParser.

(* ===================================================================== *)
(** ** YAML and JSON documents *)
(* ===================================================================== *)

Module Doc.

(** What [yaml.safe_load] and [json.load] give: scalars, lists, and
    mappings with string keys that keep the order of the document. *)
#[warnings="-register-all"] Inductive value : Type :=
| VNull
| VBool (b : bool)
| VInt (z : Z)
| VStr (s : string)
| VList (l : list value)
| VMap (d : list (string * value)).

(** [isinstance(v, dict)] *)
Definition is_dict (v : value) : bool :=
  match v with VMap _ => true | _ => false end.

End Doc.

(* ===================================================================== *)
(** ** src/core/config_manager.py *)
(* ===================================================================== *)

Module ConfigManager.
Import Doc.

(** [_merge_configs(base, override)]: the keys of [override] are taken in
    order; where both sides hold a dictionary the merge goes down, else
    the override's value is put in. *)
Fixpoint merge_value (base : Dict.t value) (override : value) {struct override}
  : Dict.t value :=
  match override with
  | VMap items =>
      (fix go (items : list (string * value)) (result : Dict.t value)
         {struct items} : Dict.t value :=
         match items with
         | [] => result
         | (key, v) :: rest =>
             let nv :=
               match Dict.get key result with
               | Some (VMap sub) =>
                   if is_dict v then VMap (merge_value sub v) else v
               | _ => v
               end in
             go rest (Dict.set key nv result)
         end) items base
  | _ => base
  end.

Definition _merge_configs (base override : Dict.t value) : Dict.t value :=
  merge_value base (VMap override).

(** The inner loop of [_apply_overrides]: [base[section][key] = value]. *)
Fixpoint set_all (values : Dict.t value) (section : Dict.t value)
  : Dict.t value :=
  match values with
  | [] => section
  | (key, v) :: rest => set_all rest (Dict.set key v section)
  end.

(** [_apply_overrides(base, overrides)], which changes [base] in place;
    the changed dictionary is the result. *)
Fixpoint _apply_overrides (base : Dict.t value) (overrides : Dict.t value)
  : Dict.t value :=
  match overrides with
  | [] => base
  | (section, values) :: rest =>
      let base' :=
        match Dict.get section base, values with
        | Some (VMap cur), VMap vals =>
            Dict.set section (VMap (set_all vals cur)) base
        | _, _ => Dict.set section values base
        end in
      _apply_overrides base' rest
  end.

(** [_process_env_vars(config)] over the process environment [environ]. *)
Fixpoint _process_env_vars (environ : string -> option string) (config : value)
  : value :=
  match config with
  | VMap d =>
      VMap ((fix go (d : list (string * value)) : list (string * value) :=
               match d with
               | [] => []
               | (k, v) :: r => (k, _process_env_vars environ v) :: go r
               end) d)
  | VList l =>
      VList ((fix go (l : list value) : list value :=
                match l with
                | [] => []
                | v :: r => _process_env_vars environ v :: go r
                end) l)
  | VStr s =>
      if Py.startswith "${" s && Py.endswith "}" s then
        let var_name := Py.str (removelast (skipn 2 (Py.chars s))) in
        match environ var_name with
        | Some x => VStr x
        | None => config
        end
      else config
  | _ => config
  end.

(** [load_config()].  [base_doc] and [env_doc] are the mappings the two
    YAML files hold, [None] when the file does not exist.  The result
    [None] stands for the exception of an [overrides] section that is not
    a mapping. *)
Definition load_config (environ : string -> option string)
  (base_doc env_doc : option (Dict.t value)) : option value :=
  let config := match base_doc with Some d => d | None => [] end in
  let merged : option (Dict.t value) :=
    match env_doc with
    | Some env_config =>
        match Dict.get "overrides" env_config with
        | Some overrides =>
            match overrides with
            | VMap ov =>
                Some (_merge_configs (_apply_overrides config ov)
                        (Dict.remove "overrides" env_config))
            | _ => None
            end
        | None => Some (_merge_configs config env_config)
        end
    | None => Some config
    end in
  option_map (fun c => _process_env_vars environ (VMap c)) merged.

(** [get(key, default)] with dot notation. *)
Fixpoint get_path (keys : list string) (v : value) (default : value) : value :=
  match keys with
  | [] => v
  | k :: rest =>
      match v with
      | VMap d =>
          match Dict.get k d with
          | Some x => get_path rest x default
          | None => default
          end
      | _ => default
      end
  end.

Definition get (config : value) (key : string) (default : value) : value :=
  get_path (Py.split_on (ascii_of_nat 46) key) config default.

End ConfigManager.

(* ===================================================================== *)
(** ** src/core/cache_manager.py *)
(* ===================================================================== *)

Module CacheManager.

(** Times and the time to live are seconds, kept as rationals; the clock
    [datetime.now().timestamp()] is read by the caller and passed in. *)
Definition time : Type := Q.

Section WithValue.

(** The cached values; the cache never looks into them. *)
Context {V : Type}.

(** One entry of the cache dictionary.  Both fields are read with
    [data.get], so either may be missing in a file written by hand. *)
Record entry : Type := mkEntry {
  e_value : option V;
  e_timestamp : option time
}.

(** What a cache file holds: a JSON document of entries, or text that
    [json.load] or the expiry scan cannot handle. *)
Inductive content : Type :=
| Document (d : gmap string entry)
| Garbage.

(** The files of the disk, each under the name of the file itself: two
    paths that lead to one file have one entry. *)
Local Abbreviation disk := (gmap string content).

(** The file system is outside the program.  [file_at dir name] is the
    file that [Path(dir) / name] leads to, once [pathlib] has joined the
    two and the system has resolved the path.  [creatable file] tells
    whether a file that is not there yet can be created, that is whether
    [open(file, 'w')] goes through: it does not when the directory of the
    file is missing. *)
Variable file_at : string -> string -> string.
Variable creatable : string -> bool.

Record t : Type := mkCM {
  cache_dir : string;
  ttl : time;
  cache : gmap string entry;
  project_name : option string
}.

(** [CacheManager(cache_dir, ttl)] *)
Definition init (cache_dir : string) (ttl : time) : t :=
  {| cache_dir := cache_dir; ttl := ttl; cache := ∅; project_name := None |}.

(** [not self.project_name]: unset, or the empty name. *)
Definition no_project (cm : t) : bool :=
  match cm.(project_name) with
  | None => true
  | Some n => String.eqb n ""
  end.

(** [self.cache_dir / f"{self.project_name}_cache.json"] *)
Definition cache_file (cm : t) : string :=
  file_at cm.(cache_dir) (default "" cm.(project_name) +:+ "_cache.json").

(** [open(cache_file, 'w')] goes through: the file is there and is
    written over, or it can be created. *)
Definition writable (fs : disk) (file : string) : bool :=
  bool_decide (is_Some (fs !! file)) || creatable file.

Definition with_cache (cm : t) (c : gmap string entry) : t :=
  {| cache_dir := cm.(cache_dir); ttl := cm.(ttl); cache := c;
     project_name := cm.(project_name) |}.

(** [data.get('timestamp', 0)] *)
Definition stamp (e : entry) : time := default 0%Q e.(e_timestamp).

(** [current_time - data.get('timestamp', 0) > self.ttl] *)
Definition expired (ttl now : time) (e : entry) : bool :=
  negb (Qle_bool (now - stamp e) ttl).

(** [_save_cache()]; when the file cannot be opened the exception is
    caught and printed, and nothing is written. *)
Definition _save_cache (cm : t) (fs : disk) : disk :=
  if no_project cm then fs
  else if writable fs (cache_file cm)
       then <[cache_file cm := Document cm.(cache)]> fs
       else fs.

(** [_clean_expired()] *)
Definition _clean_expired (now : time) (cm : t) (fs : disk) : t * disk :=
  let expired_keys : gset string :=
    dom (filter (fun kv => expired cm.(ttl) now kv.2 = true) cm.(cache)) in
  let cm' :=
    with_cache cm
      (filter (fun kv => expired cm.(ttl) now kv.2 = false) cm.(cache)) in
  if bool_decide (expired_keys = ∅) then (cm', fs)
  else (cm', _save_cache cm' fs).

(** [_load_cache()] *)
Definition _load_cache (now : time) (cm : t) (fs : disk) : t * disk :=
  if no_project cm then (cm, fs)
  else
    match fs !! cache_file cm with
    | Some (Document d) => _clean_expired now (with_cache cm d) fs
    | Some Garbage => (with_cache cm ∅, fs)
    | None => (cm, fs)
    end.

(** [set_project(project_name)] *)
Definition set_project (name : string) (now : time) (cm : t) (fs : disk)
  : t * disk :=
  _load_cache now
    {| cache_dir := cm.(cache_dir); ttl := cm.(ttl); cache := cm.(cache);
       project_name := Some (Py.replace " " "_" (Py.lower name)) |}
    fs.

(** [get(key)] *)
Definition get (key : string) (now : time) (cm : t) : option V :=
  match cm.(cache) !! key with
  | Some data =>
      if Qle_bool (now - stamp data) cm.(ttl) then data.(e_value) else None
  | None => None
  end.

(** [save_cache(key, value)] *)
Definition save_cache (key : string) (value : V) (now : time) (cm : t)
  (fs : disk) : t * disk :=
  let cm' :=
    with_cache cm
      (<[key := {| e_value := Some value; e_timestamp := Some now |}]>
         cm.(cache)) in
  (cm', _save_cache cm' fs).

(** [clear_cache()] *)
Definition clear_cache (cm : t) (fs : disk) : t * disk :=
  let cm' := with_cache cm ∅ in
  (cm', _save_cache cm' fs).

(** A run of [save_cache] calls, each with the clock at its time. *)
Fixpoint save_all (writes : list (string * V * time)) (cm : t) (fs : disk)
  : t * disk :=
  match writes with
  | [] => (cm, fs)
  | (key, value, now) :: rest =>
      let r := save_cache key value now cm fs in
      save_all rest r.1 r.2
  end.

End WithValue.

Arguments entry : clear implicits.
Arguments content : clear implicits.
Arguments t : clear implicits.

(** The files of the disk. *)
Abbreviation disk V := (gmap string (content V)).

End CacheManager.

(* ===================================================================== *)
(** ** src/core/ai_element_finder.py *)
(* ===================================================================== *)

Module AIElementFinder.

(** The dictionary a lookup produces. *)
Record ElementInfo : Type := mkInfo {
  type : string;
  selector : option string;
  position : Q * Q;
  bounds : option (Dict.t Q);
  confidence : Q;
  in_iframe : bool
}.

Definition mark_in_iframe (e : ElementInfo) : ElementInfo :=
  {| type := e.(type); selector := e.(selector); position := e.(position);
     bounds := e.(bounds); confidence := e.(confidence); in_iframe := true |}.

Record t : Type := mkFinder {
  model : bool;
  cache_manager : option (CacheManager.t ElementInfo);
  element_cache : gmap string ElementInfo
}.

Section Browser.

(** The browser is outside the program.  A page or frame answers the
    queries the finder puts to it; [None] stands for a call that raises. *)
Context {Page Screenshot : Type}.
Variable url : Page -> string.
Variable locator_count : Page -> string -> option nat.
Variable iframes : Page -> option (list (option Page)).

(** [_pattern_match] and [_ai_detect] read the page, the description and
    the model only; they are taken as they answer. *)
Variable _pattern_match : Page -> string -> option ElementInfo.
Variable _ai_detect : Screenshot -> string -> option ElementInfo.

(** The file system the cache manager writes to. *)
Variable file_at : string -> string -> string.
Variable creatable : string -> bool.

(** [_cache_element(key, element_info)] *)
Definition _cache_element (now : CacheManager.time) (key : string)
  (element_info : ElementInfo) (f : t) (fs : CacheManager.disk ElementInfo)
  : t * CacheManager.disk ElementInfo :=
  match f.(cache_manager) with
  | Some cm =>
      let r :=
        CacheManager.save_cache file_at creatable key element_info now cm fs in
      ({| model := f.(model); cache_manager := Some r.1;
          element_cache := <[key := element_info]> f.(element_cache) |}, r.2)
  | None => (f, fs)
  end.

(** The loop over the iframes: the first frame in which the pattern
    matching finds the element. *)
Fixpoint first_in_frames (frames : list (option Page)) (description : string)
  : option ElementInfo :=
  match frames with
  | [] => None
  | Some frame :: rest =>
      match _pattern_match frame description with
      | Some element_info => Some (mark_in_iframe element_info)
      | None => first_in_frames rest description
      end
  | None :: rest => first_in_frames rest description
  end.

(** The check of the in-memory cache at the head of [find_element]. *)
Definition cached_hit (page : Page) (cache_key : string) (f : t)
  : option ElementInfo :=
  match f.(cache_manager), f.(element_cache) !! cache_key with
  | Some _, Some cached =>
      match cached.(selector) with
      | Some sel =>
          match locator_count page sel with
          | Some n => if 0 <? n then Some cached else None
          | None => None
          end
      | None => None
      end
  | _, _ => None
  end.

(** [find_element(page, description, screenshot)] *)
Definition find_element (now : CacheManager.time) (page : Page)
  (description : string) (screenshot : option Screenshot) (f : t)
  (fs : CacheManager.disk ElementInfo)
  : option ElementInfo * (t * CacheManager.disk ElementInfo) :=
  let cache_key := url page +:+ ":" +:+ description in
  match cached_hit page cache_key f with
  | Some cached => (Some cached, (f, fs))
  | None =>
      match _pattern_match page description with
      | Some element_info =>
          (Some element_info, _cache_element now cache_key element_info f fs)
      | None =>
          let in_frames :=
            match iframes page with
            | Some frames => first_in_frames frames description
            | None => None
            end in
          match in_frames with
          | Some element_info =>
              (Some element_info,
               _cache_element now cache_key element_info f fs)
          | None =>
              match f.(model), screenshot with
              | true, Some shot =>
                  match _ai_detect shot description with
                  | Some element_info =>
                      (Some element_info,
                       _cache_element now cache_key element_info f fs)
                  | None => (None, (f, fs))
                  end
              | _, _ => (None, (f, fs))
              end
          end
      end
  end.

(** A run of lookups on one finder, each at its time. *)
Fixpoint find_all
  (calls : list (CacheManager.time * Page * string * option Screenshot))
  (f : t) (fs : CacheManager.disk ElementInfo) : list (option ElementInfo) :=
  match calls with
  | [] => []
  | (now, page, description, screenshot) :: rest =>
      let r := find_element now page description screenshot f fs in
      r.1 :: find_all rest r.2.1 r.2.2
  end.

End Browser.

End AIElementFinder.

(* ===================================================================== *)
(** ** src/core/browser_manager.py *)
(* ===================================================================== *)

Module BrowserManager.

(** The four things [stop] releases. *)
Inductive stage : Type := PageStage | ContextStage | BrowserStage | DriverStage.

#[global] Instance stage_eq_dec : EqDecision stage.
Proof. solve_decision. Defined.

(** The manager's fields; a handle is [None] until [start] has set it. *)
Record t (H : Type) : Type := mkBM {
  playwright : option H;
  browser : option H;
  context : option H;
  page : option H
}.
Arguments mkBM {H}.
Arguments playwright {H}.
Arguments browser {H}.
Arguments context {H}.
Arguments page {H}.

(** How a call of [stop] ends. *)
Inductive outcome : Type :=
| Returned
| Raised (at_stage : stage).

Section Stop.

Context {H : Type}.

(** Whether closing a handle raises; the engine decides. *)
Variable close_raises : stage -> H -> bool.

(** One guarded statement of [stop]: [if self.x: self.x.close()], followed
    by the rest of the body unless the call raises. *)
Definition close_then (s : stage) (h : option H)
  (rest : list stage * outcome) : list stage * outcome :=
  match h with
  | None => rest
  | Some x =>
      if close_raises s x then ([s], Raised s)
      else (s :: rest.1, rest.2)
  end.

(** [stop()]: the close calls that were made, in order, and the outcome. *)
Definition stop (bm : t H) : list stage * outcome :=
  close_then PageStage bm.(page)
    (close_then ContextStage bm.(context)
       (close_then BrowserStage bm.(browser)
          (close_then DriverStage bm.(playwright) ([], Returned)))).

End Stop.

End BrowserManager.

(* ===================================================================== *)
(** ** src/executor/test_executor.py *)
(* ===================================================================== *)

Module TestExecutor.
Import FeatureParser.

Inductive status : Type := passed | failed.

#[global] Instance status_eq_dec : EqDecision status.
Proof. solve_decision. Defined.

(** The dictionary [execute_step] returns, with the [text] the scenario
    loop adds to it. *)
Record StepResult : Type := mkStepResult {
  sr_status : status;
  sr_action : string;
  sr_parameters : Params;
  sr_error : option string;
  sr_screenshot : option string;
  sr_text : option string
}.

Definition with_text (text : string) (r : StepResult) : StepResult :=
  {| sr_status := r.(sr_status); sr_action := r.(sr_action);
     sr_parameters := r.(sr_parameters); sr_error := r.(sr_error);
     sr_screenshot := r.(sr_screenshot); sr_text := Some text |}.

Record ScenarioResult : Type := mkScenarioResult {
  r_feature : string;
  r_scenario : string;
  r_status : status;
  r_steps : list StepResult;
  r_error : option string;
  r_duration : nat;
  r_screenshot : option (option string)
}.

(** The parameters handed to [execute_step]: a copy of the step's, with
    the data table when the step has a non-empty one. *)
Definition params_of (step : Step) : Params :=
  match step.(s_data_table) with
  | Some ((_ :: _) as table) => Dict.set "data_table" (PTable table) step.(s_parameters)
  | _ => step.(s_parameters)
  end.

Section World.

(** The browser and the step executor act on a world [W] that the
    scenario loop only passes along. *)
Context {W : Type}.
Variable start : W -> W.
Variable execute_step : W -> string -> Params -> W * StepResult.
Variable take_screenshot : W -> string -> W * option string.
Variable stop : W -> W.

(** What the loops hand back: the world, the results recorded so far, the
    steps that were passed to [execute_step] in order, and how the loop
    ended. *)
Record progress : Type := mkProgress {
  p_world : W;
  p_results : list StepResult;
  p_executed : list Step;
  p_failure : option (option string)
}.

(** The loop over the background's steps; it stops at the first failed
    step with the text of the exception it raises. *)
Fixpoint run_background (w : W) (steps : list Step) (executed : list Step)
  : W * list Step * option string :=
  match steps with
  | [] => (w, executed, None)
  | step :: rest =>
      let r := execute_step w step.(s_action) (params_of step) in
      match r.2.(sr_status) with
      | failed =>
          (r.1, executed ++ [step],
           Some ("Background step failed: " +:+ step.(s_text)))
      | passed => run_background r.1 rest (executed ++ [step])
      end
  end.

(** The loop over the scenario's steps, with its [break]. *)
Fixpoint run_steps (w : W) (steps : list Step) (results : list StepResult)
  (executed : list Step) : progress :=
  match steps with
  | [] => {| p_world := w; p_results := results; p_executed := executed;
             p_failure := None |}
  | step :: rest =>
      let r := execute_step w step.(s_action) (params_of step) in
      let step_result := with_text step.(s_text) r.2 in
      match step_result.(sr_status) with
      | failed =>
          {| p_world := r.1; p_results := results ++ [step_result];
             p_executed := executed ++ [step];
             p_failure := Some step_result.(sr_error) |}
      | passed =>
          run_steps r.1 rest (results ++ [step_result]) (executed ++ [step])
      end
  end.

(** [_execute_scenario(feature, scenario)]: the scenario result, the world
    it leaves, and the scenario steps that were executed. *)
Definition _execute_scenario (feature : Feature) (scenario : Scenario) (w : W)
  : ScenarioResult * W * list Step :=
  let w0 := start w in
  let bg :=
    match feature.(f_background) with
    | Some background => run_background w0 background.(sc_steps) []
    | None => (w0, [], None)
    end in
  let body : progress :=
    match bg.2 with
    | Some msg =>
        {| p_world := bg.1.1; p_results := []; p_executed := [];
           p_failure := Some (Some msg) |}
    | None => run_steps bg.1.1 scenario.(sc_steps) [] []
    end in
  let st := match body.(p_failure) with Some _ => failed | None => passed end in
  let shot : W * option (option string) :=
    match st with
    | failed =>
        let s :=
          take_screenshot body.(p_world)
            (Py.replace " " "_"
               (feature.(f_name) +:+ "_" +:+ scenario.(sc_name) +:+ "_failed")) in
        (s.1, Some s.2)
    | passed => (body.(p_world), None)
    end in
  ({| r_feature := feature.(f_name);
      r_scenario := scenario.(sc_name);
      r_status := st;
      r_steps := body.(p_results);
      r_error := default None body.(p_failure);
      r_duration := 0;
      r_screenshot := shot.2 |},
   stop shot.1,
   body.(p_executed)).




End World.

End TestExecutor.

(* ===================================================================== *)
(** ** src/executor/api_executor.py *)
(* ===================================================================== *)

Module APIExecutor.
Import Doc.

(** The exceptions the executor raises or lets through. *)
Inductive exn : Type :=
| ValueError (msg : string)
| KeyError (key : string)
| TypeError
| AttributeError
| AssertionError (msg : string)
| TimeoutError
| ClientError (msg : string).

Definition res (A : Type) : Type := exn + A.

Definition bind {A B} (x : res A) (k : A -> res B) : res B :=
  match x with
  | inl e => inl e
  | inr a => k a
  end.

Notation "'let*' x ':=' c1 'in' c2" := (bind c1 (fun x => c2))
  (at level 10, x name, c1 at level 100, c2 at level 200).

(** The dictionary of one request, as it is sent and logged. *)
Record request : Type := mkRequest {
  rq_method : value;
  rq_url : string;
  rq_headers : value;
  rq_params : option value;
  rq_body : option value
}.

(** The dictionary built from a response. *)
Record response : Type := mkResponse {
  rs_status : Z;
  rs_headers : Dict.t string;
  rs_body : value;
  rs_response_time : Q;
  rs_url : string
}.

(** What the HTTP client does with a request. *)
Inductive net_outcome : Type :=
| Responded (status : Z) (headers : Dict.t string) (text : string)
    (elapsed : Q) (url : string)
| TimedOut
| Failed (msg : string) (elapsed : Q).

(** One record of the reporter. *)
Inductive logged : Type :=
| LogResponse (rq : request) (rs : response) (test_name : string)
| LogError (rq : request) (error : string) (elapsed : Q) (test_name : string).

Record t : Type := mkExecutor {
  context : Dict.t string;
  auth_token : option string;
  session : bool;
  reporter : list logged;
  api_config : Dict.t value;
  base_url : string;
  timeout : Q;
  sent : list request
}.

Definition with_context (ex : t) (c : Dict.t string) : t :=
  {| context := c; auth_token := ex.(auth_token); session := ex.(session);
     reporter := ex.(reporter); api_config := ex.(api_config);
     base_url := ex.(base_url); timeout := ex.(timeout); sent := ex.(sent) |}.

Definition with_log (ex : t) (l : logged) : t :=
  {| context := ex.(context); auth_token := ex.(auth_token);
     session := ex.(session); reporter := ex.(reporter) ++ [l];
     api_config := ex.(api_config); base_url := ex.(base_url);
     timeout := ex.(timeout); sent := ex.(sent) |}.

Definition with_sent (ex : t) (rq : request) : t :=
  {| context := ex.(context); auth_token := ex.(auth_token);
     session := ex.(session); reporter := ex.(reporter);
     api_config := ex.(api_config); base_url := ex.(base_url);
     timeout := ex.(timeout); sent := ex.(sent) ++ [rq] |}.

(** [store_value(key, value)]; the context keeps each value as the text
    [str] gives it, which is all the templating reads. *)
Definition store_value (key value : string) (ex : t) : t :=
  with_context ex (Dict.set key value ex.(context)).

(** [not self.auth_token] *)
Definition no_token (ex : t) : bool :=
  match ex.(auth_token) with
  | None => true
  | Some tok => String.eqb tok ""
  end.

(** The [replacer] of [_resolve_variables]. *)
Definition replacer (ex : t) (gs : Re.groups) : res string :=
  let var_name := default "" (nth 0 gs None) in
  let default_value := nth 1 gs None in
  match Dict.get var_name ex.(context) with
  | Some v => inr v
  | None =>
      if String.eqb var_name "auth_token" && negb (no_token ex)
      then inr (default "" ex.(auth_token))
      else
        match default_value with
        | Some d => inr d
        | None =>
            inl (ValueError ("Variable '" +:+ var_name +:+
                             "' not found in context"))
        end
  end.

(** [_resolve_variables(text)] on a string. *)
Definition resolve_str (ex : t) (text : string) : res string :=
  Re.re_sub false "\$\{([^:}]+)(?::([^}]+))?\}" (replacer ex) text.

(** [_resolve_variables(text)]: anything but a string comes back as is. *)
Definition _resolve_variables (ex : t) (text : value) : res value :=
  match text with
  | VStr s => let* s' := resolve_str ex s in inr (VStr s')
  | _ => inr text
  end.

(** The list case of [_resolve_dict_variables]. *)
Fixpoint resolve_items (ex : t) (l : list value) : res (list value) :=
  match l with
  | [] => inr []
  | item :: rest =>
      let* item' := _resolve_variables ex item in
      let* rest' := resolve_items ex rest in
      inr (item' :: rest')
  end.

(** [_resolve_dict_variables(data)] *)
Fixpoint _resolve_dict_variables (ex : t) (data : value) {struct data}
  : res value :=
  match data with
  | VMap d =>
      let* d' := (fix go (d : list (string * value)) : res (list (string * value)) :=
               match d with
               | [] => inr []
               | (key, v) :: rest =>
                   let* v' := match v with
                              | VStr _ => _resolve_variables ex v
                              | VMap _ => _resolve_dict_variables ex v
                              | VList l =>
                                  let* l' := resolve_items ex l in inr (VList l')
                              | _ => inr v
                              end in
                   let* rest' := go rest in
                   inr ((key, v') :: rest')
               end) d in
      inr (VMap d')
  | _ => inr data
  end.

(** [k in v] for a string [k]. *)
Definition py_in (k : string) (v : value) : res bool :=
  match v with
  | VMap d => inr (Dict.mem k d)
  | VList l =>
      inr (existsb (fun x => match x with
                             | VStr s => String.eqb s k
                             | _ => false
                             end) l)
  | VStr s => inr (Py.contains k s)
  | _ => inl TypeError
  end.

(** [v[k]] for a string [k]. *)
Definition py_getitem (k : string) (v : value) : res value :=
  match v with
  | VMap d =>
      match Dict.get k d with
      | Some x => inr x
      | None => inl (KeyError k)
      end
  | _ => inl TypeError
  end.

(** [v.get(k)] *)
Definition py_get (k : string) (v : value) : res (option value) :=
  match v with
  | VMap d => inr (Dict.get k d)
  | _ => inl AttributeError
  end.

(** [_get_api_config(api_name)] *)
Fixpoint find_api (api_name : string) (categories : list (string * value))
  : res value :=
  match categories with
  | [] =>
      inl (ValueError ("API '" +:+ api_name +:+ "' not found in configuration"))
  | (category, apis) :: rest =>
      let* found := py_in api_name apis in
      if found : bool then py_getitem api_name apis
      else find_api api_name rest
  end.

Definition _get_api_config (ex : t) (api_name : string) : res value :=
  let* apis := py_getitem "apis" (VMap ex.(api_config)) in
  match apis with
  | VMap categories => find_api api_name categories
  | _ => inl AttributeError
  end.

(** [for key, value in kwargs.items(): self.store_value(key, value)] *)
Fixpoint store_all (kwargs : Dict.t string) (ex : t) : t :=
  match kwargs with
  | [] => ex
  | (key, v) :: rest => store_all rest (store_value key v ex)
  end.

(** The [request.body] and [request.query] sections. *)
Definition request_part (ex : t) (api : value) (part : string)
  : res (option value) :=
  let* has_request := py_in "request" api in
  if has_request : bool then
    let* rq := py_getitem "request" api in
    let* has_part := py_in part rq in
    if has_part : bool then
      let* v := py_getitem part rq in
      let* v' := _resolve_dict_variables ex v in
      inr (Some v')
    else inr None
  else inr None.

Section Network.

(** The HTTP client, the JSON decoder and the two helpers that work on a
    response are taken as they answer. *)
Variable send : request -> net_outcome.
Variable json_loads : string -> option value.
Variable falsy : value -> bool.
Variable _extract_response_values : t -> value -> value -> t.
Variable _validate_response : response -> value -> option exn.
Variable str_exn : exn -> string.
Variable str_seconds : Q -> string.

(** The time that has passed when a request that could not be handed to
    a session is logged: [time.time() - start_time] in the handler. *)
Variable unsent_elapsed : request -> Q.

(** [test_name or api_name]: the API name also stands in for an empty
    test name. *)
Definition logged_name (test_name : option string) (api_name : string)
  : string :=
  match test_name with
  | Some name => if String.eqb name "" then api_name else name
  | None => api_name
  end.

(** What [execute_api] does up to the request: the request to send, or
    the exception raised before anything is sent. *)
Definition prepare (ex : t) (api : value) : res request :=
  let* method := py_getitem "method" api in
  let* endpoint_t := py_getitem "endpoint" api in
  let* endpoint := _resolve_variables ex endpoint_t in
  let* url := match endpoint with
              | VStr e => inr (ex.(base_url) +:+ e)
              | _ => inl TypeError
              end in
  let* headers_t := py_get "headers" api in
  let* headers := _resolve_dict_variables ex (default (VMap []) headers_t) in
  let* auth := py_get "auth" api in
  if match auth with
     | Some (VStr a) => String.eqb a "required" && no_token ex
     | _ => false
     end
  then inl (ValueError "Authentication required but no auth token available")
  else
    let* body := request_part ex api "body" in
    let* params := request_part ex api "query" in
    inr {| rq_method := method; rq_url := url; rq_headers := headers;
           rq_params := params; rq_body := body |}.

(** The [except Exception] handler: the failed call is logged and the
    exception goes on. *)
Definition log_failure (ex : t) (rq : request) (e : exn) (elapsed : Q)
  (name : string) : t * res response :=
  (with_log ex (LogError rq ("Request failed: " +:+ str_exn e) elapsed name),
   inl e).

(** [execute_api(api_name, test_name, **kwargs)]: the executor after the
    call, and the response or the exception. *)
Definition execute_api (ex : t) (api_name : string) (test_name : option string)
  (kwargs : Dict.t string) : t * res response :=
  match _get_api_config ex api_name with
  | inl e => (ex, inl e)
  | inr api =>
      match py_get "name" api with
      | inl e => (ex, inl e)
      | inr _ =>
          let ex1 := store_all kwargs ex in
          match prepare ex1 api with
          | inl e => (ex1, inl e)
          | inr rq =>
              let name := logged_name test_name api_name in
              if negb ex1.(session)
              then log_failure ex1 rq AttributeError (unsent_elapsed rq) name
              else
                let ex2 := with_sent ex1 rq in
                match send rq with
                | TimedOut =>
                    (with_log ex2
                       (LogError rq
                          ("Request timeout after " +:+
                           str_seconds ex2.(timeout) +:+ "s")
                          ex2.(timeout) name),
                     inl TimeoutError)
                | Failed msg elapsed =>
                    log_failure ex2 rq (ClientError msg) elapsed name
                | Responded status headers text elapsed url =>
                    let body :=
                      match json_loads text with
                      | Some j => if falsy j then VStr text else j
                      | None => VStr text
                      end in
                    let result :=
                      {| rs_status := status; rs_headers := headers;
                         rs_body := body; rs_response_time := elapsed;
                         rs_url := url |} in
                    let ex3 := with_log ex2 (LogResponse rq result name) in
                    match
                      (let* has_response := py_in "response" api in
                       if has_response : bool then
                         let* rsp := py_getitem "response" api in
                         let* has_extract := py_in "extract" rsp in
                         if has_extract : bool then
                           let* cfg := py_getitem "extract" rsp in
                           inr (_extract_response_values ex3 body cfg)
                         else inr ex3
                       else inr ex3)
                    with
                    | inl e => log_failure ex3 rq e elapsed name
                    | inr ex4 =>
                        match
                          (let* has_validation := py_in "validation" api in
                           if has_validation : bool then
                             let* cfg := py_getitem "validation" api in
                             match _validate_response result cfg with
                             | Some e => inl e
                             | None => inr tt
                             end
                           else inr tt)
                        with
                        | inl e => log_failure ex4 rq e elapsed name
                        | inr _ => (ex4, inr result)
                        end
                    end
                end
          end
      end
  end.

End Network.

End APIExecutor.

(* ===================================================================== *)
(** ** src/executor/step_executor.py: table verification *)
(* ===================================================================== *)

Module StepExecutor.
Import FeatureParser.

(** The page is outside the program; its elements answer the queries the
    handler puts to them, [None] standing for a call that raises. *)
Record Cell : Type := mkCell {
  text_content : option string;
  inner_text : option string;
  descendants : string -> option (list (option string));
  evaluated : option string
}.

Record Row : Type := mkRow {
  cells : list Cell;
  row_text : option string
}.

Record Table : Type := mkTable {
  headers_by : string -> option (list (option string));
  rows_by : string -> option (list Row)
}.

Record Page : Type := mkPage {
  tables_by : string -> option (list Table);
  all_rows : option (list Row)
}.

Inductive exn : Type :=
| Exception (msg : string)
| KeyError (key : string)
| EngineError.

Inductive verdict : Type := v_passed | v_failed | v_skipped.

#[global] Instance verdict_eq_dec : EqDecision verdict.
Proof. solve_decision. Defined.

Record detail : Type := mkDetail {
  d_header : string;
  d_status : verdict;
  d_expected : option string;
  d_actual : option string;
  d_message : option string
}.

Record row_result : Type := mkRowResult {
  rr_row : nat;
  rr_status : verdict;
  rr_details : option (list detail);
  rr_error : option string
}.

Definition table_selectors (table_identifier : string) : list string :=
  ["table#" +:+ table_identifier;
   "table." +:+ table_identifier;
   Py.py "table[aria-label*=`" +:+ table_identifier +:+ Py.py "` i]";
   "#" +:+ table_identifier;
   "." +:+ table_identifier;
   "table.ant-table";
   Py.py "table[role=`table`]";
   ".ant-table-wrapper table";
   "table"].

(** The first selector that yields at least one element gives the table. *)
Fixpoint find_table (page : Page) (selectors : list string) : option Table :=
  match selectors with
  | [] => None
  | selector :: rest =>
      match page.(tables_by) selector with
      | Some (table_element :: _) => Some table_element
      | _ => find_table page rest
      end
  end.

Definition header_selectors : list string :=
  ["thead th"; "thead td"; "th"; ".ant-table-thead th";
   "tr:first-child td"; "tr:first-child th"].

(** The texts of one selector's header cells are added to the headers
    found so far; the flag is [false] when a cell raises, and the headers
    added before it stay. *)
Fixpoint add_headers (headers : list (option string)) (acc : list string)
  : list string * bool :=
  match headers with
  | [] => (acc, true)
  | None :: _ => (acc, false)
  | Some t :: rest =>
      let header_text := Py.strip t in
      add_headers rest
        (if String.eqb header_text "" then acc else acc ++ [header_text])
  end.

Fixpoint collect_headers (table : Table) (selectors : list string)
  (actual_headers : list string) : list string :=
  match selectors with
  | [] => actual_headers
  | header_selector :: rest =>
      match table.(headers_by) header_selector with
      | Some ((_ :: _) as headers) =>
          let r := add_headers headers actual_headers in
          if r.2 && negb (Nat.eqb (List.length r.1) 0) then r.1
          else collect_headers table rest r.1
      | _ => collect_headers table rest actual_headers
      end
  end.

(** The index of the first element that satisfies [p]. *)
Fixpoint index_where {A} (p : A -> bool) (l : list A) (i : nat) : option nat :=
  match l with
  | [] => None
  | x :: r => if p x then Some i else index_where p r (S i)
  end.

Definition either_contains (a b : string) : bool :=
  Py.contains a b || Py.contains b a.

Fixpoint map_columns (expected_headers actual_headers : list string)
  (column_map : Dict.t nat) : Dict.t nat :=
  match expected_headers with
  | [] => column_map
  | expected_header :: rest =>
      let exact :=
        index_where
          (fun actual_header =>
             String.eqb (Py.lower actual_header) (Py.lower expected_header))
          actual_headers 0 in
      let m1 :=
        match exact with
        | Some i => Dict.set expected_header i column_map
        | None => column_map
        end in
      let m2 :=
        if Dict.mem expected_header m1 then m1
        else
          match index_where
                  (fun actual_header =>
                     either_contains (Py.lower expected_header)
                       (Py.lower actual_header))
                  actual_headers 0 with
          | Some i => Dict.set expected_header i m1
          | None => m1
          end in
      map_columns rest actual_headers m2
  end.

(** The rows of one approach that have cells and do not start with a
    header; [None] when a first cell raises. *)
Fixpoint data_rows_of (rows : list Row) (actual_headers : list string)
  : option (list Row) :=
  match rows with
  | [] => Some []
  | row :: rest =>
      match row.(cells) with
      | [] => data_rows_of rest actual_headers
      | first :: _ =>
          match first.(text_content) with
          | None => None
          | Some t =>
              match data_rows_of rest actual_headers with
              | None => None
              | Some more =>
                  if mem_str (Py.strip t) actual_headers then Some more
                  else Some (row :: more)
              end
          end
      end
  end.

Definition row_approaches : list string :=
  ["tbody tr"; ".ant-table-tbody tr"; "tr"].

Fixpoint find_rows (table : Table) (approaches : list string)
  (actual_headers : list string) : list Row :=
  match approaches with
  | [] => []
  | approach :: rest =>
      match table.(rows_by) approach with
      | Some ((_ :: _) as rows) =>
          match data_rows_of rows actual_headers with
          | Some ((_ :: _) as data_rows) => data_rows
          | _ => find_rows table rest actual_headers
          end
      | _ => find_rows table rest actual_headers
      end
  end.

(** The last resort: the rows of the page whose text holds an expected
    value and that have cells. *)
Definition fallback_rows (all : list Row) (expected_rows : list (list string))
  : list Row :=
  List.filter
    (fun row =>
       match row.(row_text) with
       | Some text =>
           existsb (fun expected_row =>
                      existsb (fun expected_value =>
                                 Py.contains expected_value text)
                              expected_row)
                   expected_rows
           && negb (Nat.eqb (List.length row.(cells)) 0)
       | None => false
       end)
    all.

Definition status_selectors : list string :=
  ["span"; "div"; Py.py "[class*=`badge`]"; Py.py "[class*=`status`]";
   Py.py "[class*=`tag`]"; ".ant-tag"; ".ant-badge"].

(** The third way to a cell's text: the first descendant with a text.
    [inl tt] stands for a call that raised. *)
Fixpoint first_text (elements : list (option string)) : unit + option string :=
  match elements with
  | [] => inr None
  | None :: _ => inl tt
  | Some t :: rest =>
      let text := Py.strip t in
      if negb (String.eqb text "") && negb (String.eqb text " ")
      then inr (Some text)
      else first_text rest
  end.

Fixpoint by_selectors (cell : Cell) (selectors : list string) : string :=
  match selectors with
  | [] => ""
  | selector :: rest =>
      match cell.(descendants) selector with
      | None => ""
      | Some elements =>
          match first_text elements with
          | inl _ => ""
          | inr (Some text) => text
          | inr None => by_selectors cell rest
          end
      end
  end.

Definition stripped (t : option string) : string :=
  match t with
  | Some x => Py.strip x
  | None => ""
  end.

(** The four ways to a cell's text, each tried while the text is empty. *)
Definition cell_text (actual_cell : Cell) : string :=
  let v1 := stripped actual_cell.(text_content) in
  let v2 :=
    if String.eqb v1 "" then
      match actual_cell.(inner_text) with
      | Some x => Py.strip x
      | None => v1
      end
    else v1 in
  let v3 := if String.eqb v2 "" then by_selectors actual_cell status_selectors
            else v2 in
  if String.eqb v3 "" then
    match actual_cell.(evaluated) with
    | Some x => Py.strip x
    | None => v3
    end
  else v3.

(** The comparison of one expected value with the cell under its header. *)
Definition check_value (header expected_value : string) (column_index : nat)
  (row_cells : list Cell) : detail :=
  match row_cells !! column_index with
  | None =>
      {| d_header := header; d_status := v_failed;
         d_expected := Some expected_value;
         d_actual := Some "Cell not found";
         d_message := Some ("Column " +:+ Py.str_of_nat column_index +:+
                            " not found in row") |}
  | Some actual_cell =>
      let actual_value := cell_text actual_cell in
      if String.eqb (Py.strip expected_value) "*"
         || String.eqb (Py.strip expected_value) "" then
        {| d_header := header; d_status := v_skipped; d_expected := None;
           d_actual := Some actual_value;
           d_message := Some "Wildcard match" |}
      else if String.eqb (Py.lower actual_value) (Py.lower expected_value) then
        {| d_header := header; d_status := v_passed;
           d_expected := Some expected_value;
           d_actual := Some actual_value; d_message := None |}
      else if either_contains (Py.lower expected_value)
                (Py.lower actual_value) then
        {| d_header := header; d_status := v_passed;
           d_expected := Some expected_value;
           d_actual := Some actual_value;
           d_message := Some "Partial match" |}
      else
        {| d_header := header; d_status := v_failed;
           d_expected := Some expected_value;
           d_actual := Some actual_value; d_message := None |}
  end.

(** The loop over the expected values of one row. *)
Fixpoint check_values (expected_headers : list string)
  (column_map : Dict.t nat) (row_cells : list Cell)
  (expected_row : list string) (header_index : nat) (acc : row_result)
  : row_result :=
  match expected_row with
  | [] => acc
  | expected_value :: rest =>
      let acc' :=
        match expected_headers !! header_index with
        | None => acc
        | Some header =>
            let d :=
              match Dict.get header column_map with
              | None =>
                  {| d_header := header; d_status := v_skipped;
                     d_expected := None; d_actual := None;
                     d_message :=
                       Some (Py.py "Header `" +:+ header +:+
                             Py.py "` not found in table") |}
              | Some column_index =>
                  check_value header expected_value column_index row_cells
              end in
            {| rr_row := acc.(rr_row);
               rr_status :=
                 match d.(d_status) with
                 | v_failed => v_failed
                 | _ => acc.(rr_status)
                 end;
               rr_details := Some (default [] acc.(rr_details) ++ [d]);
               rr_error := acc.(rr_error) |}
        end in
      check_values expected_headers column_map row_cells rest
        (S header_index) acc'
  end.

(** The loop over the expected rows. *)
Fixpoint verify_rows (expected_headers : list string)
  (column_map : Dict.t nat) (table_rows : list Row)
  (expected_rows : list (list string)) (row_index : nat) : list row_result :=
  match expected_rows with
  | [] => []
  | expected_row :: rest =>
      let r :=
        match table_rows !! row_index with
        | None =>
            {| rr_row := row_index; rr_status := v_failed;
               rr_details := None;
               rr_error := Some ("Row " +:+ Py.str_of_nat row_index +:+
                                 " not found in table") |}
        | Some actual_row =>
            check_values expected_headers column_map actual_row.(cells)
              expected_row 0
              {| rr_row := row_index; rr_status := v_passed;
                 rr_details := Some []; rr_error := None |}
        end in
      r :: verify_rows expected_headers column_map table_rows rest
             (S row_index)
  end.

Definition quote1 : string := String (ascii_of_nat 39) EmptyString.

Definition detail_error (d : detail) : string :=
  d.(d_header) +:+ ": expected " +:+ quote1 +:+ default "" d.(d_expected)
  +:+ quote1 +:+ " but got " +:+ quote1 +:+ default "" d.(d_actual)
  +:+ quote1.

(** The lines of the error message; a failed row that has no details
    raises the [KeyError] of the missing key. *)
Fixpoint error_details (results : list row_result) : exn + list string :=
  match results with
  | [] => inr []
  | result :: rest =>
      match result.(rr_status) with
      | v_failed =>
          match result.(rr_details) with
          | None => inl (KeyError "details")
          | Some details =>
              let row_errors :=
                map detail_error
                  (List.filter
                     (fun d => bool_decide (d.(d_status) = v_failed)) details) in
              match error_details rest with
              | inl e => inl e
              | inr more =>
                  match row_errors with
                  | [] => inr more
                  | _ =>
                      inr (("Row " +:+ Py.str_of_nat result.(rr_row) +:+ ": "
                            +:+ Py.join "; " row_errors) :: more)
                  end
              end
          end
      | _ => error_details rest
      end
  end.

(** The rows that are compared, and the results of the comparison. *)
Definition verification_results (page : Page) (table_element : Table)
  (expected_headers : list string) (expected_rows : list (list string))
  : exn + list row_result :=
  let actual_headers := collect_headers table_element header_selectors [] in
  let column_map := map_columns expected_headers actual_headers [] in
  let found := find_rows table_element row_approaches actual_headers in
  let table_rows : exn + list Row :=
    match found with
    | [] =>
        match page.(all_rows) with
        | Some all => inr (fallback_rows all expected_rows)
        | None => inl EngineError
        end
    | _ => inr found
    end in
  match table_rows with
  | inl e => inl e
  | inr [] => inl (Exception "No data rows found in table")
  | inr rows =>
      inr (verify_rows expected_headers column_map rows expected_rows 0)
  end.

(** [_handle_verify_table(params)]: the number of rows checked, or the
    exception. *)
Definition _handle_verify_table (page : Page) (params : Params) : exn + nat :=
  let data_table :=
    match Dict.get "data_table" params with
    | Some (PTable t) => t
    | _ => []
    end in
  let table_identifier :=
    match Dict.get "table" params with
    | Some (PStr s) => s
    | _ => "table"
    end in
  match data_table with
  | expected_headers :: ((_ :: _) as expected_rows) =>
      match find_table page (table_selectors table_identifier) with
      | None => inl (Exception ("Table not found: " +:+ table_identifier))
      | Some table_element =>
          match verification_results page table_element expected_headers
                  expected_rows with
          | inl e => inl e
          | inr results =>
              if forallb (fun r => bool_decide (r.(rr_status) = v_passed))
                   results
              then inr (List.length expected_rows)
              else
                match error_details results with
                | inl e => inl e
                | inr lines =>
                    inl (Exception ("Table verification failed. " +:+
                                    Py.join ". " lines))
                end
          end
      end
  | _ =>
      inl (Exception
             "Table verification requires a data table with headers and at least one row of expected values")
  end.

End StepExecutor.

(* ===================================================================== *)
(** * Properties *)
(* ===================================================================== *)

(** ** Step classification *)

Module ClassifierFacts.
Import FeatureParser.

(** Every bucket named in [pattern_order] is in the table, and every
    pattern of the table compiles. *)
Lemma pattern_order_in_table :
  forallb (fun k => Dict.mem k action_patterns) pattern_order = true.
Proof. vm_compute. reflexivity. Qed.

Lemma patterns_compile :
  forallb (fun kv => forallb (fun p => bool_decide (is_Some (Re.compile p)))
                             (patterns kv.2))
          action_patterns = true.
Proof. vm_compute. reflexivity. Qed.

(** One round of the loop over the buckets. *)
Lemma try_buckets_cons (k : string) (order : list string) (force_ai : bool)
  (text : string) :
  try_buckets (k :: order) force_ai text
  = match Dict.get k action_patterns with
    | None => None
    | Some info =>
        match first_match info.(patterns) text with
        | Some gs => Some (on_match k info gs force_ai text)
        | None => try_buckets order force_ai text
        end
    end.
Proof. reflexivity. Qed.

(** The loop over the buckets always comes to a result when the buckets
    it names are in the table. *)
Lemma try_buckets_total (order : list string) (force_ai : bool) (text : string) :
  forallb (fun k => Dict.mem k action_patterns) order = true ->
  is_Some (try_buckets order force_ai text).
Proof.
  induction order as [|k order IH]; intros Hall.
  - cbn [try_buckets]. eauto.
  - cbn [forallb] in Hall. apply andb_true_iff in Hall as [Hk Hrest].
    unfold Dict.mem in Hk. rewrite try_buckets_cons.
    destruct (Dict.get k action_patterns) as [info|]; [|discriminate].
    destruct (first_match (patterns info) text); [eauto|].
    apply IH, Hrest.
Qed.

Lemma _parse_step_text_total (text : string) : is_Some (_parse_step_text text).
Proof.
  unfold _parse_step_text. apply try_buckets_total, pattern_order_in_table.
Qed.

(** The first bucket with a matching pattern decides: the buckets before
    it have no match, and nothing after it is looked at. *)
Lemma first_bucket_wins (before after : list string) (k : string)
  (info : pattern_info) (gs : Re.groups) (force_ai : bool) (text : string) :
  Forall (fun b => exists i, Dict.get b action_patterns = Some i /\
                             first_match (patterns i) text = None) before ->
  Dict.get k action_patterns = Some info ->
  first_match (patterns info) text = Some gs ->
  try_buckets (before ++ k :: after) force_ai text
  = Some (on_match k info gs force_ai text).
Proof.
  intros Hbefore Hk Hgs. induction Hbefore as [|b before [i [Hi Hnone]] _ IH].
  - cbn [app]. rewrite try_buckets_cons, Hk, Hgs. reflexivity.
  - cbn [app]. rewrite try_buckets_cons, Hi, Hnone. exact IH.
Qed.

Definition select_step : string :=
  Py.py "I select `Option A` from the `Country` dropdown".

(** The position of a bucket in [pattern_order]. *)
Definition bucket_index (k : string) : option nat :=
  StepExecutor.index_where (String.eqb k) pattern_order 0.

(** C4. The step text [I select "Option A" from the "Country" dropdown] is
    classified as action [select] with the parameters option = Option A
    and element = Country, hence neither as [click] nor as [input]: no
    pattern of the buckets tried before [select] matches it, the first
    pattern of the [select] bucket does, and [select] stands before
    [click] and [input] in the order of the buckets. *)
Theorem C4_select_before_click_and_input :
  _parse_step_text select_step
  = Some ("select", [("option", PStr "Option A"); ("element", PStr "Country")])
  /\ (forall r, _parse_step_text select_step = Some r ->
                r.1 <> "click" /\ r.1 <> "input")
  /\ (exists info gs,
        Dict.get "select" action_patterns = Some info /\
        first_match (patterns info) select_step = Some gs /\
        hd_error (patterns info) ≫= (fun p => Re.re_match true p select_step)
        = Some gs /\
        Forall (fun b => exists i, Dict.get b action_patterns = Some i /\
                                   first_match (patterns i) select_step = None)
               ["navigate"; "select_date_range"; "checkbox"])
  /\ (exists s c i, bucket_index "select" = Some s /\
                    bucket_index "click" = Some c /\
                    bucket_index "input" = Some i /\ s < c /\ s < i).
Proof.
  assert (Hres : _parse_step_text select_step
                 = Some ("select", [("option", PStr "Option A");
                                    ("element", PStr "Country")])).
  { vm_compute. reflexivity. }
  split; [exact Hres|]. split.
  - intros r Hr. rewrite Hres in Hr. injection Hr as <-. simpl.
    split; discriminate.
  - split.
    + eexists. eexists. split; [vm_compute; reflexivity|].
      split; [vm_compute; reflexivity|].
      split; [vm_compute; reflexivity|].
      repeat constructor; eexists; (split; [vm_compute; reflexivity|]);
        vm_compute; reflexivity.
    + exists 3, 5, 6. repeat split; try (vm_compute; reflexivity); lia.
Qed.

End ClassifierFacts.

(** ** Configuration loading *)

Module ConfigFacts.
Import Doc ConfigManager.

Definition base_doc : Dict.t value :=
  [("a", VMap [("x", VInt 1); ("y", VInt 2)])].

Definition env_with_overrides : Dict.t value :=
  [("overrides", VMap [("a", VMap [("y", VInt 9)])])].

Definition env_plain : Dict.t value :=
  [("a", VMap [("z", VInt 3)])].

(** C3. With the base document a: (x: 1, y: 2), an environment document
    whose [overrides] section is a: (y: 9) loads to a: (x: 1, y: 9), and a
    plain environment document a: (z: 3) loads to a: (x: 1, y: 2, z: 3),
    whatever the process environment holds. *)
Theorem C3_merge_precedence (environ : string -> option string) :
  load_config environ (Some base_doc) (Some env_with_overrides)
  = Some (VMap [("a", VMap [("x", VInt 1); ("y", VInt 9)])])
  /\ load_config environ (Some base_doc) (Some env_plain)
     = Some (VMap [("a", VMap [("x", VInt 1); ("y", VInt 2); ("z", VInt 3)])]).
Proof. split; reflexivity. Qed.

End ConfigFacts.

(** ** Stopping the browser *)

Module BrowserFacts.
Import BrowserManager.

Section Stop.

Context {H : Type}.
Variable close_raises : stage -> H -> bool.

(** The handles that are set, in the order in which [stop] visits them. *)
Definition present (bm : t H) : list (stage * H) :=
  omap (fun sh => option_map (pair sh.1) sh.2)
       [(PageStage, bm.(page)); (ContextStage, bm.(context));
        (BrowserStage, bm.(browser)); (DriverStage, bm.(playwright))].

Definition raises (sh : stage * H) : bool := close_raises sh.1 sh.2.

(** Closing a list of handles one after the other until a call raises. *)
Fixpoint closes (l : list (stage * H)) : list stage * outcome :=
  match l with
  | [] => ([], Returned)
  | sh :: rest =>
      if raises sh then ([sh.1], Raised sh.1)
      else (sh.1 :: (closes rest).1, (closes rest).2)
  end.

Lemma stop_closes (bm : t H) : stop close_raises bm = closes (present bm).
Proof.
  destruct bm as [[d|] [b|] [c|] [p|]]; unfold stop, present, close_then;
    cbn; unfold raises; cbn;
    repeat (destruct (close_raises _ _); cbn); reflexivity.
Qed.

Lemma closes_all (l : list (stage * H)) :
  Forall (fun sh => raises sh = false) l ->
  closes l = (map fst l, Returned).
Proof.
  induction 1 as [|sh l Hsh _ IH]; cbn; [reflexivity|].
  rewrite Hsh, IH. reflexivity.
Qed.

Lemma closes_until (before after : list (stage * H)) (sh : stage * H) :
  Forall (fun x => raises x = false) before ->
  raises sh = true ->
  closes (before ++ sh :: after) = (map fst before ++ [sh.1], Raised sh.1).
Proof.
  induction 1 as [|x before Hx _ IH]; intros Hsh; cbn.
  - rewrite Hsh. reflexivity.
  - rewrite Hx, (IH Hsh). reflexivity.
Qed.

End Stop.

(** All four handles set, and a page whose [close] raises. *)
Definition started : t nat :=
  {| playwright := Some 0; browser := Some 1; context := Some 2;
     page := Some 3 |}.

Definition page_close_raises (s : stage) (h : nat) : bool :=
  bool_decide (s = PageStage).

(** The claim as it is stated: whatever raises, every handle that is set
    has its close call made. *)
Definition every_stage_attempted {H} (close_raises : stage -> H -> bool)
  (bm : t H) : Prop :=
  (stop close_raises bm).1 = map fst (present bm).

(** C8, as stated, fails: when closing the page raises, [stop] ends there
    and closes neither the context nor the browser nor the driver. *)
Lemma C8_counterexample_page_close_raises :
  stop page_close_raises started = ([PageStage], Raised PageStage)
  /\ ~ every_stage_attempted page_close_raises started.
Proof.
  split; [reflexivity|]. unfold every_stage_attempted. cbn. discriminate.
Qed.

(** C8, amended. [stop] visits the page, the context, the browser and the
    driver in this order and closes each handle that is set.  When no
    close call raises, all of them are closed and [stop] returns.  When a
    close call raises, the exception leaves [stop] at once: the handles
    before it have been closed, the ones after it are not touched. *)
Theorem C8_stop_in_order_until_first_failure {H : Type}
  (close_raises : stage -> H -> bool) (bm : t H) :
  sublist (map fst (present bm))
    [PageStage; ContextStage; BrowserStage; DriverStage]
  /\ (Forall (fun sh => raises close_raises sh = false) (present bm) ->
      stop close_raises bm = (map fst (present bm), Returned))
  /\ (forall before sh after,
        present bm = before ++ sh :: after ->
        Forall (fun x => raises close_raises x = false) before ->
        raises close_raises sh = true ->
        stop close_raises bm = (map fst before ++ [sh.1], Raised sh.1)).
Proof.
  split; [|split].
  - destruct bm as [[d|] [b|] [c|] [p|]]; cbn;
      repeat first [apply sublist_nil | apply sublist_skip | apply sublist_cons].
  - intros Hall. rewrite stop_closes. apply closes_all, Hall.
  - intros before sh after Hp Hbefore Hsh. rewrite stop_closes, Hp.
    apply closes_until; assumption.
Qed.

(** The theorem at the started manager whose page fails to close. *)
Lemma C8_witness :
  stop page_close_raises started = ([PageStage], Raised PageStage).
Proof.
  exact (proj2 (proj2 (C8_stop_in_order_until_first_failure
                         page_close_raises started))
           [] (PageStage, 3)
           [(ContextStage, 2); (BrowserStage, 1); (DriverStage, 0)]
           eq_refl ltac:(constructor) eq_refl).
Defined.

End BrowserFacts.

(** ** A failed step ends the scenario *)

Module ScenarioFacts.
Import FeatureParser TestExecutor.

Section World.

Context {W : Type}.
Variable start : W -> W.
Variable execute_step : W -> string -> Params -> W * StepResult.
Variable take_screenshot : W -> string -> W * option string.
Variable stop : W -> W.

(** The loop records one result for every step it executes, in order,
    and executes a front part of the steps it is given; a recorded result
    that failed is the last one. *)
Lemma run_steps_shape (steps : list Step) :
  forall (w : W) (results : list StepResult) (executed : list Step),
  let p := run_steps execute_step w steps results executed in
  exists (k : nat) (new : list StepResult),
    p.(p_results) = results ++ new
    /\ p.(p_executed) = executed ++ firstn k steps
    /\ List.length new = k
    /\ k <= List.length steps
    /\ (forall i r, new !! i = Some r -> sr_status r = failed ->
                    S i = k /\ p.(p_failure) <> None)
    /\ (p.(p_failure) = None ->
        k = List.length steps
        /\ Forall (fun r => sr_status r = passed) new).
Proof.
  induction steps as [|step rest IH]; intros w results executed; cbn zeta.
  - exists 0, []. cbn [run_steps p_results p_executed p_failure firstn].
    rewrite !app_nil_r.
    split; [reflexivity|]. split; [reflexivity|]. split; [reflexivity|].
    split; [cbn; lia|]. split.
    + intros i r Hi. rewrite lookup_nil in Hi. discriminate.
    + intros _. split; [reflexivity|constructor].
  - cbn [run_steps].
    set (res := with_text (s_text step)
                  (execute_step w (s_action step) (params_of step)).2).
    destruct (sr_status res) eqn:Hst.
    + specialize (IH (execute_step w (s_action step) (params_of step)).1
                     (results ++ [res]) (executed ++ [step])).
      cbn zeta in IH. destruct IH as (k & new & Hr & He & Hl & Hk & Hf & Hn).
      exists (S k), (res :: new).
      rewrite Hr, He, <- !app_assoc.
      split; [reflexivity|]. split; [reflexivity|].
      split; [cbn; lia|]. split; [cbn; lia|]. split.
      * intros i r Hi Hfail. destruct i as [|i]; cbn in Hi.
        -- injection Hi as <-. rewrite Hst in Hfail. discriminate.
        -- destruct (Hf i r Hi Hfail) as [<- Hne]. split; [reflexivity|exact Hne].
      * intros Hnone. destruct (Hn Hnone) as [-> Hall].
        split; [reflexivity|]. constructor; [exact Hst|exact Hall].
    + exists 1, [res]. cbn [p_results p_executed p_failure firstn].
      split; [reflexivity|]. split; [reflexivity|]. split; [reflexivity|].
      split; [cbn; lia|]. split.
      * intros i r Hi _. destruct i as [|i]; cbn in Hi.
        -- split; [reflexivity|discriminate].
        -- destruct i; discriminate.
      * discriminate.
Qed.

(** The world in which the scenario's own steps begin. *)
Definition world_before_steps (feature : Feature) (w : W) : W :=
  match feature.(f_background) with
  | Some background =>
      (run_background execute_step (start w) background.(sc_steps) []).1.1
  | None => start w
  end.

(** Every step of the background passes, or there is no background. *)
Definition background_passes (feature : Feature) (w : W) : Prop :=
  match feature.(f_background) with
  | Some background =>
      (run_background execute_step (start w) background.(sc_steps) []).2 = None
  | None => True
  end.

(** C6. When the second of a scenario's three steps fails, after a first
    step that passed, the scenario result holds exactly two step results,
    its status is failed, and the steps executed are the first two: the
    third is never run.  More generally, for every scenario the executed
    steps are a front part of the scenario's steps with one recorded
    result each, and a recorded result that failed is the last one: no
    step after the first failed step is run. *)
Theorem C6_failed_step_halts_scenario :
  (forall (feature : Feature) (name description : string)
          (tags : list string) (examples : option Examples) (line : nat)
          (s1 s2 s3 : Step) (w : W),
     let scenario :=
       {| sc_name := name; sc_description := description;
          sc_steps := [s1; s2; s3]; sc_tags := tags;
          sc_examples := examples; sc_line_number := line |} in
     let w1 := world_before_steps feature w in
     let r1 := execute_step w1 s1.(s_action) (params_of s1) in
     let r2 := execute_step r1.1 s2.(s_action) (params_of s2) in
     background_passes feature w ->
     sr_status r1.2 = passed ->
     sr_status r2.2 = failed ->
     let out := _execute_scenario start execute_step take_screenshot stop
                  feature scenario w in
     List.length out.1.1.(r_steps) = 2
     /\ out.1.1.(r_status) = failed
     /\ out.2 = [s1; s2])
  /\ (forall (feature : Feature) (scenario : Scenario) (w : W),
        let out := _execute_scenario start execute_step take_screenshot stop
                     feature scenario w in
        (exists k, out.2 = firstn k scenario.(sc_steps)
                   /\ List.length out.1.1.(r_steps) = k
                   /\ k <= List.length scenario.(sc_steps))
        /\ (forall i r, out.1.1.(r_steps) !! i = Some r ->
                        sr_status r = failed ->
                        S i = List.length out.1.1.(r_steps)
                        /\ out.2 = firstn (S i) scenario.(sc_steps)
                        /\ out.1.1.(r_status) = failed)).
Proof.
  split.
  - intros feature name description tags examples line s1 s2 s3 w
           scenario w1 r1 r2 Hbg H1 H2 out.
    subst out. unfold _execute_scenario.
    assert (Hb : (match f_background feature with
                  | Some background =>
                      run_background execute_step (start w)
                        (sc_steps background) []
                  | None => (start w, [], None)
                  end).2 = None).
    { unfold background_passes in Hbg.
      destruct (f_background feature); [exact Hbg|reflexivity]. }
    assert (Hw : (match f_background feature with
                  | Some background =>
                      run_background execute_step (start w)
                        (sc_steps background) []
                  | None => (start w, [], None)
                  end).1.1 = w1).
    { subst w1. unfold world_before_steps.
      destruct (f_background feature); reflexivity. }
    cbn zeta. rewrite Hb, Hw. subst scenario. cbn [sc_steps run_steps].
    fold r1. cbn [with_text sr_status]. rewrite H1. cbn [fst].
    fold r2. rewrite H2. cbn. repeat split; reflexivity.
  - intros feature scenario w out. subst out. unfold _execute_scenario.
    cbn zeta.
    destruct ((match f_background feature with
               | Some background =>
                   run_background execute_step (start w)
                     (sc_steps background) []
               | None => (start w, [], None)
               end)) as [[wb eb] [msg|]] eqn:Hbg; cbn [fst snd].
    + cbn [fst snd r_steps r_status p_results p_executed]. split.
      * exists 0. repeat split; try reflexivity. cbn. lia.
      * intros i r Hi. rewrite lookup_nil in Hi. discriminate.
    + pose proof (run_steps_shape (sc_steps scenario) wb [] []) as Hshape.
      cbn zeta in Hshape.
      destruct Hshape as (k & new & Hr & He & Hl & Hk & Hf & Hn).
      cbn [app] in Hr, He. cbn [fst snd r_steps r_status].
      rewrite Hr, He. split.
      * exists k. repeat split; [exact Hl|exact Hk].
      * intros i r Hi Hfail. destruct (Hf i r Hi Hfail) as [Hik Hne].
        rewrite Hl, Hik. repeat split.
        destruct (p_failure _); [reflexivity|congruence].
Qed.

End World.

(** A world that counts the steps executed; the step named [boom] fails. *)
Definition counting_step (w : nat) (action : string) (p : Params)
  : nat * StepResult :=
  (S w,
   {| sr_status := if String.eqb action "boom" then failed else passed;
      sr_action := action; sr_parameters := p;
      sr_error := if String.eqb action "boom" then Some "boom" else None;
      sr_screenshot := None; sr_text := None |}).

Definition step_named (action : string) : Step :=
  {| s_type := WHEN; s_text := action; s_action := action;
     s_parameters := []; s_line_number := 1; s_data_table := None |}.

Definition plain_feature : Feature :=
  {| f_name := "F"; f_description := ""; f_scenarios := []; f_tags := [];
     f_background := None; f_file_path := "f.feature" |}.

(** The theorem at a scenario [ok; boom; ok] in the counting world: two
    results, status failed, and two steps executed. *)
Lemma C6_witness :
  let out :=
    _execute_scenario (fun w => w) counting_step (fun w _ => (w, None))
      (fun w => w) plain_feature
      {| sc_name := "S"; sc_description := "";
         sc_steps := [step_named "ok"; step_named "boom"; step_named "ok"];
         sc_tags := []; sc_examples := None; sc_line_number := 1 |} 0 in
  List.length out.1.1.(r_steps) = 2
  /\ out.1.1.(r_status) = failed
  /\ out.2 = [step_named "ok"; step_named "boom"].
Proof.
  exact (proj1 (C6_failed_step_halts_scenario (fun w => w) counting_step
                  (fun w _ => (w, None)) (fun w => w))
           plain_feature "S" "" [] None 1
           (step_named "ok") (step_named "boom") (step_named "ok") 0
           I eq_refl eq_refl).
Defined.

End ScenarioFacts.

(** ** The cache on disk *)

Module CacheFacts.
Import CacheManager.

Section WithValue.

Context {V : Type}.

Abbreviation entry := (CacheManager.entry V).
Abbreviation disk := (gmap string (CacheManager.content V)).
Abbreviation cm := (CacheManager.t V).

(** The file system the managers work on. *)
Variable file_at : string -> string -> string.
Variable creatable : string -> bool.

Abbreviation cache_file := (CacheManager.cache_file file_at).
Abbreviation writable := (CacheManager.writable creatable).
Abbreviation _save_cache := (CacheManager._save_cache file_at creatable).
Abbreviation _load_cache := (CacheManager._load_cache file_at creatable).
Abbreviation set_project := (CacheManager.set_project file_at creatable).
Abbreviation save_cache := (CacheManager.save_cache file_at creatable).
Abbreviation clear_cache := (CacheManager.clear_cache file_at creatable).
Abbreviation save_all := (CacheManager.save_all file_at creatable).

(** The project name as [set_project] keeps it. *)
Definition normalized (name : string) : string :=
  Py.replace " " "_" (Py.lower name).

(** The entry [save_cache] writes. *)
Definition written (value : V) (now : time) : entry :=
  {| e_value := Some value; e_timestamp := Some now |}.

(** The last value written under a key, with the time of the write. *)
Fixpoint last_write (writes : list (string * V * time)) (key : string)
  : option (V * time) :=
  match writes with
  | [] => None
  | (k, v, now) :: rest =>
      match last_write rest key with
      | Some w => Some w
      | None => if String.eqb key k then Some (v, now) else None
      end
  end.

Lemma cache_file_eq (a b : cm) :
  cache_dir a = cache_dir b -> project_name a = project_name b ->
  cache_file a = cache_file b.
Proof. unfold CacheManager.cache_file. intros -> ->. reflexivity. Qed.

(** [save_cache] keeps the directory, the time to live and the project. *)
Lemma save_cache_fields (key : string) (value : V) (now : time) (c : cm)
  (fs : disk) :
  let r := save_cache key value now c fs in
  cache_dir r.1 = cache_dir c /\ ttl r.1 = ttl c
  /\ project_name r.1 = project_name c
  /\ cache r.1 = <[key := written value now]> (cache c).
Proof. cbn. repeat split; reflexivity. Qed.

(** With a project set and a file that can be written, [save_cache]
    leaves the whole cache in the file. *)
Lemma save_cache_file (key : string) (value : V) (now : time) (c : cm)
  (fs : disk) :
  no_project c = false ->
  writable fs (cache_file c) = true ->
  let r := save_cache key value now c fs in
  r.2 !! cache_file c = Some (Document (cache r.1)).
Proof.
  intros Hp Hw. cbn zeta. unfold CacheManager.save_cache. cbn [fst snd].
  unfold CacheManager._save_cache.
  change (no_project (with_cache c ?x)) with (no_project c).
  rewrite Hp.
  change (CacheManager.cache_file file_at (with_cache c ?x))
    with (cache_file c).
  rewrite Hw. apply lookup_insert_eq.
Qed.

(** A file that is there can be written. *)
Lemma writable_present (fs : disk) (file : string) :
  is_Some (fs !! file) -> writable fs file = true.
Proof.
  intros H. unfold CacheManager.writable.
  rewrite (bool_decide_eq_true_2 _ H). reflexivity.
Qed.

(** Nothing the manager does removes a file. *)
Lemma _save_cache_keeps (c : cm) (fs : disk) (file : string) :
  is_Some (fs !! file) -> is_Some (_save_cache c fs !! file).
Proof.
  intros H. unfold CacheManager._save_cache.
  destruct (no_project c); [exact H|].
  destruct (CacheManager.writable creatable fs _); [|exact H].
  destruct (decide (cache_file c = file)) as [<-|Hne].
  - rewrite lookup_insert_eq. eauto.
  - rewrite lookup_insert_ne by exact Hne. exact H.
Qed.

Lemma _load_cache_keeps (now : time) (c : cm) (fs : disk) (file : string) :
  is_Some (fs !! file) -> is_Some ((_load_cache now c fs).2 !! file).
Proof.
  intros H. unfold CacheManager._load_cache.
  destruct (no_project c); [exact H|].
  destruct (fs !! cache_file c) as [[d|]|]; try exact H.
  unfold _clean_expired. destruct (bool_decide _); [exact H|].
  apply _save_cache_keeps, H.
Qed.

Lemma writable_after_load (now : time) (c : cm) (fs : disk) (file : string) :
  writable fs file = true -> writable (_load_cache now c fs).2 file = true.
Proof.
  unfold CacheManager.writable. intros H.
  apply orb_true_iff in H as [H|H]; [|rewrite H; apply orb_true_r].
  apply bool_decide_eq_true_1 in H.
  rewrite (bool_decide_eq_true_2 _ (_load_cache_keeps now c fs file H)).
  reflexivity.
Qed.

Lemma save_all_fields (writes : list (string * V * time)) :
  forall (c : cm) (fs : disk),
  let r := save_all writes c fs in
  cache_dir r.1 = cache_dir c /\ ttl r.1 = ttl c
  /\ project_name r.1 = project_name c.
Proof.
  induction writes as [|[[k v] now] rest IH]; intros c fs; cbn zeta.
  - repeat split; reflexivity.
  - cbn [save_all]. specialize (IH (save_cache k v now c fs).1
                                   (save_cache k v now c fs).2).
    cbn zeta in IH. destruct IH as (Hd & Ht & Hp).
    rewrite Hd, Ht, Hp. repeat split; reflexivity.
Qed.

(** The writer's cache after a run of writes: the last write of a key,
    or what the cache held before. *)
Lemma save_all_lookup (writes : list (string * V * time)) :
  forall (c : cm) (fs : disk) (key : string),
  cache (save_all writes c fs).1 !! key
  = match last_write writes key with
    | Some (v, now) => Some (written v now)
    | None => cache c !! key
    end.
Proof.
  induction writes as [|[[k v] now] rest IH]; intros c fs key.
  - reflexivity.
  - cbn [save_all last_write]. rewrite IH.
    destruct (last_write rest key) as [[v' t']|]; [reflexivity|].
    cbn [save_cache fst cache with_cache].
    destruct (String.eqb_spec key k) as [->|Hne].
    + apply lookup_insert_eq.
    + apply lookup_insert_ne. congruence.
Qed.

(** After at least one write to a file that can be written, the file
    holds the writer's cache. *)
Lemma save_all_file (writes : list (string * V * time)) :
  forall (c : cm) (fs : disk),
  no_project c = false -> writable fs (cache_file c) = true ->
  writes <> [] ->
  let r := save_all writes c fs in
  r.2 !! cache_file c = Some (Document (cache r.1)).
Proof.
  induction writes as [|[[k v] now] rest IH]; intros c fs Hp Hw Hne;
    [congruence|].
  cbn zeta. cbn [CacheManager.save_all].
  pose proof (save_cache_file k v now c fs Hp Hw) as Hfile. cbn zeta in Hfile.
  destruct rest as [|w rest'].
  - cbn [CacheManager.save_all]. exact Hfile.
  - assert (Hp' : no_project (save_cache k v now c fs).1 = false) by exact Hp.
    assert (Hw' : writable (save_cache k v now c fs).2
                    (cache_file (save_cache k v now c fs).1) = true).
    { apply writable_present.
      change (cache_file (save_cache k v now c fs).1) with (cache_file c).
      rewrite Hfile. eauto. }
    specialize (IH (save_cache k v now c fs).1 (save_cache k v now c fs).2
                   Hp' Hw' ltac:(discriminate)).
    cbn zeta in IH. rewrite <- IH. f_equal.
Qed.

(** Loading a file that holds a document: the entries that have not
    expired, under the loader's time to live. *)
Lemma load_document (now : time) (c : cm) (fs : disk)
  (d : gmap string entry) :
  no_project c = false ->
  fs !! cache_file c = Some (Document d) ->
  cache (_load_cache now c fs).1
  = filter (fun kv => expired (ttl c) now kv.2 = false) d.
Proof.
  intros Hp Hf. unfold _load_cache. rewrite Hp, Hf.
  unfold _clean_expired. cbn [with_cache ttl cache].
  destruct (bool_decide _); reflexivity.
Qed.

Lemma load_fields (now : time) (c : cm) (fs : disk) :
  cache_dir (_load_cache now c fs).1 = cache_dir c
  /\ ttl (_load_cache now c fs).1 = ttl c
  /\ project_name (_load_cache now c fs).1 = project_name c.
Proof.
  unfold _load_cache. destruct (no_project c); [repeat split; reflexivity|].
  destruct (fs !! cache_file c) as [[d|]|]; try (repeat split; reflexivity).
  unfold _clean_expired. destruct (bool_decide _); repeat split; reflexivity.
Qed.

Lemma set_project_fields (name : string) (now : time) (c : cm) (fs : disk) :
  cache_dir (set_project name now c fs).1 = cache_dir c
  /\ ttl (set_project name now c fs).1 = ttl c
  /\ project_name (set_project name now c fs).1 = Some (normalized name).
Proof.
  unfold set_project.
  match goal with
  | |- context [_load_cache now ?c0 fs] =>
      destruct (load_fields now c0 fs) as (Hd & Ht & Hp)
  end.
  cbn [cache_dir ttl project_name] in Hd, Ht, Hp. unfold normalized. auto.
Qed.

Lemma no_project_false (c : cm) (n : string) :
  project_name c = Some n -> n <> "" -> no_project c = false.
Proof.
  intros Hc Hn. unfold no_project. rewrite Hc.
  destruct (String.eqb_spec n ""); congruence.
Qed.

(** The cache file of a project in a cache directory. *)
Definition project_file (dir name : string) : string :=
  file_at dir (normalized name +:+ "_cache.json").

Lemma cache_file_project (c : cm) (name : string) :
  project_name c = Some (normalized name) ->
  cache_file c = project_file (cache_dir c) name.
Proof.
  intros H. unfold CacheManager.cache_file, project_file. rewrite H.
  reflexivity.
Qed.

(** The cache a fresh manager over the same directory loads for the same
    project, after a writer has saved at least once to a file that can be
    written: the writer's entries that have not expired. *)
Lemma reload_after_writes (dir : string) (ttl_w ttl_r : time) (name : string)
  (fs0 : disk) (t0 now : time) (writes : list (string * V * time)) :
  normalized name <> "" ->
  writable fs0 (project_file dir name) = true ->
  writes <> [] ->
  let w := set_project name t0 (init dir ttl_w) fs0 in
  let w' := save_all writes w.1 w.2 in
  let r := set_project name now (init dir ttl_r) w'.2 in
  cache r.1 = filter (fun kv => expired ttl_r now kv.2 = false) (cache w'.1).
Proof.
  intros Hname Hcan Hwrites w w' r.
  destruct (set_project_fields name t0 (init dir ttl_w) fs0) as (Hd & _ & Hp).
  fold w in Hd, Hp.
  destruct (save_all_fields writes w.1 w.2) as (Hd' & _ & Hp').
  fold w' in Hd', Hp'.
  assert (Hnp : no_project w.1 = false) by (eapply no_project_false; eauto).
  assert (Hcan' : writable w.2 (cache_file w.1) = true).
  { rewrite (cache_file_project w.1 name Hp), Hd.
    subst w. unfold CacheManager.set_project.
    apply writable_after_load, Hcan. }
  pose proof (save_all_file writes w.1 w.2 Hnp Hcan' Hwrites) as Hfile.
  cbn zeta in Hfile. fold w' in Hfile.
  subst r. unfold CacheManager.set_project.
  set (c0 := {| cache_dir := cache_dir (init dir ttl_r);
                ttl := ttl (init dir ttl_r);
                cache := cache (init dir ttl_r);
                project_name := Some (Py.replace " " "_" (Py.lower name)) |}).
  assert (Hsame : cache_file c0 = cache_file w.1).
  { apply cache_file_eq; [rewrite Hd; reflexivity|rewrite Hp; reflexivity]. }
  rewrite (load_document now c0 w'.2 (cache w'.1)).
  - reflexivity.
  - eapply no_project_false; [reflexivity|exact Hname].
  - rewrite Hsame. exact Hfile.
Qed.

Lemma last_write_nonempty (writes : list (string * V * time)) (key : string)
  (w : V * time) : last_write writes key = Some w -> writes <> [].
Proof. destruct writes; [discriminate|discriminate]. Qed.

(** The claim as it is stated, for one project name: every entry written
    and not yet expired is in the cache the reloading manager holds. *)
Definition round_trip (dir : string) (ttl_w ttl_r : time) (name : string)
  (fs0 : disk) (t0 now : time) (writes : list (string * V * time)) : Prop :=
  forall key v t,
    last_write writes key = Some (v, t) ->
    expired ttl_r now (written v t) = false ->
    let w := set_project name t0 (init dir ttl_w) fs0 in
    let w' := save_all writes w.1 w.2 in
    let r := set_project name now (init dir ttl_r) w'.2 in
    cache r.1 !! key = Some (written v t).

(** C5, amended. For every project name that is not empty after it has
    been put in lower case with underscores for spaces and whose cache
    file can be written, because it is there already or can be created,
    and every run of [save_cache] calls of a manager set to that project:
    a fresh manager over the same cache directory that is set to the same
    project holds, for every key written, the value and the timestamp of
    the last write to it, unless that entry has expired under the fresh
    manager's time to live, in which case the key is absent; [get]
    answers alike. *)
Theorem C5_cache_round_trip (dir : string) (ttl_w ttl_r : time)
  (name : string) (fs0 : disk) (t0 now : time)
  (writes : list (string * V * time)) (key : string) (v : V) (t : time) :
  normalized name <> "" ->
  writable fs0 (project_file dir name) = true ->
  last_write writes key = Some (v, t) ->
  let w := set_project name t0 (init dir ttl_w) fs0 in
  let w' := save_all writes w.1 w.2 in
  let r := set_project name now (init dir ttl_r) w'.2 in
  cache r.1 !! key
  = (if expired ttl_r now (written v t) then None else Some (written v t))
  /\ get key now r.1
     = (if expired ttl_r now (written v t) then None else Some v).
Proof.
  intros Hname Hcan Hlast w w' r.
  pose proof (reload_after_writes dir ttl_w ttl_r name fs0 t0 now writes Hname
                Hcan (last_write_nonempty _ _ _ Hlast)) as Hcache.
  cbn zeta in Hcache. fold w w' r in Hcache.
  assert (Hw : cache w'.1 !! key = Some (written v t)).
  { subst w'. rewrite save_all_lookup, Hlast. reflexivity. }
  assert (Httl : ttl r.1 = ttl_r).
  { subst r. apply set_project_fields. }
  assert (Hlook : cache r.1 !! key
                  = if expired ttl_r now (written v t) then None
                    else Some (written v t)).
  { rewrite Hcache. destruct (expired ttl_r now (written v t)) eqn:He.
    - apply map_lookup_filter_None_2. right. intros x Hx. cbn.
      rewrite Hw in Hx. injection Hx as <-. rewrite He. discriminate.
    - apply map_lookup_filter_Some_2; [exact Hw|exact He]. }
  split; [exact Hlook|].
  unfold get. rewrite Hlook, Httl.
  destruct (expired ttl_r now (written v t)) eqn:He; [reflexivity|].
  unfold expired in He. apply negb_false_iff in He. rewrite He. reflexivity.
Qed.

End WithValue.

(** A file system in which a path of plain names leads to the file of
    that name, and in which every directory is there. *)
Definition plain_path (dir name : string) : string := dir +:+ "/" +:+ name.

Definition any_directory (file : string) : bool := true.

(** A file system in which no file can be created. *)
Definition no_directory (file : string) : bool := false.

(** C5, as stated, fails at the empty project name: the manager takes an
    empty name for no project at all and writes no file, so the entry it
    holds is not there for the manager that loads the project again. *)
Lemma C5_counterexample_empty_project_name :
  ~ round_trip (V := nat) plain_path any_directory "config/mapping" 86400%Q
      86400%Q "" ∅ 0%Q 1%Q [("k", 7, 0%Q)].
Proof.
  intros Hclaim.
  specialize (Hclaim "k" 7 0%Q eq_refl eq_refl). cbn zeta in Hclaim.
  vm_compute in Hclaim. discriminate.
Qed.

(** The round trip also fails when the cache file cannot be created, as
    for the project [A/B] in a cache directory without the directory [a]:
    the write is given up and the reloading manager finds no file. *)
Lemma missing_directory_loses_the_entries :
  ~ round_trip (V := nat) plain_path no_directory "config/mapping" 86400%Q
      86400%Q "A/B" ∅ 0%Q 1%Q [("k", 7, 0%Q)].
Proof.
  intros Hclaim.
  specialize (Hclaim "k" 7 0%Q eq_refl eq_refl). cbn zeta in Hclaim.
  vm_compute in Hclaim. discriminate.
Qed.

(** The theorem at the project [My App] with one entry written at time 0
    and read again one second later. *)
Lemma C5_witness :
  let w := set_project plain_path any_directory "My App" 0%Q
             (init "config/mapping" 86400%Q) (∅ : disk nat) in
  let w' := save_all plain_path any_directory [("k", 7, 0%Q)] w.1 w.2 in
  let r := set_project plain_path any_directory "My App" 1%Q
             (init "config/mapping" 86400%Q) w'.2 in
  cache r.1 !! "k"
  = (if expired 86400%Q 1%Q (written 7 0%Q) then None
     else Some (written 7 0%Q))
  /\ get "k" 1%Q r.1
     = (if expired 86400%Q 1%Q (written 7 0%Q) then None else Some 7).
Proof.
  apply (C5_cache_round_trip (V := nat) plain_path any_directory
           "config/mapping" 86400%Q 86400%Q
           "My App" ∅ 0%Q 1%Q [("k", 7, 0%Q)] "k" 7 0%Q).
  - vm_compute. discriminate.
  - reflexivity.
  - reflexivity.
Defined.

End CacheFacts.

(** ** The finder and the persisted cache *)

Module FinderFacts.
Import AIElementFinder.

(** Two finders that differ at most in what their cache managers hold:
    the same model, the same in-memory element cache, and a cache manager
    attached to both or to neither. *)
Definition same_view (f1 f2 : t) : Prop :=
  model f1 = model f2
  /\ element_cache f1 = element_cache f2
  /\ (is_Some (cache_manager f1) <-> is_Some (cache_manager f2)).

Section Browser.

Context {Page Screenshot : Type}.
Variable url : Page -> string.
Variable locator_count : Page -> string -> option nat.
Variable iframes : Page -> option (list (option Page)).
Variable _pattern_match : Page -> string -> option ElementInfo.
Variable _ai_detect : Screenshot -> string -> option ElementInfo.
Variable file_at : string -> string -> string.
Variable creatable : string -> bool.

Lemma cached_hit_same (page : Page) (key : string) (f1 f2 : t) :
  same_view f1 f2 ->
  cached_hit locator_count page key f1 = cached_hit locator_count page key f2.
Proof.
  intros (_ & Hc & Hm). unfold cached_hit. rewrite Hc.
  destruct (cache_manager f1) as [c1|], (cache_manager f2) as [c2|];
    try reflexivity.
  - destruct Hm as [Hm _]. destruct (Hm ltac:(eauto)) as [? [=]].
  - destruct Hm as [_ Hm]. destruct (Hm ltac:(eauto)) as [? [=]].
Qed.

Lemma _cache_element_same (now : CacheManager.time) (key : string)
  (info : ElementInfo) (f1 f2 : t)
  (fs1 fs2 : CacheManager.disk ElementInfo) :
  same_view f1 f2 ->
  same_view (_cache_element file_at creatable now key info f1 fs1).1
            (_cache_element file_at creatable now key info f2 fs2).1.
Proof.
  intros (Hmo & Hc & Hm). unfold _cache_element.
  destruct (cache_manager f1) as [c1|] eqn:H1,
           (cache_manager f2) as [c2|] eqn:H2; cbn [fst].
  - unfold same_view. cbn. rewrite Hmo, Hc. repeat split; eauto.
  - destruct Hm as [Hm _]. destruct (Hm ltac:(eauto)) as [? [=]].
  - destruct Hm as [_ Hm]. destruct (Hm ltac:(eauto)) as [? [=]].
  - unfold same_view. rewrite H1, H2. repeat split; auto.
Qed.

(** One lookup: the same answer, and the finders still differ at most in
    what their cache managers hold. *)
Lemma find_element_same (now : CacheManager.time) (page : Page)
  (description : string) (screenshot : option Screenshot) (f1 f2 : t)
  (fs1 fs2 : CacheManager.disk ElementInfo) :
  same_view f1 f2 ->
  let r1 := find_element url locator_count iframes _pattern_match _ai_detect file_at creatable
              now page description screenshot f1 fs1 in
  let r2 := find_element url locator_count iframes _pattern_match _ai_detect file_at creatable
              now page description screenshot f2 fs2 in
  r1.1 = r2.1 /\ same_view r1.2.1 r2.2.1.
Proof.
  intros Hv. cbn zeta. unfold find_element.
  rewrite (cached_hit_same page _ f1 f2 Hv).
  destruct (cached_hit locator_count page _ f2); [split; [reflexivity|exact Hv]|].
  destruct (_pattern_match page description) as [info|].
  { split; [reflexivity|]. apply _cache_element_same, Hv. }
  destruct (match iframes page with
            | Some frames => first_in_frames _pattern_match frames description
            | None => None
            end) as [info|].
  { split; [reflexivity|]. apply _cache_element_same, Hv. }
  pose proof Hv as (Hmo & _ & _). rewrite Hmo.
  destruct (model f2) eqn:Hmodel, screenshot as [shot|];
    try (split; [reflexivity|exact Hv]).
  destruct (_ai_detect shot description) as [info|].
  - split; [reflexivity|]. apply _cache_element_same, Hv.
  - split; [reflexivity|exact Hv].
Qed.

(** C9. What [find_element] returns does not depend on what the attached
    cache manager holds, in memory or on disk: two finders with the same
    model and the same in-memory element cache, each with a cache manager
    attached, give the same answers to the same run of lookups, whatever
    the two cache managers and the two disks contain.  The finder reads
    its own element cache only, and only when a cache manager is attached:
    with none attached, its answers do not depend on the element cache
    either. *)
Theorem C9_find_element_ignores_persisted_cache :
  (forall (calls : list (CacheManager.time * Page * string * option Screenshot))
          (f1 f2 : t) (fs1 fs2 : CacheManager.disk ElementInfo),
     same_view f1 f2 ->
     find_all url locator_count iframes _pattern_match _ai_detect file_at creatable calls f1 fs1
     = find_all url locator_count iframes _pattern_match _ai_detect file_at creatable calls f2 fs2)
  /\ (forall (now : CacheManager.time) (page : Page) (description : string)
             (screenshot : option Screenshot) (m : bool)
             (cache1 cache2 : gmap string ElementInfo)
             (fs1 fs2 : CacheManager.disk ElementInfo),
        (find_element url locator_count iframes _pattern_match _ai_detect file_at creatable
           now page description screenshot
           {| model := m; cache_manager := None; element_cache := cache1 |}
           fs1).1
        = (find_element url locator_count iframes _pattern_match _ai_detect file_at creatable
             now page description screenshot
             {| model := m; cache_manager := None; element_cache := cache2 |}
             fs2).1).
Proof.
  split.
  - induction calls as [|[[[now page] description] screenshot] rest IH];
      intros f1 f2 fs1 fs2 Hv; [reflexivity|].
    cbn [find_all].
    destruct (find_element_same now page description screenshot f1 f2 fs1 fs2 Hv)
      as [Hr Hv'].
    rewrite Hr. f_equal. apply IH, Hv'.
  - intros now page description screenshot m cache1 cache2 fs1 fs2.
    unfold find_element, cached_hit, _cache_element. cbn.
    destruct (_pattern_match page description); [reflexivity|].
    destruct (match iframes page with
              | Some frames => first_in_frames _pattern_match frames description
              | None => None
              end); [reflexivity|].
    destruct m, screenshot; try reflexivity.
    destruct (_ai_detect s description); reflexivity.
Qed.

End Browser.

(** A page with one button, found by the pattern matching only when the
    description is [Login]. *)
Definition login_info : ElementInfo :=
  {| type := "button"; selector := Some "button"; position := (0%Q, 0%Q);
     bounds := None; confidence := 1%Q; in_iframe := false |}.

Definition stale_info : ElementInfo :=
  {| type := "link"; selector := Some "a.stale"; position := (5%Q, 5%Q);
     bounds := None; confidence := 1%Q; in_iframe := false |}.

Definition finds_login (page : unit) (description : string)
  : option ElementInfo :=
  if String.eqb description "Login" then Some login_info else None.

(** A cache manager whose cache already answers the key of the lookup
    with another element, and a disk that holds that cache. *)
Definition loaded_manager : CacheManager.t ElementInfo :=
  {| CacheManager.cache_dir := "config/mapping";
     CacheManager.ttl := 86400%Q;
     CacheManager.cache :=
       {[ "http://app:Login" :=
            {| CacheManager.e_value := Some stale_info;
               CacheManager.e_timestamp := Some 0%Q |} ]};
     CacheManager.project_name := Some "app" |}.

Definition loaded_disk : CacheManager.disk ElementInfo :=
  {[ "config/mapping/app_cache.json" :=
       CacheManager.Document (CacheManager.cache loaded_manager) ]}.

(** The theorem at a finder with an empty cache manager and one with the
    loaded manager: both resolve [Login] to the button on the page. *)
Lemma C9_witness :
  let calls := [(1%Q, tt, "Login", @None unit)] in
  find_all (fun _ => "http://app") (fun _ _ => Some 1) (fun _ => Some [])
    finds_login (fun _ _ => None) CacheFacts.plain_path
    CacheFacts.any_directory calls
    {| model := false;
       cache_manager := Some (CacheManager.init "config/mapping" 86400%Q);
       element_cache := ∅ |} ∅
  = find_all (fun _ => "http://app") (fun _ _ => Some 1) (fun _ => Some [])
      finds_login (fun _ _ => None) CacheFacts.plain_path
      CacheFacts.any_directory calls
      {| model := false; cache_manager := Some loaded_manager;
         element_cache := ∅ |} loaded_disk.
Proof.
  apply (proj1 (C9_find_element_ignores_persisted_cache
                  (fun _ => "http://app") (fun _ _ => Some 1)
                  (fun _ => Some []) finds_login (fun _ _ => None)
                  CacheFacts.plain_path CacheFacts.any_directory)).
  repeat split; eauto.
Defined.

End FinderFacts.

(** ** The authentication precondition of API calls *)

Module ApiFacts.
Import Doc APIExecutor.

(** The definition declares [auth: required]. *)
Definition requires_auth (api : value) : Prop :=
  py_get "auth" api = inr (Some (VStr "required")).

Definition auth_error : exn :=
  ValueError "Authentication required but no auth token available".

Lemma store_all_fields (kwargs : Dict.t string) :
  forall ex : t,
  auth_token (store_all kwargs ex) = auth_token ex
  /\ sent (store_all kwargs ex) = sent ex
  /\ reporter (store_all kwargs ex) = reporter ex.
Proof.
  induction kwargs as [|[k v] rest IH]; intros ex; cbn [store_all].
  - repeat split; reflexivity.
  - destruct (IH (store_value k v ex)) as (Ha & Hs & Hr).
    rewrite Ha, Hs, Hr. repeat split; reflexivity.
Qed.

Lemma no_token_store_all (kwargs : Dict.t string) (ex : t) :
  no_token (store_all kwargs ex) = no_token ex.
Proof.
  unfold no_token. destruct (store_all_fields kwargs ex) as (-> & _ & _).
  reflexivity.
Qed.

Section Network.

Variable send : request -> net_outcome.
Variable json_loads : string -> option value.
Variable falsy : value -> bool.
Variable _extract_response_values : t -> value -> value -> t.
Variable _validate_response : response -> value -> option exn.
Variable str_exn : exn -> string.
Variable str_seconds : Q -> string.
Variable unsent_elapsed : request -> Q.

(** With [auth: required] and no token, nothing gets past the check. *)
Lemma prepare_stops (ex : t) (api : value) :
  requires_auth api -> no_token ex = true ->
  exists e, prepare ex api = inl e.
Proof.
  intros Hauth Htok. unfold requires_auth in Hauth.
  unfold prepare, bind. cbv beta. rewrite Hauth, Htok.
  repeat lazymatch goal with
         | |- exists e, match ?x with inl _ => _ | inr _ => _ end = inl e =>
             destruct x; [eauto|]
         end.
  cbn. eauto.
Qed.

(** When the lookups and the templating before the check go through, the
    exception is the one of the check. *)
Lemma prepare_auth_error (ex : t) (api method : value)
  (headers_t : option value) (headers : value) (endpoint endpoint' : string) :
  requires_auth api -> no_token ex = true ->
  py_getitem "method" api = inr method ->
  py_getitem "endpoint" api = inr (VStr endpoint) ->
  resolve_str ex endpoint = inr endpoint' ->
  py_get "headers" api = inr headers_t ->
  _resolve_dict_variables ex (default (VMap []) headers_t) = inr headers ->
  prepare ex api = inl auth_error.
Proof.
  intros Hauth Htok Hm He Hr Hh Hrh. unfold prepare, bind.
  rewrite Hm, He. cbn [_resolve_variables bind]. unfold bind. rewrite Hr, Hh, Hrh.
  unfold requires_auth in Hauth. rewrite Hauth, Htok. reflexivity.
Qed.

(** C7, amended. For every API definition that declares [auth: required],
    [execute_api] called while no token is held ends with an exception,
    sends no request and adds no record to the call log.  The exception is
    the one of the authentication check whenever the definition's method
    and endpoint are there and the endpoint and the headers resolve
    against the context; otherwise the lookup or the templating that comes
    before the check raises its own. *)
Theorem C7_auth_required_sends_nothing (ex : t) (api_name : string)
  (test_name : option string) (kwargs : Dict.t string) (api : value) :
  _get_api_config ex api_name = inr api ->
  requires_auth api ->
  no_token ex = true ->
  let out := execute_api send json_loads falsy _extract_response_values
               _validate_response str_exn str_seconds unsent_elapsed
               ex api_name test_name kwargs in
  (exists e, out.2 = inl e)
  /\ sent out.1 = sent ex
  /\ reporter out.1 = reporter ex
  /\ (forall (method : value) (headers_t : option value) (headers : value)
             (endpoint endpoint' : string),
        py_getitem "method" api = inr method ->
        py_getitem "endpoint" api = inr (VStr endpoint) ->
        resolve_str (store_all kwargs ex) endpoint = inr endpoint' ->
        py_get "headers" api = inr headers_t ->
        _resolve_dict_variables (store_all kwargs ex)
          (default (VMap []) headers_t) = inr headers ->
        out.2 = inl auth_error).
Proof.
  intros Hcfg Hauth Htok out. subst out. unfold execute_api. rewrite Hcfg.
  assert (Hname : exists n, py_get "name" api = inr n).
  { unfold requires_auth in Hauth. destruct api; try discriminate.
    cbn. eauto. }
  destruct Hname as [n ->].
  assert (Htok' : no_token (store_all kwargs ex) = true)
    by (rewrite no_token_store_all; exact Htok).
  destruct (store_all_fields kwargs ex) as (_ & Hs & Hr).
  destruct (prepare_stops (store_all kwargs ex) api Hauth Htok') as [e He].
  rewrite He. cbn [fst snd]. repeat split; eauto.
  intros method headers_t headers endpoint endpoint' Hm Hep Hres Hh Hrh.
  rewrite (prepare_auth_error _ _ _ _ _ _ _ Hauth Htok' Hm Hep Hres Hh Hrh) in He.
  congruence.
Qed.

End Network.

(** An executor that holds no token, with a catalogue of one API that
    requires authentication and passes the token in a header. *)
Definition profile_api : value :=
  VMap [("name", VStr "Get profile"); ("method", VStr "GET");
        ("endpoint", VStr "/profile");
        ("headers", VMap [("Authorization", VStr "Bearer ${auth_token}")]);
        ("auth", VStr "required")].

(** The same API without the header. *)
Definition plain_api : value :=
  VMap [("name", VStr "Get profile"); ("method", VStr "GET");
        ("endpoint", VStr "/profile"); ("auth", VStr "required")].

Definition catalogue : Dict.t value :=
  [("environments", VMap [("dev", VMap [("base_url", VStr "http://api")])]);
   ("apis", VMap [("users", VMap [("profile", profile_api);
                                  ("plain", plain_api)])])].

Definition fresh : t :=
  {| context := []; auth_token := None; session := true; reporter := [];
     api_config := catalogue; base_url := "http://api"; timeout := 30%Q;
     sent := [] |}.

Definition run (ex : t) (api_name : string) : t * res response :=
  execute_api (fun _ => TimedOut) (fun _ => None) (fun _ => false)
    (fun ex _ _ => ex) (fun _ _ => None) (fun _ => "") (fun _ => "")
    (fun _ => 0%Q) ex api_name None [].

(** C7, as stated, fails: for an API that requires authentication and
    passes the token in a header, the call without a token ends with the
    exception of the header's unresolved placeholder, not with the one of
    the authentication check. *)
Lemma C7_counterexample_unresolved_header :
  (run fresh "profile").2
  = inl (ValueError "Variable 'auth_token' not found in context")
  /\ (run fresh "profile").2 <> inl auth_error.
Proof.
  assert (H : (run fresh "profile").2
              = inl (ValueError "Variable 'auth_token' not found in context")).
  { vm_compute. reflexivity. }
  split; [exact H|]. rewrite H. discriminate.
Qed.

(** The theorem at the API without the header: the call ends with the
    exception of the check, nothing is sent, nothing is logged. *)
Lemma C7_witness :
  (exists e, (run fresh "plain").2 = inl e)
  /\ sent (run fresh "plain").1 = []
  /\ reporter (run fresh "plain").1 = []
  /\ (run fresh "plain").2 = inl auth_error.
Proof.
  pose proof (C7_auth_required_sends_nothing
                (fun _ => TimedOut) (fun _ => None) (fun _ => false)
                (fun ex _ _ => ex) (fun _ _ => None) (fun _ => "")
                (fun _ => "") (fun _ => 0%Q) fresh "plain" None [] plain_api
                eq_refl eq_refl eq_refl) as (He & Hs & Hr & Hauth).
  split; [exact He|]. split; [exact Hs|]. split; [exact Hr|].
  apply (Hauth (VStr "GET") None (VMap []) "/profile" "/profile");
    vm_compute; reflexivity.
Defined.

End ApiFacts.

(** ** Table verification *)

Module TableFacts.
Import FeatureParser StepExecutor.

(** A cell that shows a text. *)
Definition text_cell (s : string) : Cell :=
  {| text_content := Some s; inner_text := Some s;
     descendants := fun _ => Some []; evaluated := Some s |}.

Definition alice_row (status : Cell) : Row :=
  {| cells := [text_cell "Alice"; status]; row_text := None |}.

Definition bob_row (status : Cell) : Row :=
  {| cells := [text_cell "Bob"; status]; row_text := None |}.

(** A table with the header cells Name and Status and the two data rows
    of Alice and Bob, each with a status cell of its own. *)
Definition people_table (alice_status bob_status : Cell) : Table :=
  {| headers_by := fun selector =>
       if String.eqb selector "thead th"
       then Some [Some "Name"; Some "Status"] else Some [];
     rows_by := fun selector =>
       if String.eqb selector "tbody tr"
       then Some [alice_row alice_status; bob_row bob_status] else Some [] |}.

Definition people_page (alice_status bob_status : Cell) : Page :=
  {| tables_by := fun selector =>
       if String.eqb selector "table"
       then Some [people_table alice_status bob_status] else Some [];
     all_rows := Some [] |}.

Definition expected_headers : list string := ["Name"; "Status"].

Definition expected_rows : list (list string) :=
  [["Alice"; "*"]; ["Bob"; "Active"]].



Lemma check_value_wildcard (header expected_value : string) (i : nat)
  (row_cells : list Cell) (cell : Cell) :
  row_cells !! i = Some cell ->
  String.eqb (Py.strip expected_value) "*"
  || String.eqb (Py.strip expected_value) "" = true ->
  check_value header expected_value i row_cells
  = {| d_header := header; d_status := v_skipped; d_expected := None;
       d_actual := Some (cell_text cell);
       d_message := Some "Wildcard match" |}.
Proof. intros Hc Hw. unfold check_value. rewrite Hc, Hw. reflexivity. Qed.

Lemma check_value_partial (header expected_value : string) (i : nat)
  (row_cells : list Cell) (cell : Cell) :
  row_cells !! i = Some cell ->
  String.eqb (Py.strip expected_value) "*"
  || String.eqb (Py.strip expected_value) "" = false ->
  String.eqb (Py.lower (cell_text cell)) (Py.lower expected_value) = false ->
  either_contains (Py.lower expected_value) (Py.lower (cell_text cell)) = true ->
  check_value header expected_value i row_cells
  = {| d_header := header; d_status := v_passed;
       d_expected := Some expected_value;
       d_actual := Some (cell_text cell);
       d_message := Some "Partial match" |}.
Proof.
  intros Hc Hw He Hp. unfold check_value. rewrite Hc, Hw, He, Hp. reflexivity.
Qed.













End TableFacts.

(** ** The feature file parser *)

Module ParserFacts.
Import FeatureParser.

(** *** Stores and addresses *)

Lemma length_update_at {A} (a : addr) (f : A -> A) (l : list A) :
  List.length (update_at a f l) = List.length l.
Proof.
  unfold update_at. destruct (l !! a); [apply length_insert|reflexivity].
Qed.

Lemma lookup_update_at_ne {A} (a x : addr) (f : A -> A) (l : list A) :
  a <> x -> update_at a f l !! x = l !! x.
Proof.
  intros Hne. unfold update_at.
  destruct (l !! a); [apply list_lookup_insert_ne; exact Hne|reflexivity].
Qed.

Lemma Forall_update_at {A} (P : A -> Prop) (a : addr) (f : A -> A)
  (l : list A) :
  (forall x, P x -> P (f x)) -> Forall P l -> Forall P (update_at a f l).
Proof.
  intros Hf Hl. unfold update_at. destruct (l !! a) as [x|] eqn:Hx; [|exact Hl].
  apply Forall_insert; [exact Hl|]. apply Hf.
  eapply Forall_lookup_1; eauto.
Qed.

(** *** What the loop keeps true

    No scenario object has examples; the current scenario is an object of
    the store; the scenarios of the feature are objects of the store, and
    the current scenario is none of them. *)
Definition scen_ok (st : PState) : Prop :=
  Forall (fun o => sc_examples o = None) st.(scen_store)
  /\ (forall a, st.(current_scenario) = Some a ->
                a < List.length st.(scen_store))
  /\ (forall f, st.(feature) = Some f ->
                Forall (fun x => x < List.length st.(scen_store)
                                 /\ st.(current_scenario) <> Some x)
                       f.(f_scenarios)).

Lemma init_ok : scen_ok init_state.
Proof.
  split; [constructor|]. split; [discriminate|discriminate].
Qed.

Lemma current_is_plain_current (st : PState) (a : addr) :
  current_is_plain st = Some a -> st.(current_scenario) = Some a.
Proof.
  unfold current_is_plain. destruct (current_scenario st) as [c|]; [|discriminate].
  destruct (background st); [|congruence].
  destruct (bool_decide _); [discriminate|congruence].
Qed.

(** A new object at the end of the store becomes the current scenario. *)
Lemma alloc_ok (st : PState) (o : ScenarioOf addr)
  (f' : option (FeatureOf addr)) (steps : list Step)
  (cs : option addr) (bg : option addr) (ie : bool)
  (ed : list (list string)) (tg : list string) :
  scen_ok st ->
  sc_examples o = None ->
  (forall f, f' = Some f ->
             Forall (fun x => x < List.length st.(scen_store)) f.(f_scenarios)) ->
  scen_ok {| steps_store := steps; scen_store := st.(scen_store) ++ [o];
             feature := f';
             current_scenario := Some (List.length st.(scen_store));
             current_step := cs; background := bg; in_examples := ie;
             examples_data := ed; tags := tg |}.
Proof.
  intros (Hex & Hcur & Hfeat) Ho Hf'. split; [|split]; cbn.
  - apply Forall_app. split; [exact Hex|]. constructor; [exact Ho|constructor].
  - intros a [= Ha]. subst a. rewrite length_app. cbn. lia.
  - intros f Hf. specialize (Hf' f Hf).
    eapply Forall_impl; [exact Hf'|]. cbn. intros x Hx.
    rewrite length_app. cbn. split; [lia|]. intros [= Hx']. lia.
Qed.

Lemma parse_line_ok (path : string) (st st' : PState) (n : nat) (raw : string) :
  parse_line path st n raw = Some st' -> scen_ok st -> scen_ok st'.
Proof.
  intros H Hok. unfold parse_line in H.
  destruct (_ || _) in H; [injection H as <-; exact Hok|].
  destruct (Py.startswith "@" _) in H.
  { injection H as <-. exact Hok. }
  destruct (Py.startswith "Feature:" _) in H.
  { injection H as <-. destruct Hok as (Hex & Hcur & Hfeat).
    split; [exact Hex|]. split; [exact Hcur|].
    cbn. intros f [= <-]. cbn. constructor. }
  destruct (Py.startswith "Background:" _) in H.
  { injection H as <-. apply alloc_ok; [exact Hok|reflexivity|].
    intros f Hf. destruct Hok as (_ & _ & Hfeat).
    eapply Forall_impl; [exact (Hfeat f Hf)|]. cbn. tauto. }
  destruct (_ || _) in H.
  { destruct (current_is_plain st) as [a|] eqn:Hplain.
    - destruct (feature st) as [f0|] eqn:Hf0; [|discriminate].
      injection H as <-. apply alloc_ok; [exact Hok|reflexivity|].
      intros f [= <-]. cbn. destruct Hok as (_ & Hcur & Hfeat).
      apply Forall_app. split.
      + eapply Forall_impl; [exact (Hfeat f0 Hf0)|]. cbn. tauto.
      + constructor; [|constructor].
        apply Hcur, current_is_plain_current, Hplain.
    - injection H as <-. apply alloc_ok; [exact Hok|reflexivity|].
      intros f Hf. destruct Hok as (_ & _ & Hfeat).
      eapply Forall_impl; [exact (Hfeat f Hf)|]. cbn. tauto. }
  destruct (Py.startswith "Examples:" _) in H.
  { injection H as <-. exact Hok. }
  destruct (_ && _) in H.
  { injection H as <-. exact Hok. }
  destruct (is_step_line _) in H.
  { destruct (StepType_of _) in H; [|discriminate].
    destruct (_parse_step_text _) as [[act prm]|] in H; [|discriminate].
    injection H as <-. destruct Hok as (Hex & Hcur & Hfeat).
    assert (Hlen : List.length
                     (match current_scenario st with
                      | Some a => update_at a (append_step
                                    (List.length (steps_store st)))
                                    (scen_store st)
                      | None => scen_store st
                      end) = List.length (scen_store st)).
    { destruct (current_scenario st); [apply length_update_at|reflexivity]. }
    split; [|split]; cbn.
    - destruct (current_scenario st); [|exact Hex].
      apply Forall_update_at; [|exact Hex]. intros o Ho. exact Ho.
    - intros a Ha. rewrite Hlen. apply Hcur, Ha.
    - intros f Hf. rewrite Hlen. apply Hfeat, Hf. }
  destruct (_ && _) in H.
  { destruct (current_step st); injection H as <-; exact Hok. }
  injection H as <-. exact Hok.
Qed.

Lemma parse_lines_ok (path : string) (lines : list string) :
  forall (st st' : PState) (n : nat),
  parse_lines path st n lines = Some st' -> scen_ok st -> scen_ok st'.
Proof.
  induction lines as [|raw rest IH]; intros st st' n H Hok; cbn in H.
  - injection H as <-. exact Hok.
  - destruct (parse_line path st n raw) as [st1|] eqn:H1; [|discriminate].
    eapply IH; [exact H|]. eapply parse_line_ok; eauto.
Qed.

(** *** The scenarios of the returned feature *)

(** Every scenario but the last one has no examples. *)
Definition all_but_last_unset (l : list Scenario) : Prop :=
  forall i sc, l !! i = Some sc -> S i < List.length l ->
               sc_examples sc = None.

Lemma all_but_last_app (l1 l2 : list Scenario) :
  Forall (fun sc => sc_examples sc = None) l1 ->
  List.length l2 <= 1 ->
  all_but_last_unset (l1 ++ l2).
Proof.
  intros H1 H2 i sc Hi Hlt. rewrite length_app in Hlt.
  assert (Hil : i < List.length l1) by lia.
  rewrite lookup_app_l in Hi by exact Hil.
  eapply Forall_lookup_1 in H1; eauto.
Qed.

Lemma omap_length_le {A B} (f : A -> option B) (l : list A) :
  List.length (omap f l) <= List.length l.
Proof.
  induction l as [|x l IH]; cbn; [lia|]. destruct (f x); cbn; lia.
Qed.

Lemma omap_unset (steps : list Step) (scen : list (ScenarioOf addr))
  (l : list addr) :
  Forall (fun x => forall o, scen !! x = Some o -> sc_examples o = None) l ->
  Forall (fun sc => sc_examples sc = None)
         (omap (fun a => option_map (scenario_value steps) (scen !! a)) l).
Proof.
  induction 1 as [|x l Hx _ IH]; cbn; [constructor|].
  destruct (scen !! x) as [o|] eqn:Ho; cbn; [|exact IH].
  constructor; [|exact IH]. cbn. apply Hx. reflexivity.
Qed.

(** The scenarios of a feature object, read off a store in which the
    objects before the last address have no examples. *)
Lemma feature_value_unset (st : PState) (f : FeatureOf addr)
  (front last : list addr) :
  f_scenarios f = front ++ last ->
  List.length last <= 1 ->
  Forall (fun x => forall o, scen_store st !! x = Some o ->
                             sc_examples o = None) front ->
  all_but_last_unset (f_scenarios (feature_value st f)).
Proof.
  intros Hf Hlast Hfront. unfold feature_value. cbn [f_scenarios].
  rewrite Hf. unfold scenario_at. rewrite omap_app.
  apply all_but_last_app.
  - apply omap_unset, Hfront.
  - etransitivity; [apply omap_length_le|exact Hlast].
Qed.

Lemma finish_unset (st st' : PState) (f' : FeatureOf addr) :
  scen_ok st -> finish st = Some st' -> feature st' = Some f' ->
  all_but_last_unset (f_scenarios (feature_value st' f')).
Proof.
  intros (Hex & Hcur & Hfeat) Hfin Hf'. unfold finish in Hfin.
  destruct (current_is_plain st) as [a|] eqn:Hplain.
  - destruct (feature st) as [f0|] eqn:Hf0; [|discriminate].
    pose proof (current_is_plain_current st a Hplain) as Ha.
    set (scen := if in_examples st
                    && negb (Nat.eqb (List.length (examples_data st)) 0)
                 then update_at a
                        (set_examples (_process_examples (examples_data st)))
                        (scen_store st)
                 else scen_store st) in Hfin.
    assert (Hfront : Forall (fun x => forall o, scen !! x = Some o ->
                                                sc_examples o = None)
                            (f_scenarios f0)).
    { eapply Forall_impl; [exact (Hfeat f0 eq_refl)|]. cbn.
      intros x [Hx Hne] o Ho.
      assert (Hsame : scen !! x = scen_store st !! x).
      { subst scen. destruct (_ && _); [|reflexivity].
        apply lookup_update_at_ne. intros Heq. apply Hne.
        rewrite Ha, Heq. reflexivity. }
      rewrite Hsame in Ho. eapply Forall_lookup_1 in Hex; eauto. }
    cbn [background feature] in Hfin.
    destruct (background st) as [b|].
    + injection Hfin as <-. cbn in Hf'. injection Hf' as <-.
      eapply (feature_value_unset _ _ (f_scenarios f0) [a]);
        [reflexivity|cbn; lia|exact Hfront].
    + injection Hfin as <-. cbn in Hf'. injection Hf' as <-.
      eapply (feature_value_unset _ _ (f_scenarios f0) [a]);
        [reflexivity|cbn; lia|exact Hfront].
  - assert (Hall : forall f, feature st = Some f ->
                   Forall (fun x => forall o, scen_store st !! x = Some o ->
                                              sc_examples o = None)
                          (f_scenarios f)).
    { intros f Hf. eapply Forall_impl; [exact (Hfeat f Hf)|]. cbn.
      intros x _ o Ho. eapply Forall_lookup_1 in Hex; eauto. }
    destruct (background st) as [b|].
    + destruct (feature st) as [f0|] eqn:Hf0; [|discriminate].
      injection Hfin as <-. cbn in Hf'. injection Hf' as <-.
      eapply (feature_value_unset _ _ (f_scenarios f0) []);
        [cbn; rewrite app_nil_r; reflexivity|cbn; lia|].
      apply Hall. reflexivity.
    + injection Hfin as <-.
      eapply (feature_value_unset _ _ (f_scenarios f') []);
        [rewrite app_nil_r; reflexivity|cbn; lia|].
      apply Hall, Hf'.
Qed.

(** C10. In every feature the parser returns, only the last scenario can
    carry examples: the examples rows are made into a table and attached
    after the last line only, so a scenario that is closed by a later
    Scenario or Scenario Outline line keeps its examples unset, whatever
    rows were collected for it. *)
Theorem C10_only_last_scenario_has_examples (file_path : string)
  (lines : list string) (f : Feature) :
  _parse_feature_file file_path lines = Some f ->
  forall (i : nat) (sc : Scenario),
    f.(f_scenarios) !! i = Some sc ->
    S i < List.length f.(f_scenarios) ->
    sc.(sc_examples) = None.
Proof.
  intros Hparse. unfold _parse_feature_file in Hparse.
  destruct (parse_lines file_path init_state 1 lines) as [st|] eqn:Hlines;
    [|discriminate].
  destruct (finish st) as [st'|] eqn:Hfin; [|discriminate].
  destruct (feature st') as [f'|] eqn:Hf'; [|discriminate].
  injection Hparse as <-.
  apply (finish_unset st st' f'); [|exact Hfin|exact Hf'].
  eapply parse_lines_ok; [exact Hlines|apply init_ok].
Qed.

(** An outline with an examples table, followed by another scenario. *)
Definition outline_then_scenario : list string :=
  map Py.py
    ["Feature: Search";
     "  Scenario Outline: Find";
     "    When I search for `<term>`";
     "    Examples:";
     "      | term |";
     "      | shoes |";
     "  Scenario: Browse";
     "    When I click the `Home` link"].

(** The theorem at that file: the outline is the first of two scenarios,
    and its examples are unset. *)
Lemma C10_witness :
  exists f sc,
    _parse_feature_file "search.feature" outline_then_scenario = Some f
    /\ List.length f.(f_scenarios) = 2
    /\ f.(f_scenarios) !! 0 = Some sc
    /\ sc.(sc_name) = "Find"
    /\ sc.(sc_examples) = None.
Proof.
  destruct (_parse_feature_file "search.feature" outline_then_scenario)
    as [f|] eqn:Hf; [|vm_compute in Hf; discriminate].
  destruct (f_scenarios f !! 0) as [sc|] eqn:Hsc.
  2: { exfalso. revert Hsc. vm_compute in Hf. injection Hf as <-. discriminate. }
  exists f, sc.
  assert (Hlen : List.length (f_scenarios f) = 2).
  { vm_compute in Hf. injection Hf as <-. reflexivity. }
  split; [reflexivity|]. split; [exact Hlen|]. split; [exact Hsc|]. split.
  - vm_compute in Hf. injection Hf as <-. cbn in Hsc. injection Hsc as <-.
    reflexivity.
  - apply (C10_only_last_scenario_has_examples "search.feature"
             outline_then_scenario f Hf 0 sc Hsc).
    rewrite Hlen. lia.
Defined.

(** *** Tag inheritance and the tag filter *)

(** The kinds of lines, as the loop tells them apart on the stripped line. *)
Definition skipped (line : string) : bool :=
  String.eqb line "" || Py.startswith "#" line.

Definition parsed_tags (line : string) : list string :=
  map Py.strip (List.filter (Py.startswith "@") (Py.split_ws line)).

Definition is_tag_line (raw : string) (ts : list string) : Prop :=
  skipped (Py.strip raw) = false
  /\ Py.startswith "@" (Py.strip raw) = true
  /\ parsed_tags (Py.strip raw) = ts.

Definition is_feature_line (raw : string) : Prop :=
  skipped (Py.strip raw) = false
  /\ Py.startswith "@" (Py.strip raw) = false
  /\ Py.startswith "Feature:" (Py.strip raw) = true.

Definition starts_scenario (line : string) : bool :=
  Py.startswith "Scenario:" line || Py.startswith "Scenario Outline:" line.

Definition is_scenario_line (raw : string) : Prop :=
  skipped (Py.strip raw) = false
  /\ Py.startswith "@" (Py.strip raw) = false
  /\ Py.startswith "Feature:" (Py.strip raw) = false
  /\ Py.startswith "Background:" (Py.strip raw) = false
  /\ starts_scenario (Py.strip raw) = true.

(** A line inside a scenario: blank, a comment, a step, a table row, an
    Examples line or free text, but no tag line and no line that opens a
    feature, a background or a scenario. *)
Definition is_body_line (raw : string) : Prop :=
  skipped (Py.strip raw) = true
  \/ (Py.startswith "@" (Py.strip raw) = false
      /\ Py.startswith "Feature:" (Py.strip raw) = false
      /\ Py.startswith "Background:" (Py.strip raw) = false
      /\ starts_scenario (Py.strip raw) = false).

Lemma parse_line_tag (path : string) (st : PState) (n : nat) (raw : string)
  (ts : list string) :
  is_tag_line raw ts -> parse_line path st n raw = Some (with_tags st ts).
Proof.
  intros (Hs & Ht & Hts). unfold parse_line. unfold skipped in Hs.
  rewrite Hs, Ht. unfold parsed_tags in Hts. rewrite Hts. reflexivity.
Qed.

Lemma parse_line_feature (path : string) (st : PState) (n : nat)
  (raw : string) :
  is_feature_line raw ->
  parse_line path st n raw
  = Some (with_feature st
            (Some {| f_name := Py.strip (Py.drop_str 8 (Py.strip raw));
                     f_description := ""; f_scenarios := [];
                     f_tags := st.(tags); f_background := None;
                     f_file_path := path |})).
Proof.
  intros (Hs & Ht & Hf). unfold parse_line. unfold skipped in Hs.
  rewrite Hs, Ht, Hf. reflexivity.
Qed.

(** The name a scenario line gives. *)
Definition scenario_name_of (raw : string) : string :=
  Py.strip (nth 1 (Py.split1 (ascii_of_nat 58) (Py.strip raw)) "").

Lemma parse_line_scenario (path : string) (st : PState) (n : nat)
  (raw : string) (f : FeatureOf addr) :
  is_scenario_line raw ->
  st.(feature) = Some f ->
  st.(background) = None ->
  parse_line path st n raw
  = Some {| steps_store := st.(steps_store);
            scen_store :=
              st.(scen_store) ++
              [{| sc_name := scenario_name_of raw; sc_description := "";
                  sc_steps := [];
                  sc_tags := inherit_tags f.(f_tags) st.(tags);
                  sc_examples := None; sc_line_number := n |}];
            feature :=
              Some (match st.(current_scenario) with
                    | Some a => append_scenario a f
                    | None => f
                    end);
            current_scenario := Some (List.length st.(scen_store));
            current_step := st.(current_step);
            background := None;
            in_examples := false;
            examples_data := st.(examples_data);
            tags := [] |}.
Proof.
  intros (Hs & Ht & Hf & Hb & Hsc) Hfeat Hbg. unfold parse_line.
  unfold skipped in Hs. unfold starts_scenario in Hsc.
  rewrite Hs, Ht, Hf, Hb, Hsc. unfold current_is_plain.
  rewrite Hbg, Hfeat. unfold scenario_name_of.
  destruct (current_scenario st); reflexivity.
Qed.

(** What a body line leaves as it is: the feature, the current scenario,
    the background, the pending tags, and the name, the tags and the line
    of every scenario object. *)
Definition sig (o : ScenarioOf addr) : string * list string * nat :=
  (o.(sc_name), o.(sc_tags), o.(sc_line_number)).

Definition keeps (st st' : PState) : Prop :=
  st'.(feature) = st.(feature)
  /\ st'.(current_scenario) = st.(current_scenario)
  /\ st'.(background) = st.(background)
  /\ st'.(tags) = st.(tags)
  /\ List.length st'.(scen_store) = List.length st.(scen_store)
  /\ (forall x, option_map sig (st'.(scen_store) !! x)
                = option_map sig (st.(scen_store) !! x)).

Lemma keeps_refl (st : PState) : keeps st st.
Proof. repeat split; reflexivity. Qed.

Lemma keeps_trans (a b c : PState) : keeps a b -> keeps b c -> keeps a c.
Proof.
  intros (H1 & H2 & H3 & H4 & H5 & H6) (G1 & G2 & G3 & G4 & G5 & G6).
  split; [congruence|]. split; [congruence|]. split; [congruence|].
  split; [congruence|]. split; [congruence|]. intros x. rewrite G6. apply H6.
Qed.

Lemma sig_update_at (a x : addr) (g : ScenarioOf addr -> ScenarioOf addr)
  (l : list (ScenarioOf addr)) :
  (forall o, sig (g o) = sig o) ->
  option_map sig (update_at a g l !! x) = option_map sig (l !! x).
Proof.
  intros Hg. unfold update_at. destruct (l !! a) as [o|] eqn:Ho; [|reflexivity].
  destruct (decide (a = x)) as [->|Hne].
  - rewrite list_lookup_insert_eq by (eapply lookup_lt_Some; eauto).
    rewrite Ho. cbn. rewrite Hg. reflexivity.
  - rewrite list_lookup_insert_ne by exact Hne. reflexivity.
Qed.

Lemma prefix_l_elim (p l : list ascii) :
  Py.prefix_l p l = true -> l = p ++ skipn (List.length p) l.
Proof.
  revert l. induction p as [|a p IH]; intros l H; [reflexivity|].
  destruct l as [|b l]; [discriminate|]. cbn in H.
  apply andb_true_iff in H as [Hab Hp]. apply Ascii.eqb_eq in Hab. subst b.
  cbn. f_equal. apply IH, Hp.
Qed.

(** A step line begins with one of the five keywords, which the
    enumeration knows. *)
Lemma step_type_total (line : string) :
  is_step_line line = true ->
  is_Some (StepType_of (Py.lower (nth 0 (Py.split1 (ascii_of_nat 32) line) ""))).
Proof.
  unfold is_step_line, step_prefixes. cbn [existsb]. intros H.
  repeat (apply orb_true_iff in H as [H|H]); try discriminate;
    unfold Py.startswith in H; apply prefix_l_elim in H;
    unfold Py.split1; rewrite H; vm_compute; eauto.
Qed.

Lemma parse_line_body (path : string) (st : PState) (n : nat) (raw : string) :
  is_body_line raw ->
  exists st', parse_line path st n raw = Some st' /\ keeps st st'.
Proof.
  intros Hbody. unfold parse_line.
  destruct (String.eqb (Py.strip raw) "" || Py.startswith "#" (Py.strip raw))
    eqn:Hskip.
  { eexists. split; [reflexivity|apply keeps_refl]. }
  destruct Hbody as [Hs|(Ht & Hf & Hb & Hsc)].
  { unfold skipped in Hs. congruence. }
  unfold starts_scenario in Hsc. rewrite Ht, Hf, Hb, Hsc.
  destruct (Py.startswith "Examples:" (Py.strip raw)).
  { eexists. split; [reflexivity|]. repeat split; reflexivity. }
  destruct (in_examples st && Py.startswith "|" (Py.strip raw)).
  { eexists. split; [reflexivity|]. repeat split; reflexivity. }
  destruct (is_step_line (Py.strip raw)) eqn:Hstep.
  { destruct (step_type_total _ Hstep) as [ty ->].
    destruct (ClassifierFacts._parse_step_text_total
                (if 1 <? List.length (Py.split1 (ascii_of_nat 32) (Py.strip raw))
                 then nth 1 (Py.split1 (ascii_of_nat 32) (Py.strip raw)) ""
                 else "")) as [[act prm] ->].
    eexists. split; [reflexivity|]. repeat split; try reflexivity.
    - cbn [scen_store]. destruct (current_scenario st); [|reflexivity].
      apply length_update_at.
    - intros x. cbn [scen_store]. destruct (current_scenario st); [|reflexivity].
      apply sig_update_at. reflexivity. }
  destruct (Py.startswith "|" (Py.strip raw) && negb (in_examples st)).
  { destruct (current_step st); eexists; (split; [reflexivity|]);
      repeat split; reflexivity. }
  eexists. split; [reflexivity|apply keeps_refl].
Qed.

Lemma parse_lines_body (path : string) (body : list string) :
  Forall is_body_line body ->
  forall (st : PState) (n : nat),
  exists st', parse_lines path st n body = Some st' /\ keeps st st'.
Proof.
  induction 1 as [|raw rest Hraw _ IH]; intros st n.
  - exists st. split; [reflexivity|apply keeps_refl].
  - destruct (parse_line_body path st n raw Hraw) as (st1 & H1 & K1).
    destruct (IH st1 (S n)) as (st2 & H2 & K2).
    exists st2. split; [cbn; rewrite H1; exact H2|].
    eapply keeps_trans; eauto.
Qed.

Lemma parse_lines_app (path : string) (l1 l2 : list string) :
  forall (st : PState) (n : nat),
  parse_lines path st n (l1 ++ l2)
  = match parse_lines path st n l1 with
    | Some st' => parse_lines path st' (n + List.length l1) l2
    | None => None
    end.
Proof.
  induction l1 as [|raw rest IH]; intros st n; cbn.
  - rewrite Nat.add_0_r. reflexivity.
  - destruct (parse_line path st n raw); [|reflexivity].
    rewrite IH. replace (S n + List.length rest) with (n + S (List.length rest))
      by lia. reflexivity.
Qed.

Lemma lookup_sig (l : list (ScenarioOf addr)) (x : addr)
  (s : string * list string * nat) :
  option_map sig (l !! x) = Some s -> exists o, l !! x = Some o /\ sig o = s.
Proof.
  destruct (l !! x) as [o|]; [|discriminate]. cbn. intros [= <-]. eauto.
Qed.

(** The shape of the files of the claim: a tag line, the feature line, a
    tag line, a scenario line with its body, and a second scenario line,
    without a tag line of its own, with its body. *)
Definition smoke_file (tf fl ts sl1 sl2 : string) (body1 body2 : list string)
  : list string :=
  [tf; fl; ts; sl1] ++ body1 ++ [sl2] ++ body2.

Lemma smoke_file_parses (path tf fl ts sl1 sl2 : string)
  (body1 body2 : list string) :
  is_tag_line tf ["@smoke"] -> is_feature_line fl ->
  is_tag_line ts ["@smoke"] -> is_scenario_line sl1 ->
  Forall is_body_line body1 ->
  is_scenario_line sl2 -> Forall is_body_line body2 ->
  exists f s1 s2,
    _parse_feature_file path (smoke_file tf fl ts sl1 sl2 body1 body2) = Some f
    /\ f.(f_tags) = ["@smoke"]
    /\ f.(f_scenarios) = [s1; s2]
    /\ (sc_name s1, sc_tags s1, sc_line_number s1)
       = (scenario_name_of sl1, ["@smoke"], 4)
    /\ (sc_name s2, sc_tags s2, sc_line_number s2)
       = (scenario_name_of sl2, ["@smoke"], 5 + List.length body1).
Proof.
  intros Htf Hfl Hts Hsl1 Hb1 Hsl2 Hb2.
  unfold _parse_feature_file, smoke_file.
  (* the four lines at the head *)
  cbn [app parse_lines].
  rewrite (parse_line_tag path _ 1 tf _ Htf).
  rewrite (parse_line_feature path _ 2 fl Hfl).
  rewrite (parse_line_tag path _ 3 ts _ Hts).
  erewrite (parse_line_scenario path _ 4 sl1 _ Hsl1); [|reflexivity|reflexivity].
  cbn [with_tags with_feature init_state steps_store scen_store feature
       current_scenario current_step background in_examples examples_data
       tags f_tags app List.length].
  change (inherit_tags ["@smoke"] ["@smoke"]) with ["@smoke"].
  set (st4 := {| steps_store := []; scen_store := _ |}).
  (* the body of the first scenario *)
  rewrite parse_lines_app.
  destruct (parse_lines_body path body1 Hb1 st4 5)
    as (st5 & -> & K5f & K5c & K5b & K5t & K5l & K5s).
  (* the second scenario line *)
  cbn [app parse_lines].
  erewrite (parse_line_scenario path st5 _ sl2 _ Hsl2);
    [|rewrite K5f; reflexivity|rewrite K5b; reflexivity].
  rewrite K5c, K5t, K5l.
  cbn [st4 current_scenario tags scen_store List.length f_tags].
  change (inherit_tags ["@smoke"] []) with ["@smoke"].
  set (st6 := {| steps_store := steps_store st5; scen_store := _ |}).
  (* the body of the second scenario *)
  destruct (parse_lines_body path body2 Hb2 st6 (S (5 + List.length body1)))
    as (st7 & -> & K7f & K7c & K7b & K7t & K7l & K7s).
  (* after the last line *)
  unfold finish, current_is_plain. rewrite K7c, K7b, K7f.
  cbn [st6 current_scenario background feature].
  set (scen := if in_examples st7 && _ then _ else _).
  cbn [background feature with_feature].
  cbn [option_map feature_value f_tags f_scenarios append_scenario app].
  (* the two objects *)
  assert (H0 : exists o, scen !! 0 = Some o
                         /\ sig o = (scenario_name_of sl1, ["@smoke"], 4)).
  { apply lookup_sig. subst scen.
    transitivity (option_map sig (scen_store st7 !! 0)).
    { destruct (_ && _); [apply sig_update_at; reflexivity|reflexivity]. }
    rewrite K7s. cbn [st6 scen_store].
    assert (Hl : 0 < List.length (scen_store st5)) by (rewrite K5l; cbn; lia).
    rewrite lookup_app_l by exact Hl. rewrite K5s. reflexivity. }
  assert (H1 : exists o, scen !! 1 = Some o
                         /\ sig o = (scenario_name_of sl2, ["@smoke"],
                                     5 + List.length body1)).
  { apply lookup_sig. subst scen.
    transitivity (option_map sig (scen_store st7 !! 1)).
    { destruct (_ && _); [apply sig_update_at; reflexivity|reflexivity]. }
    rewrite K7s. cbn [st6 scen_store].
    assert (Hl : List.length (scen_store st5) = 1) by (rewrite K5l; reflexivity).
    rewrite lookup_app_r by (rewrite Hl; lia). rewrite Hl. reflexivity. }
  destruct H0 as (o0 & Ho0 & Hs0). destruct H1 as (o1 & Ho1 & Hs1).
  eexists. eexists. eexists. split; [reflexivity|].
  split; [reflexivity|].
  unfold feature_value, append_scenario, scenario_at.
  cbn [f_scenarios app scen_store steps_store]. cbn [omap list_omap].
  unfold addr in *. rewrite Ho0, Ho1. cbn [option_map].
  split; [reflexivity|]. split; [exact Hs0|exact Hs1].
Qed.

(** The claim as it is stated: one feature with one scenario. *)
Definition one_feature_one_scenario (fs : list Feature) : Prop :=
  exists f sc, fs = [f] /\ f.(f_scenarios) = [sc].

(** C2, amended.  For every feature file that carries the feature-level
    tag @smoke and holds one scenario tagged @smoke and one scenario with
    no tag line of its own, [parse_features] with the tag filter @smoke
    gives exactly one feature with exactly two scenarios: the untagged
    scenario inherits the feature's @smoke, so both scenarios carry the
    tag and both pass the filter. *)
Theorem C2_smoke_filter_keeps_both_scenarios (path tf fl ts sl1 sl2 : string)
  (body1 body2 : list string) :
  is_tag_line tf ["@smoke"] -> is_feature_line fl ->
  is_tag_line ts ["@smoke"] -> is_scenario_line sl1 ->
  Forall is_body_line body1 ->
  is_scenario_line sl2 -> Forall is_body_line body2 ->
  exists f s1 s2,
    parse_features
      [(path, Some (smoke_file tf fl ts sl1 sl2 body1 body2))]
      (Some ["@smoke"]) = [f]
    /\ f.(f_tags) = ["@smoke"]
    /\ f.(f_scenarios) = [s1; s2]
    /\ (sc_name s1, sc_tags s1, sc_line_number s1)
       = (scenario_name_of sl1, ["@smoke"], 4)
    /\ (sc_name s2, sc_tags s2, sc_line_number s2)
       = (scenario_name_of sl2, ["@smoke"], 5 + List.length body1).
Proof.
  intros Htf Hfl Hts Hsl1 Hb1 Hsl2 Hb2.
  destruct (smoke_file_parses path tf fl ts sl1 sl2 body1 body2
              Htf Hfl Hts Hsl1 Hb1 Hsl2 Hb2)
    as (f & s1 & s2 & Hp & Ht & Hs & H1 & H2).
  exists (set_scenarios [s1; s2] f), s1, s2.
  split; [|split; [exact Ht|split; [reflexivity|split; [exact H1|exact H2]]]].
  cbn [parse_features]. rewrite Hp, Hs. cbn [List.filter].
  unfold scenario_matches.
  injection H1 as _ Ht1 _. injection H2 as _ Ht2 _. rewrite Ht1, Ht2.
  reflexivity.
Qed.

(** A feature tagged @smoke with a tagged and an untagged scenario. *)
Definition smoke_example : list string :=
  map Py.py
    ["@smoke";
     "Feature: Login";
     "  @smoke";
     "  Scenario: Tagged";
     "    When I click the `Login` button";
     "  Scenario: Untagged";
     "    Then I should see `Welcome`"].

(** C2, as stated, fails: the filter keeps both scenarios of the example,
    not one. *)
Lemma C2_counterexample_two_scenarios :
  ~ one_feature_one_scenario
      (parse_features [("login.feature", Some smoke_example)]
         (Some ["@smoke"])).
Proof.
  assert (H : map (fun f => List.length f.(f_scenarios))
                  (parse_features [("login.feature", Some smoke_example)]
                     (Some ["@smoke"])) = [2]) by (vm_compute; reflexivity).
  intros (f & sc & Hf & Hsc). rewrite Hf in H. clear Hf.
  cbn in H. rewrite Hsc in H. discriminate H.
Qed.

(** The theorem at the example. *)
Lemma C2_witness :
  exists f s1 s2,
    parse_features [("login.feature", Some smoke_example)] (Some ["@smoke"])
    = [f]
    /\ f.(f_tags) = ["@smoke"]
    /\ f.(f_scenarios) = [s1; s2]
    /\ (sc_name s1, sc_tags s1, sc_line_number s1) = ("Tagged", ["@smoke"], 4)
    /\ (sc_name s2, sc_tags s2, sc_line_number s2) = ("Untagged", ["@smoke"], 6).
Proof.
  apply (C2_smoke_filter_keeps_both_scenarios "login.feature"
           "@smoke" "Feature: Login" "  @smoke" "  Scenario: Tagged"
           "  Scenario: Untagged"
           [Py.py "    When I click the `Login` button"]
           [Py.py "    Then I should see `Welcome`"]).
  - repeat split; reflexivity.
  - repeat split; reflexivity.
  - repeat split; reflexivity.
  - repeat split; reflexivity.
  - constructor; [right; repeat split; reflexivity|constructor].
  - repeat split; reflexivity.
  - constructor; [right; repeat split; reflexivity|constructor].
Defined.

End ParserFacts.

(** ** More on dictionaries and configuration *)

Module DictFacts.

Lemma get_set_eq {V} (k : string) (v : V) (d : Dict.t V) :
  Dict.get k (Dict.set k v d) = Some v.
Proof.
  induction d as [|[k' v'] r IH]; cbn.
  - rewrite String.eqb_refl. reflexivity.
  - destruct (String.eqb k k') eqn:E; cbn; rewrite ?String.eqb_refl, ?E;
      [reflexivity|exact IH].
Qed.

Lemma get_set_ne {V} (k k' : string) (v : V) (d : Dict.t V) :
  k <> k' -> Dict.get k (Dict.set k' v d) = Dict.get k d.
Proof.
  intros Hne. induction d as [|[k2 v2] r IH]; cbn.
  - destruct (String.eqb_spec k k'); [contradiction|reflexivity].
  - destruct (String.eqb_spec k' k2) as [->|Hk2]; cbn.
    + destruct (String.eqb_spec k k2); [contradiction|reflexivity].
    + destruct (String.eqb_spec k k2); [reflexivity|exact IH].
Qed.

Lemma get_set {V} (k k' : string) (v : V) (d : Dict.t V) :
  Dict.get k (Dict.set k' v d)
  = if String.eqb k k' then Some v else Dict.get k d.
Proof.
  destruct (String.eqb_spec k k') as [->|Hne];
    [apply get_set_eq|apply get_set_ne, Hne].
Qed.

Lemma get_not_in {V} (k : string) (d : Dict.t V) :
  k ∉ map fst d -> Dict.get k d = None.
Proof.
  induction d as [|[k' v'] r IH]; cbn; [reflexivity|]. intros Hn.
  apply not_elem_of_cons in Hn as [Hne Hn].
  destruct (String.eqb_spec k k') as [->|_]; [contradiction|].
  apply IH, Hn.
Qed.

Lemma mem_set {V} (k k' : string) (v : V) (d : Dict.t V) :
  Dict.mem k d = true -> Dict.mem k (Dict.set k' v d) = true.
Proof.
  unfold Dict.mem. rewrite get_set. destruct (String.eqb k k'); [reflexivity|].
  intros H. exact H.
Qed.

End DictFacts.

Module ConfigMoreFacts.
Import Doc ConfigManager DictFacts.

(** Induction over documents, with the parts of lists and mappings. *)
Lemma value_nested_ind (P : value -> Prop) :
  P VNull -> (forall b, P (VBool b)) -> (forall z, P (VInt z)) ->
  (forall s, P (VStr s)) ->
  (forall l, List.Forall P l -> P (VList l)) ->
  (forall d, List.Forall (fun kv => P kv.2) d -> P (VMap d)) ->
  forall v, P v.
Proof.
  intros HN HB HI HS HL HM.
  fix IH 1. intros [| b | z | s | l | d].
  - exact HN.
  - apply HB.
  - apply HI.
  - apply HS.
  - apply HL. induction l as [|x l IHl]; constructor; [apply IH|exact IHl].
  - apply HM. induction d as [|[k x] d IHd]; constructor; [apply IH|exact IHd].
Qed.

(** The loop of [_merge_configs] over the items of the override. *)
Fixpoint merge_items (items : list (string * value)) (result : Dict.t value)
  : Dict.t value :=
  match items with
  | [] => result
  | (key, v) :: rest =>
      let nv :=
        match Dict.get key result with
        | Some (VMap sub) => if is_dict v then VMap (merge_value sub v) else v
        | _ => v
        end in
      merge_items rest (Dict.set key nv result)
  end.

Lemma merge_value_items (base : Dict.t value) (items : list (string * value)) :
  merge_value base (VMap items) = merge_items items base.
Proof.
  reflexivity.
Qed.

(** What one key of the merged dictionary holds, when the override names
    each of its keys once. *)
Definition merged_at (base_v : option value) (v : value) : value :=
  match base_v with
  | Some (VMap sub) => if is_dict v then VMap (merge_value sub v) else v
  | _ => v
  end.

Lemma merge_items_get (items : list (string * value)) :
  NoDup (map fst items) ->
  forall (result : Dict.t value) (k : string),
  Dict.get k (merge_items items result)
  = match Dict.get k items with
    | None => Dict.get k result
    | Some v => Some (merged_at (Dict.get k result) v)
    end.
Proof.
  induction items as [|[key v] rest IH]; intros Hnd result k; [reflexivity|].
  cbn [map fst] in Hnd. apply NoDup_cons in Hnd as [Hnotin Hnd].
  cbn [merge_items Dict.get]. rewrite (IH Hnd).
  destruct (String.eqb_spec k key) as [->|Hne].
  - rewrite (get_not_in key rest Hnotin), get_set_eq. reflexivity.
  - rewrite get_set_ne by exact Hne. reflexivity.
Qed.

(** X1. [_merge_configs] key by key, for an override that names each of its
    keys once: a key the override does not have keeps the value of the
    base; a key it has takes the override's value, except that two
    dictionaries are merged in turn. *)
Theorem merge_configs_lookup (base override : Dict.t value) (k : string) :
  NoDup (map fst override) ->
  Dict.get k (_merge_configs base override)
  = match Dict.get k override with
    | None => Dict.get k base
    | Some v => Some (merged_at (Dict.get k base) v)
    end.
Proof.
  intros Hnd. unfold _merge_configs. rewrite merge_value_items.
  apply merge_items_get, Hnd.
Qed.

Lemma merge_configs_lookup_witness :
  Dict.get "a"
    (_merge_configs [("a", VMap [("x", VInt 1)]); ("b", VInt 2)]
                    [("a", VMap [("y", VInt 9)]); ("c", VInt 3)])
  = Some (VMap [("x", VInt 1); ("y", VInt 9)]).
Proof.
  exact (merge_configs_lookup [("a", VMap [("x", VInt 1)]); ("b", VInt 2)]
           [("a", VMap [("y", VInt 9)]); ("c", VInt 3)] "a"
           ltac:(apply (bool_decide_unpack _); vm_compute; exact I)).
Defined.

Lemma merge_items_mem (items : list (string * value)) :
  forall (result : Dict.t value) (k : string),
  Dict.mem k result = true -> Dict.mem k (merge_items items result) = true.
Proof.
  induction items as [|[key v] rest IH]; intros result k Hk; [exact Hk|].
  cbn [merge_items]. apply IH, mem_set, Hk.
Qed.

Lemma apply_overrides_mem (overrides : Dict.t value) :
  forall (base : Dict.t value) (k : string),
  Dict.mem k base = true -> Dict.mem k (_apply_overrides base overrides) = true.
Proof.
  induction overrides as [|[section values] rest IH]; intros base k Hk;
    [exact Hk|].
  cbn [_apply_overrides]. apply IH.
  destruct (Dict.get section base) as [[| | | | |cur]|];
    try (apply mem_set, Hk).
  destruct values; apply mem_set, Hk.
Qed.

(** The keys of a mapping after the substitution of variables. *)
Lemma process_env_vars_keys (environ : string -> option string)
  (d : Dict.t value) :
  exists d', _process_env_vars environ (VMap d) = VMap d'
             /\ map fst d' = map fst d.
Proof.
  cbn [_process_env_vars]. eexists. split; [reflexivity|].
  induction d as [|[k v] r IH]; [reflexivity|]. cbn. f_equal. exact IH.
Qed.

Lemma mem_keys {V W} (k : string) (d : Dict.t V) (d' : Dict.t W) :
  map fst d' = map fst d -> Dict.mem k d = true -> Dict.mem k d' = true.
Proof.
  unfold Dict.mem. revert d'.
  induction d as [|[k1 v1] r IH]; intros d' Hk.
  - cbn. discriminate.
  - destruct d' as [|[k2 v2] r']; [discriminate|].
    cbn in Hk. injection Hk as -> Hr. cbn.
    destruct (String.eqb k k1); [reflexivity|]. apply IH, Hr.
Qed.

(** X2. Loading never drops a top-level key of the base document: whatever
    the environment document overrides or adds, every key of the base is a
    key of the loaded configuration. *)
Theorem load_config_keeps_base_keys (environ : string -> option string)
  (base : Dict.t value) (env_doc : option (Dict.t value)) (v : value) :
  load_config environ (Some base) env_doc = Some v ->
  exists c, v = VMap c
            /\ forall k, Dict.mem k base = true -> Dict.mem k c = true.
Proof.
  unfold load_config. intros H.
  destruct (match env_doc with
            | Some env_config =>
                match Dict.get "overrides" env_config with
                | Some overrides =>
                    match overrides with
                    | VMap ov =>
                        Some (_merge_configs (_apply_overrides base ov)
                                (Dict.remove "overrides" env_config))
                    | _ => None
                    end
                | None => Some (_merge_configs base env_config)
                end
            | None => Some base
            end) as [merged|] eqn:Hm; [|discriminate].
  cbn in H. injection H as <-.
  destruct (process_env_vars_keys environ merged) as (c & Hc & Hkeys).
  exists c. split; [exact Hc|]. intros k Hk.
  apply (mem_keys k merged c Hkeys).
  destruct env_doc as [env_config|]; [|injection Hm as <-; exact Hk].
  destruct (Dict.get "overrides" env_config) as [overrides|].
  - destruct overrides; try discriminate. injection Hm as <-.
    unfold _merge_configs. rewrite merge_value_items.
    apply merge_items_mem, apply_overrides_mem, Hk.
  - injection Hm as <-. unfold _merge_configs. rewrite merge_value_items.
    apply merge_items_mem, Hk.
Qed.

Lemma load_config_keeps_base_keys_witness :
  exists c,
    VMap [("a", VMap [("x", VInt 1); ("y", VInt 9)])] = VMap c
    /\ forall k, Dict.mem k ConfigFacts.base_doc = true -> Dict.mem k c = true.
Proof.
  exact (load_config_keeps_base_keys (fun _ => None) ConfigFacts.base_doc
           (Some ConfigFacts.env_with_overrides) _ eq_refl).
Defined.

Lemma chars_app (a b : string) : Py.chars (a ++ b) = Py.chars a ++ Py.chars b.
Proof.
  unfold Py.chars. induction a as [|c a IH]; [reflexivity|].
  change (String c a ++ b)%string with (String c (a ++ b)%string).
  cbn [list_ascii_of_string app]. f_equal. exact IH.
Qed.

Lemma str_chars (s : string) : Py.str (Py.chars s) = s.
Proof. apply string_of_list_ascii_of_string. Qed.

Lemma chars_str (l : list ascii) : Py.chars (Py.str l) = l.
Proof. apply list_ascii_of_string_of_list_ascii. Qed.

(** X3. A string leaf of the shape of a placeholder, whatever the name
    between the braces: it becomes the value of the variable of that name
    when the process environment has it, and stays as it is, braces
    included, when it has not. *)
Theorem process_env_vars_placeholder (environ : string -> option string)
  (name : string) :
  _process_env_vars environ (VStr ("${" +:+ name +:+ "}"))
  = VStr (default ("${" +:+ name +:+ "}") (environ name)).
Proof.
  cbn [_process_env_vars].
  assert (Hs : Py.startswith "${" ("${" +:+ name +:+ "}") = true) by reflexivity.
  assert (He : Py.endswith "}" ("${" +:+ name +:+ "}") = true).
  { unfold Py.endswith. rewrite !chars_app. cbn [Py.chars list_ascii_of_string].
    rewrite !rev_app_distr. reflexivity. }
  assert (Hn : Py.str (removelast (skipn 2 (Py.chars ("${" +:+ name +:+ "}"))))
               = name).
  { rewrite !chars_app. cbn [Py.chars list_ascii_of_string app skipn].
    change (skipn 0 ?l) with l. rewrite removelast_last. apply str_chars. }
  rewrite Hs, He, Hn. cbn [andb]. destruct (environ name); reflexivity.
Qed.

(** X4. With no variable set in the process environment, the substitution
    leaves every document as it is. *)
Theorem process_env_vars_empty_environment (config : value) :
  _process_env_vars (fun _ => None) config = config.
Proof.
  induction config as [| b | z | s | l IH | d IH] using value_nested_ind;
    try reflexivity.
  - cbn [_process_env_vars]. destruct (_ && _); reflexivity.
  - cbn [_process_env_vars]. f_equal.
    induction IH as [|x l Hx _ IHl]; [reflexivity|]. rewrite Hx, IHl.
    reflexivity.
  - cbn [_process_env_vars]. f_equal.
    induction IH as [|[k x] d Hx _ IHd]; [reflexivity|]. cbn in Hx.
    rewrite Hx, IHd. reflexivity.
Qed.

End ConfigMoreFacts.

(** ** More on the cache manager *)

Module CacheMoreFacts.
Import CacheManager CacheFacts ConfigMoreFacts.

Section WithValue.

Context {V : Type}.

Abbreviation entry := (CacheManager.entry V).
Abbreviation disk := (gmap string (CacheManager.content V)).
Abbreviation cm := (CacheManager.t V).

(** The file system the managers work on. *)
Variable file_at : string -> string -> string.
Variable creatable : string -> bool.

Abbreviation cache_file := (CacheManager.cache_file file_at).
Abbreviation writable := (CacheManager.writable creatable).
Abbreviation _save_cache := (CacheManager._save_cache file_at creatable).
Abbreviation _load_cache := (CacheManager._load_cache file_at creatable).
Abbreviation set_project := (CacheManager.set_project file_at creatable).
Abbreviation save_cache := (CacheManager.save_cache file_at creatable).
Abbreviation clear_cache := (CacheManager.clear_cache file_at creatable).
Abbreviation save_all := (CacheManager.save_all file_at creatable).
Abbreviation project_file := (CacheFacts.project_file file_at).

Lemma no_project_with_cache (c : cm) (x : gmap string entry) :
  no_project (with_cache c x) = no_project c.
Proof. reflexivity. Qed.

Lemma cache_file_with_cache (c : cm) (x : gmap string entry) :
  cache_file (with_cache c x) = cache_file c.
Proof. reflexivity. Qed.

(** Reading after one write. *)
Lemma get_save_cache (key k : string) (value : V) (t now : time)
  (c : cm) (fs : disk) :
  get k now (save_cache key value t c fs).1
  = if String.eqb k key
    then (if Qle_bool (now - t) (ttl c) then Some value else None)
    else get k now c.
Proof.
  unfold get, CacheManager.save_cache. cbn [fst cache ttl with_cache].
  destruct (String.eqb_spec k key) as [->|Hne].
  - rewrite lookup_insert_eq. reflexivity.
  - rewrite lookup_insert_ne by congruence. reflexivity.
Qed.

(** X5. What [get] answers after a run of [save_cache] calls: under a key
    that was saved, the value saved last, while its age is within the
    time to live, and nothing once it is older; under a key that was not
    saved, what it answered before the run. *)
Theorem get_after_writes (writes : list (string * V * time)) (k : string)
  (now : time) (c : cm) (fs : disk) :
  get k now (save_all writes c fs).1
  = match last_write writes k with
    | Some (value, t) =>
        if Qle_bool (now - t) (ttl c) then Some value else None
    | None => get k now c
    end.
Proof.
  unfold get. rewrite save_all_lookup.
  destruct (save_all_fields file_at creatable writes c fs) as (_ & -> & _).
  destruct (last_write writes k) as [[value t]|]; [|reflexivity].
  cbn [written stamp e_timestamp e_value default]. reflexivity.
Qed.

(** X6. Without a project, that is before [set_project] or with an empty
    name, [save_cache] and [clear_cache] leave the disk as it is, while
    the entry saved is still answered from memory. *)
Theorem no_project_never_writes (key : string) (value : V) (t : time)
  (c : cm) (fs : disk) :
  no_project c = true ->
  (save_cache key value t c fs).2 = fs
  /\ (clear_cache c fs).2 = fs
  /\ get key t (save_cache key value t c fs).1
     = (if Qle_bool 0 (ttl c) then Some value else None).
Proof.
  intros Hp.
  unfold CacheManager.save_cache, CacheManager.clear_cache,
    CacheManager._save_cache. cbn [snd fst].
  change (no_project (with_cache c ?x)) with (no_project c). rewrite Hp.
  split; [reflexivity|]. split; [reflexivity|].
  unfold get. cbn [cache with_cache ttl]. rewrite lookup_insert_eq.
  cbn [stamp e_timestamp default e_value].
  assert (Hz : Qle_bool (t - t) (ttl c) = Qle_bool 0 (ttl c)).
  { apply eq_true_iff_eq. rewrite !Qle_bool_iff.
    assert (Heq : (t - t == 0)%Q) by ring. rewrite Heq. reflexivity. }
  change (id t) with t. rewrite Hz. reflexivity.
Qed.

(** X7. After [set_project] has loaded a cache file, no entry in memory is
    older than the time to live, and the file agrees with the memory. *)
Theorem loaded_cache_has_no_expired_entry (name : string) (now : time)
  (c : cm) (fs : disk) (d : gmap string entry) :
  normalized name <> "" ->
  fs !! project_file (cache_dir c) name = Some (Document d) ->
  let r := set_project name now c fs in
  (forall k e, cache r.1 !! k = Some e -> expired (ttl c) now e = false)
  /\ (forall k e, cache r.1 !! k = Some e -> d !! k = Some e)
  /\ r.2 !! project_file (cache_dir c) name = Some (Document (cache r.1)).
Proof.
  intros Hname Hfile r. subst r. unfold CacheManager.set_project.
  set (c0 := {| cache_dir := cache_dir c; ttl := ttl c; cache := cache c;
                project_name := Some (Py.replace " " "_" (Py.lower name)) |}).
  assert (Hnp : no_project c0 = false)
    by (eapply no_project_false; [reflexivity|exact Hname]).
  assert (Hcf : cache_file c0 = project_file (cache_dir c) name)
    by reflexivity.
  rewrite <- Hcf in Hfile |- *.
  unfold CacheManager._load_cache. rewrite Hnp, Hfile. unfold _clean_expired.
  cbn [with_cache ttl cache].
  split; [|split].
  - intros k e. destruct (bool_decide _); cbn [fst cache];
      intros Hk; apply map_lookup_filter_Some in Hk as [_ He]; exact He.
  - intros k e. destruct (bool_decide _); cbn [fst cache];
      intros Hk; apply map_lookup_filter_Some in Hk as [Hd _]; exact Hd.
  - destruct (bool_decide _) eqn:Hb; cbn [fst snd cache].
    + rewrite Hfile. f_equal. f_equal. symmetry.
      apply bool_decide_eq_true in Hb.
      apply map_eq. intros k.
      destruct (d !! k) as [e|] eqn:Hk.
      * apply map_lookup_filter_Some. split; [exact Hk|]. cbn.
        destruct (expired (ttl c) now e) eqn:He; [|reflexivity].
        exfalso. assert (Hin : k ∈ (∅ : gset string)).
        { rewrite <- Hb. apply elem_of_dom. exists e.
          apply map_lookup_filter_Some. split; [exact Hk|exact He]. }
        set_solver.
      * apply map_lookup_filter_None. left. exact Hk.
    + unfold CacheManager._save_cache.
      rewrite !no_project_with_cache, Hnp, !cache_file_with_cache.
      rewrite (writable_present creatable fs (cache_file c0))
        by (rewrite Hfile; eauto).
      apply lookup_insert_eq.
Qed.

(** X8. [set_project] for a project that has no cache file keeps what the
    manager held in memory, so the entries of the project it worked on
    before are written into the new project's file by the next
    [save_cache], when that file can be created; when it cannot, because
    its directory is missing, nothing is written. *)
Theorem entries_carry_over_to_new_project (name key : string) (value : V)
  (t now : time) (c : cm) (fs : disk) :
  normalized name <> "" ->
  fs !! project_file (cache_dir c) name = None ->
  let r := set_project name now c fs in
  let s := save_cache key value t r.1 r.2 in
  cache r.1 = cache c
  /\ s.2
     = if creatable (project_file (cache_dir c) name)
       then <[project_file (cache_dir c) name
              := Document (<[key := written value t]> (cache c))]> fs
       else fs.
Proof.
  intros Hname Hfile r s. subst s r. unfold CacheManager.set_project.
  set (c0 := {| cache_dir := cache_dir c; ttl := ttl c; cache := cache c;
                project_name := Some (Py.replace " " "_" (Py.lower name)) |}).
  assert (Hnp : no_project c0 = false)
    by (eapply no_project_false; [reflexivity|exact Hname]).
  assert (Hcf : cache_file c0 = project_file (cache_dir c) name)
    by reflexivity.
  rewrite <- Hcf in Hfile |- *.
  unfold CacheManager._load_cache. rewrite Hnp, Hfile. cbn [fst snd].
  split; [reflexivity|].
  unfold CacheManager.save_cache, CacheManager._save_cache. cbn [snd].
  rewrite no_project_with_cache, Hnp, cache_file_with_cache.
  unfold CacheManager.writable. rewrite Hfile.
  rewrite bool_decide_eq_false_2 by (intros [x Hx]; discriminate Hx).
  reflexivity.
Qed.

(** X9. After [clear_cache] on a manager with a project, a fresh manager
    over the same directory that loads the project holds nothing. *)
Theorem clear_cache_then_reload_is_empty (name : string) (now : time)
  (ttl' : time) (c : cm) (fs : disk) :
  normalized name <> "" ->
  project_name c = Some (normalized name) ->
  cache (set_project name now (init (cache_dir c) ttl') (clear_cache c fs).2).1
  = ∅.
Proof.
  intros Hname Hp. unfold CacheManager.set_project.
  set (c0 := {| cache_dir := cache_dir (init (cache_dir c) ttl');
                ttl := ttl (init (cache_dir c) ttl');
                cache := cache (init (cache_dir c) ttl');
                project_name := Some (Py.replace " " "_" (Py.lower name)) |}).
  assert (Hnp0 : no_project c0 = false)
    by (eapply no_project_false; [reflexivity|exact Hname]).
  assert (Hnp : no_project c = false)
    by (eapply no_project_false; [exact Hp|exact Hname]).
  assert (Hcf : cache_file c0 = cache_file c).
  { apply cache_file_eq; [reflexivity|]. rewrite Hp. reflexivity. }
  unfold CacheManager.clear_cache, CacheManager._save_cache. cbn [snd].
  rewrite no_project_with_cache, Hnp, cache_file_with_cache.
  destruct (CacheManager.writable creatable fs (cache_file c)) eqn:Hw.
  - rewrite (load_document file_at creatable now c0 _ ∅ Hnp0).
    + apply map_filter_empty.
    + rewrite Hcf. apply lookup_insert_eq.
  - unfold CacheManager.writable in Hw. apply orb_false_iff in Hw as [Hw _].
    apply bool_decide_eq_false_1 in Hw.
    unfold CacheManager._load_cache. rewrite Hnp0, Hcf.
    destruct (fs !! cache_file c) as [x|] eqn:Hx; [|reflexivity].
    contradiction Hw. eauto.
Qed.

Lemma save_cache_other_file (key : string) (value : V) (t : time) (c : cm)
  (fs : disk) (path : string) :
  no_project c = true \/ path <> cache_file c ->
  (save_cache key value t c fs).2 !! path = fs !! path.
Proof.
  intros H. unfold CacheManager.save_cache, CacheManager._save_cache.
  cbn [snd].
  rewrite no_project_with_cache, cache_file_with_cache.
  destruct (no_project c); [reflexivity|].
  destruct H as [H|H]; [discriminate|].
  destruct (CacheManager.writable creatable fs (cache_file c));
    [|reflexivity].
  apply lookup_insert_ne. congruence.
Qed.

Lemma save_all_other_file (writes : list (string * V * time)) :
  forall (c : cm) (fs : disk) (path : string),
  no_project c = true \/ path <> cache_file c ->
  (save_all writes c fs).2 !! path = fs !! path.
Proof.
  induction writes as [|[[k v] t] rest IH]; intros c fs path H; [reflexivity|].
  cbn [CacheManager.save_all]. rewrite IH; [apply save_cache_other_file, H|].
  exact H.
Qed.

Lemma load_reads_one_file (now : time) (c : cm) (fs1 fs2 : disk) :
  fs1 !! cache_file c = fs2 !! cache_file c ->
  (_load_cache now c fs1).1 = (_load_cache now c fs2).1.
Proof.
  intros H. unfold CacheManager._load_cache.
  destruct (no_project c); [reflexivity|].
  rewrite H. destruct (fs2 !! cache_file c) as [[d|]|]; try reflexivity.
  unfold _clean_expired. destruct (bool_decide _); reflexivity.
Qed.

(** X10. A manager writes the file of its own project only: what another
    manager loads for a project whose cache file is another file is the
    same before and after any run of [save_cache] calls. *)
Theorem writes_stay_in_their_project (writer : cm) (name : string)
  (now : time) (reader : cm) (writes : list (string * V * time)) (fs : disk) :
  cache_file writer <> project_file (cache_dir reader) name ->
  (set_project name now reader (save_all writes writer fs).2).1
  = (set_project name now reader fs).1.
Proof.
  intros Hfile. unfold CacheManager.set_project. apply load_reads_one_file.
  apply save_all_other_file. right. intros Heq. apply Hfile.
  rewrite <- Heq. reflexivity.
Qed.

End WithValue.

Lemma writes_stay_in_their_project_witness :
  let writer : CacheManager.t nat :=
    {| cache_dir := "m"; ttl := 86400%Q; cache := ∅;
       project_name := Some "first" |} in
  (set_project plain_path any_directory "Second" 1%Q (init "m" 86400%Q)
     (save_all plain_path any_directory [("k", 7, 0%Q)] writer ∅).2).1
  = (set_project plain_path any_directory "Second" 1%Q (init "m" 86400%Q)
       ∅).1.
Proof.
  intros writer.
  exact (writes_stay_in_their_project (V := nat) plain_path any_directory
           writer "Second" 1%Q (init "m" 86400%Q) [("k", 7, 0%Q)] ∅
           ltac:(vm_compute; discriminate)).
Defined.

Lemma no_project_never_writes_witness :
  (save_cache plain_path any_directory "k" 7 0%Q
     (init (V := nat) "config/mapping" 86400%Q) ∅).2 = ∅.
Proof.
  exact (proj1 (no_project_never_writes (V := nat) plain_path any_directory
                  "k" 7 0%Q (init "config/mapping" 86400%Q) ∅ eq_refl)).
Defined.

Lemma loaded_cache_has_no_expired_entry_witness :
  let d : gmap string (CacheManager.entry nat) :=
    {[ "old" := written 1 0%Q; "new" := written 2 90000%Q ]} in
  let r := set_project plain_path any_directory "App" 90001%Q
             (init "m" 86400%Q) ({[ "m/app_cache.json" := Document d ]}) in
  (forall k e, cache r.1 !! k = Some e -> expired 86400%Q 90001%Q e = false)
  /\ (forall k e, cache r.1 !! k = Some e -> d !! k = Some e)
  /\ r.2 !! "m/app_cache.json" = Some (Document (cache r.1)).
Proof.
  intros d.
  exact (loaded_cache_has_no_expired_entry (V := nat) plain_path any_directory
           "App" 90001%Q (init "m" 86400%Q)
           ({[ "m/app_cache.json" := Document d ]}) d
           ltac:(vm_compute; discriminate) eq_refl).
Defined.

Lemma entries_carry_over_to_new_project_witness :
  let c : CacheManager.t nat :=
    {| cache_dir := "m"; ttl := 86400%Q;
       cache := {[ "a:login" := written 1 0%Q ]};
       project_name := Some "first" |} in
  (cache (set_project plain_path any_directory "Second" 1%Q c ∅).1
   = cache c
   /\ (save_cache plain_path any_directory "k" 0 0%Q
         (set_project plain_path any_directory "Second" 1%Q c ∅).1
         (set_project plain_path any_directory "Second" 1%Q c ∅).2).2
      = {[ "m/second_cache.json"
           := Document (<["k" := written 0 0%Q]> (cache c)) ]})
  /\ (save_cache plain_path no_directory "k" 0 0%Q
        (set_project plain_path no_directory "A/B" 1%Q c ∅).1
        (set_project plain_path no_directory "A/B" 1%Q c ∅).2).2
     = ∅.
Proof.
  intros c. split.
  - exact (entries_carry_over_to_new_project (V := nat) plain_path
             any_directory "Second" "k" 0 0%Q 1%Q c ∅
             ltac:(vm_compute; discriminate) eq_refl).
  - exact (proj2 (entries_carry_over_to_new_project (V := nat) plain_path
                    no_directory "A/B" "k" 0 0%Q 1%Q c ∅
                    ltac:(vm_compute; discriminate) eq_refl)).
Defined.

Lemma clear_cache_then_reload_is_empty_witness :
  let c : CacheManager.t nat :=
    {| cache_dir := "m"; ttl := 86400%Q;
       cache := {[ "a:login" := written 1 0%Q ]};
       project_name := Some "app" |} in
  cache (set_project plain_path any_directory "App" 1%Q (init "m" 86400%Q)
           (clear_cache plain_path any_directory c ∅).2).1 = ∅.
Proof.
  intros c.
  exact (clear_cache_then_reload_is_empty (V := nat) plain_path any_directory
           "App" 1%Q 86400%Q c ∅ ltac:(vm_compute; discriminate) eq_refl).
Defined.

End CacheMoreFacts.

(** ** More on the element finder *)

Module FinderMoreFacts.
Import AIElementFinder.

Section Browser.

Context {Page Screenshot : Type}.
Variable url : Page -> string.
Variable locator_count : Page -> string -> option nat.
Variable iframes : Page -> option (list (option Page)).
Variable _pattern_match : Page -> string -> option ElementInfo.
Variable _ai_detect : Screenshot -> string -> option ElementInfo.
Variable file_at : string -> string -> string.
Variable creatable : string -> bool.

Abbreviation find :=
  (find_element url locator_count iframes _pattern_match _ai_detect file_at
     creatable).

(** The key under which a lookup is cached. *)
Definition key_of (page : Page) (description : string) : string :=
  url page +:+ ":" +:+ description.

Lemma _cache_element_none (now : CacheManager.time) (key : string)
  (info : ElementInfo) (f : t) (fs : CacheManager.disk ElementInfo) :
  cache_manager f = None -> _cache_element file_at creatable now key info f fs = (f, fs).
Proof. intros H. unfold _cache_element. rewrite H. reflexivity. Qed.

(** X11. A lookup changes the finder and the disk only when it finds an
    element and a cache manager is attached: a lookup that finds nothing,
    and any lookup of a finder without a cache manager, leaves both as
    they were. *)
Theorem find_element_writes_only_on_success (now : CacheManager.time)
  (page : Page) (description : string) (screenshot : option Screenshot)
  (f : t) (fs : CacheManager.disk ElementInfo) :
  (find now page description screenshot f fs).1 = None
  \/ cache_manager f = None ->
  (find now page description screenshot f fs).2 = (f, fs).
Proof.
  unfold find_element.
  destruct (cached_hit locator_count page _ f); [intros _; reflexivity|].
  destruct (_pattern_match page description) as [info|].
  { cbn [fst snd]. intros [H|H]; [discriminate|].
    apply _cache_element_none, H. }
  destruct (match iframes page with
            | Some frames => first_in_frames _pattern_match frames description
            | None => None
            end) as [info|].
  { cbn [fst snd]. intros [H|H]; [discriminate|].
    apply _cache_element_none, H. }
  destruct (model f), screenshot as [shot|]; try (intros _; reflexivity).
  destruct (_ai_detect shot description) as [info|]; [|intros _; reflexivity].
  cbn [fst snd]. intros [H|H]; [discriminate|].
  apply _cache_element_none, H.
Qed.

(** After a lookup that found an element, with a cache manager attached,
    the element is in the finder's own cache under the key of the lookup. *)
Lemma found_is_cached (now : CacheManager.time) (page : Page)
  (description : string) (screenshot : option Screenshot) (f : t)
  (fs : CacheManager.disk ElementInfo) (info : ElementInfo) :
  is_Some (cache_manager f) ->
  (find now page description screenshot f fs).1 = Some info ->
  let f' := (find now page description screenshot f fs).2.1 in
  is_Some (cache_manager f')
  /\ element_cache f' !! key_of page description = Some info.
Proof.
  intros [c Hc]. unfold find_element. fold (key_of page description).
  destruct (cached_hit locator_count page (key_of page description) f)
    as [cached|] eqn:Hhit.
  { cbn [fst snd]. intros [= <-]. split; [eauto|].
    unfold cached_hit in Hhit. rewrite Hc in Hhit.
    destruct (element_cache f !! key_of page description) as [x|];
      [|discriminate].
    destruct (selector x); [|discriminate].
    destruct (locator_count page _) as [n|]; [|discriminate].
    destruct (0 <? n); [|discriminate]. congruence. }
  assert (Hput : forall i,
            is_Some (cache_manager
                       (_cache_element file_at creatable now (key_of page description) i f fs).1)
            /\ element_cache
                 (_cache_element file_at creatable now (key_of page description) i f fs).1
               !! key_of page description = Some i).
  { intros i. unfold _cache_element. rewrite Hc. cbn.
    split; [eauto|apply lookup_insert_eq]. }
  destruct (_pattern_match page description) as [i|].
  { cbn [fst snd]. intros [= <-]. apply Hput. }
  destruct (match iframes page with
            | Some frames => first_in_frames _pattern_match frames description
            | None => None
            end) as [i|].
  { cbn [fst snd]. intros [= <-]. apply Hput. }
  destruct (model f), screenshot as [shot|]; try discriminate.
  destruct (_ai_detect shot description) as [i|]; [|discriminate].
  cbn [fst snd]. intros [= <-]. apply Hput.
Qed.

(** X12. With a cache manager attached, an element that was found is served
    from the finder's own cache from then on: as long as its selector
    still finds something on the page, a later lookup of the same
    description on the same page returns the same element without
    matching again, and changes neither the finder nor the disk. *)
Theorem second_lookup_is_served_from_memory (now later : CacheManager.time)
  (page : Page) (description sel : string)
  (shot shot' : option Screenshot) (f : t)
  (fs : CacheManager.disk ElementInfo) (info : ElementInfo) (n : nat) :
  is_Some (cache_manager f) ->
  (find now page description shot f fs).1 = Some info ->
  selector info = Some sel ->
  locator_count page sel = Some (S n) ->
  let r := find now page description shot f fs in
  find later page description shot' r.2.1 r.2.2 = (Some info, r.2).
Proof.
  intros Hm Hfound Hsel Hcount r.
  destruct (found_is_cached now page description shot f fs info Hm Hfound)
    as [[c Hc] Hcached].
  fold r in Hc, Hcached.
  unfold find_element at 1. fold (key_of page description).
  unfold cached_hit. rewrite Hc, Hcached, Hsel, Hcount. cbn.
  destruct r as [x [f' fs']]. reflexivity.
Qed.

(** X13. A lookup that is not answered from the finder's own cache and
    finds an element hands it to the cache manager: the manager then holds
    the element under the key of the lookup, stamped with the time of the
    lookup. *)
Theorem found_element_is_saved (now : CacheManager.time) (page : Page)
  (description : string) (screenshot : option Screenshot) (f : t)
  (fs : CacheManager.disk ElementInfo) (info : ElementInfo)
  (c : CacheManager.t ElementInfo) :
  cache_manager f = Some c ->
  cached_hit locator_count page (key_of page description) f = None ->
  (find now page description screenshot f fs).1 = Some info ->
  exists c',
    cache_manager (find now page description screenshot f fs).2.1 = Some c'
    /\ CacheManager.cache c' !! key_of page description
       = Some (CacheFacts.written info now)
    /\ CacheManager.get (key_of page description) now c'
       = (if Qle_bool 0 (CacheManager.ttl c) then Some info else None).
Proof.
  intros Hc Hhit. unfold find_element. fold (key_of page description).
  rewrite Hhit.
  assert (Hput : forall i,
            exists c',
              cache_manager
                (_cache_element file_at creatable now (key_of page description) i f fs).1
              = Some c'
              /\ CacheManager.cache c' !! key_of page description
                 = Some (CacheFacts.written i now)
              /\ CacheManager.get (key_of page description) now c'
                 = (if Qle_bool 0 (CacheManager.ttl c) then Some i else None)).
  { intros i. unfold _cache_element. rewrite Hc. cbn [fst cache_manager].
    eexists. split; [reflexivity|]. split.
    - cbn. apply lookup_insert_eq.
    - rewrite (CacheMoreFacts.get_save_cache file_at creatable), String.eqb_refl.
      assert (Hz : Qle_bool (now - now) (CacheManager.ttl c)
                   = Qle_bool 0 (CacheManager.ttl c)).
      { apply eq_true_iff_eq. rewrite !Qle_bool_iff.
        assert (Heq : (now - now == 0)%Q) by ring. rewrite Heq. reflexivity. }
      rewrite Hz. reflexivity. }
  destruct (_pattern_match page description) as [i|].
  { cbn [fst snd]. intros [= <-]. apply Hput. }
  destruct (match iframes page with
            | Some frames => first_in_frames _pattern_match frames description
            | None => None
            end) as [i|].
  { cbn [fst snd]. intros [= <-]. apply Hput. }
  destruct (model f), screenshot as [shot|]; try discriminate.
  destruct (_ai_detect shot description) as [i|]; [|discriminate].
  cbn [fst snd]. intros [= <-]. apply Hput.
Qed.

End Browser.

Definition one_finder : t :=
  {| model := false;
     cache_manager := Some (CacheManager.init "config/mapping" 86400%Q);
     element_cache := ∅ |}.

Abbreviation find_login :=
  (find_element (fun _ : unit => "http://app") (fun _ _ => Some 1)
     (fun _ => Some []) FinderFacts.finds_login
     (fun (_ : unit) _ => @None ElementInfo)
     CacheFacts.plain_path CacheFacts.any_directory).

Lemma find_element_writes_only_on_success_witness :
  (find_login 1%Q tt "Logout" None one_finder ∅).2 = (one_finder, ∅).
Proof.
  apply (find_element_writes_only_on_success (fun _ : unit => "http://app")
           (fun _ _ => Some 1) (fun _ => Some []) FinderFacts.finds_login
           (fun (_ : unit) _ => @None ElementInfo)
     CacheFacts.plain_path CacheFacts.any_directory).
  left. reflexivity.
Defined.

Lemma second_lookup_is_served_from_memory_witness :
  let r := find_login 1%Q tt "Login" None one_finder ∅ in
  find_login 2%Q tt "Login" None r.2.1 r.2.2
  = (Some FinderFacts.login_info, r.2).
Proof.
  apply (second_lookup_is_served_from_memory (fun _ : unit => "http://app")
           (fun _ _ => Some 1) (fun _ => Some []) FinderFacts.finds_login
           (fun (_ : unit) _ => @None ElementInfo)
     CacheFacts.plain_path CacheFacts.any_directory 1%Q 2%Q tt "Login"
           "button" None None one_finder ∅ FinderFacts.login_info 0).
  - eexists. reflexivity.
  - reflexivity.
  - reflexivity.
  - reflexivity.
Defined.

Lemma found_element_is_saved_witness :
  exists c',
    cache_manager (find_login 1%Q tt "Login" None one_finder ∅).2.1 = Some c'
    /\ CacheManager.cache c' !! "http://app:Login"
       = Some (CacheFacts.written FinderFacts.login_info 1%Q)
    /\ CacheManager.get "http://app:Login" 1%Q c'
       = (if Qle_bool 0 86400%Q then Some FinderFacts.login_info else None).
Proof.
  apply (found_element_is_saved (fun _ : unit => "http://app")
           (fun _ _ => Some 1) (fun _ => Some []) FinderFacts.finds_login
           (fun (_ : unit) _ => @None ElementInfo)
     CacheFacts.plain_path CacheFacts.any_directory 1%Q tt "Login" None
           one_finder ∅ FinderFacts.login_info
           (CacheManager.init "config/mapping" 86400%Q)).
  - reflexivity.
  - reflexivity.
  - reflexivity.
Defined.

End FinderMoreFacts.

(** ** More on the classification of steps *)

Module ClassifierMoreFacts.
Import FeatureParser ClassifierFacts.

(** The text has the marker, in any mix of upper and lower case. *)
Definition has_marker (step_text : string) : bool :=
  Py.contains "[force ai]" (Py.lower (Py.strip step_text)).

(** The text the patterns see when the marker is there: the three
    spellings of the marker that are taken out, then the white space. *)
Definition without_marker (step_text : string) : string :=
  Py.strip (Py.replace "[Force AI]" ""
             (Py.replace "[FORCE AI]" ""
               (Py.replace "[force ai]" "" (Py.strip step_text)))).

(** The loop over the buckets ends at a pattern of the table or in the
    fallback. *)
Lemma try_buckets_result (order : list string) (force_ai : bool)
  (text : string) (r : string * Params) :
  try_buckets order force_ai text = Some r ->
  r = _fallback_parse text
  \/ exists b info gs,
       Dict.get b action_patterns = Some info
       /\ r = on_match b info gs force_ai text.
Proof.
  induction order as [|k order IH].
  - cbn [try_buckets]. intros [= <-]. left. reflexivity.
  - rewrite try_buckets_cons.
    destruct (Dict.get k action_patterns) as [info|] eqn:Hk; [|discriminate].
    destruct (first_match (patterns info) text) as [gs|]; [|exact IH].
    intros [= <-]. right. eauto.
Qed.

Lemma get_map_groups (k : string) (names : list string) :
  forall (gs : Re.groups) (d : Params),
  mem_str k names = false ->
  Dict.get k (map_groups names gs d) = Dict.get k d.
Proof.
  induction names as [|n names IH]; intros gs d Hk; [reflexivity|].
  cbn [mem_str existsb] in Hk. apply orb_false_iff in Hk as [Hn Hk].
  destruct gs as [|g gs]; [reflexivity|]. cbn [map_groups].
  rewrite IH by exact Hk.
  destruct g as [t|]; [|reflexivity].
  destruct (String.eqb t ""); [reflexivity|].
  apply DictFacts.get_set_ne. intros ->. rewrite String.eqb_refl in Hn.
  discriminate.
Qed.

(** No bucket of the table has a parameter of the name [force_ai]. *)
Lemma no_force_ai_parameter :
  forallb (fun kv => negb (mem_str "force_ai" (params kv.2))) action_patterns
  = true.
Proof. vm_compute. reflexivity. Qed.

Lemma get_in {V} (k : string) (d : Dict.t V) (v : V) :
  Dict.get k d = Some v -> In (k, v) d.
Proof.
  induction d as [|[k' v'] r IH]; [discriminate|]. cbn [Dict.get].
  destruct (String.eqb_spec k k') as [->|_].
  - intros [= ->]. left. reflexivity.
  - intros H. right. apply IH, H.
Qed.

Lemma on_match_force_ai (b : string) (info : pattern_info) (gs : Re.groups)
  (force_ai : bool) (text : string) :
  Dict.get b action_patterns = Some info ->
  Dict.get "force_ai" (on_match b info gs force_ai text).2
  = if force_ai then Some (PBool true) else None.
Proof.
  intros Hb. apply get_in in Hb.
  pose proof no_force_ai_parameter as Hall.
  rewrite forallb_forall in Hall. specialize (Hall _ Hb).
  cbn [snd] in Hall. apply negb_true_iff in Hall.
  unfold on_match. cbn [snd].
  assert (H3 : Dict.get "force_ai"
                 (map_groups (params info) gs
                    (if force_ai
                     then Dict.set "force_ai" (PBool true)
                            (map_groups (params info) gs [])
                     else map_groups (params info) gs []))
               = if force_ai then Some (PBool true) else None).
  { rewrite get_map_groups by exact Hall.
    destruct force_ai; [apply DictFacts.get_set_eq|].
    rewrite get_map_groups by exact Hall. reflexivity. }
  destruct (String.eqb b "checkbox" && negb (Dict.mem "state" _));
    [|exact H3].
  destruct (any_in _ _); rewrite DictFacts.get_set_ne by discriminate;
    exact H3.
Qed.

Lemma fallback_has_no_force_ai (text : string) :
  Dict.get "force_ai" (_fallback_parse text).2 = None.
Proof.
  unfold _fallback_parse.
  repeat match goal with
         | |- context [if ?c then _ else _] => destruct c
         | |- context [match ?l with [] => _ | _ :: _ => _ end] => destruct l
         end; reflexivity.
Qed.

(** X14. The parameter [force_ai] is set, to [True], only for a text that
    holds the marker [[force ai]].  A text with the marker gets it
    whenever one of the patterns matches what is left of the text; when
    none matches, the fallback classifies the text and the flag is
    lost. *)
Theorem force_ai_only_with_marker (step_text : string) :
  exists r,
    _parse_step_text step_text = Some r
    /\ match Dict.get "force_ai" r.2 with
       | Some v => v = PBool true /\ has_marker step_text = true
       | None =>
           has_marker step_text = false
           \/ r = _fallback_parse (without_marker step_text)
       end.
Proof.
  destruct (_parse_step_text_total step_text) as [r Hr].
  exists r. split; [exact Hr|].
  revert Hr. unfold _parse_step_text. fold (has_marker step_text).
  fold (without_marker step_text).
  intros Hr. apply try_buckets_result in Hr.
  destruct Hr as [->|(b & info & gs & Hb & ->)].
  - rewrite fallback_has_no_force_ai.
    destruct (has_marker step_text); [right; reflexivity|left; reflexivity].
  - rewrite (on_match_force_ai b info gs _ _ Hb).
    destruct (has_marker step_text); [split; reflexivity|left; reflexivity].
Qed.

End ClassifierMoreFacts.

(** ** More on the feature parser *)

Module ParserMoreFacts.
Import FeatureParser ParserFacts.

(** *** The tag filter of [parse_features] *)

Lemma mem_str_elem (x : string) (l : list string) :
  mem_str x l = true <-> x ∈ l.
Proof.
  unfold mem_str. rewrite existsb_exists. split.
  - intros (y & Hy & Hxy). apply String.eqb_eq in Hxy. subst y.
    apply list_elem_of_In, Hy.
  - intros H. exists x. split; [apply list_elem_of_In, H|apply String.eqb_refl].
Qed.

Lemma scenario_matches_elem (ts : list string) (sc : Scenario) :
  scenario_matches ts sc = true
  <-> exists tag, tag ∈ ts /\ tag ∈ sc_tags sc.
Proof.
  unfold scenario_matches. rewrite existsb_exists. split.
  - intros (tag & Hin & Hm). exists tag.
    split; [apply list_elem_of_In, Hin|apply mem_str_elem, Hm].
  - intros (tag & Hin & Hm). exists tag.
    split; [apply list_elem_of_In, Hin|apply mem_str_elem, Hm].
Qed.

(** What the filter makes of one parsed feature. *)
Definition keep_tagged (ts : list string) (f : Feature) : option Feature :=
  match List.filter (scenario_matches ts) f.(f_scenarios) with
  | [] => None
  | l => Some (set_scenarios l f)
  end.

(** X15. With a non-empty list of tags, every feature [parse_features]
    returns has at least one scenario, and each of its scenarios carries
    one of the tags asked for. *)
Theorem filtered_scenarios_carry_a_tag
  (files : list (string * option (list string))) (t : string)
  (ts : list string) :
  Forall (fun f =>
            f_scenarios f <> []
            /\ Forall (fun sc => exists tag, tag ∈ t :: ts /\ tag ∈ sc_tags sc)
                      (f_scenarios f))
         (parse_features files (Some (t :: ts))).
Proof.
  induction files as [|[path content] rest IH]; [constructor|].
  cbn [parse_features].
  destruct (match content with
            | Some lines => _parse_feature_file path lines
            | None => None
            end) as [f|]; [|exact IH].
  destruct (List.filter (scenario_matches (t :: ts)) (f_scenarios f))
    as [|sc l] eqn:Hl; [exact IH|].
  constructor; [|exact IH]. cbn [set_scenarios f_scenarios].
  split; [discriminate|]. rewrite <- Hl.
  apply List.Forall_forall. intros x Hx. apply filter_In in Hx as [_ Hx].
  apply scenario_matches_elem, Hx.
Qed.

(** X16. The tag filter is a filter on what an unfiltered run returns: the
    features come in the same order and keep their other fields, each with
    the scenarios that match, and a feature with no matching scenario is
    left out.  An empty list of tags filters nothing. *)
Theorem tag_filter_after_parsing
  (files : list (string * option (list string)))
  (tags : option (list string)) :
  parse_features files tags
  = match tags with
    | Some ((_ :: _) as ts) => omap (keep_tagged ts) (parse_features files None)
    | _ => parse_features files None
    end.
Proof.
  destruct tags as [[|t ts]|]; [| |reflexivity].
  - induction files as [|[path content] rest IH]; [reflexivity|].
    cbn [parse_features].
    destruct (match content with
              | Some lines => _parse_feature_file path lines
              | None => None
              end); [f_equal|]; exact IH.
  - induction files as [|[path content] rest IH]; [reflexivity|].
    cbn [parse_features].
    destruct (match content with
              | Some lines => _parse_feature_file path lines
              | None => None
              end) as [f|]; [|exact IH].
    cbn [omap list_omap]. unfold keep_tagged at 1.
    destruct (List.filter (scenario_matches (t :: ts)) (f_scenarios f));
      [exact IH|]. f_equal. exact IH.
Qed.

(** *** Files without and with a [Feature:] line *)





(** Once there is a feature object, every line is taken: the loop keeps a
    feature, with the path of the file. *)
Definition has_feature (path : string) (st : PState) : Prop :=
  exists f, st.(feature) = Some f /\ f_file_path f = path.

Lemma parse_line_has_feature (path : string) (st : PState) (n : nat)
  (raw : string) :
  has_feature path st ->
  exists st', parse_line path st n raw = Some st' /\ has_feature path st'.
Proof.
  intros (f & Hf & Hpath). unfold parse_line.
  destruct (String.eqb (Py.strip raw) "" || Py.startswith "#" (Py.strip raw)).
  { eexists. split; [reflexivity|]. exists f. eauto. }
  destruct (Py.startswith "@" (Py.strip raw)).
  { eexists. split; [reflexivity|]. exists f. eauto. }
  destruct (Py.startswith "Feature:" (Py.strip raw)).
  { eexists. split; [reflexivity|]. eexists. split; reflexivity. }
  destruct (Py.startswith "Background:" (Py.strip raw)).
  { eexists. split; [reflexivity|]. exists f. eauto. }
  destruct (Py.startswith "Scenario:" (Py.strip raw)
            || Py.startswith "Scenario Outline:" (Py.strip raw)).
  { rewrite Hf. destruct (current_is_plain st).
    - eexists. split; [reflexivity|]. eexists. split; [reflexivity|exact Hpath].
    - eexists. split; [reflexivity|]. exists f. eauto. }
  destruct (Py.startswith "Examples:" (Py.strip raw)).
  { eexists. split; [reflexivity|]. exists f. eauto. }
  destruct (in_examples st && Py.startswith "|" (Py.strip raw)).
  { eexists. split; [reflexivity|]. exists f. eauto. }
  destruct (is_step_line (Py.strip raw)) eqn:Hstep.
  { destruct (step_type_total _ Hstep) as [ty ->].
    destruct (ClassifierFacts._parse_step_text_total
                (if 1 <? List.length (Py.split1 (ascii_of_nat 32) (Py.strip raw))
                 then nth 1 (Py.split1 (ascii_of_nat 32) (Py.strip raw)) ""
                 else "")) as [[act prm] ->].
    eexists. split; [reflexivity|]. exists f. eauto. }
  destruct (Py.startswith "|" (Py.strip raw) && negb (in_examples st)).
  { destruct (current_step st); eexists; (split; [reflexivity|]);
      exists f; eauto. }
  eexists. split; [reflexivity|]. exists f. eauto.
Qed.

Lemma parse_lines_has_feature (path : string) (lines : list string) :
  forall (st : PState) (n : nat),
  has_feature path st ->
  exists st', parse_lines path st n lines = Some st' /\ has_feature path st'.
Proof.
  induction lines as [|raw rest IH]; intros st n H.
  - exists st. split; [reflexivity|exact H].
  - destruct (parse_line_has_feature path st n raw H) as (st1 & H1 & F1).
    destruct (IH st1 (S n) F1) as (st2 & H2 & F2).
    exists st2. split; [cbn [parse_lines]; rewrite H1; exact H2|exact F2].
Qed.

Lemma finish_has_feature (path : string) (st : PState) :
  has_feature path st ->
  exists st', finish st = Some st' /\ has_feature path st'.
Proof.
  intros (f & Hf & Hpath). unfold finish. rewrite Hf.
  destruct (current_is_plain st); cbn [background feature].
  - destruct (background st); eexists; (split; [reflexivity|]);
      eexists; (split; [reflexivity|exact Hpath]).
  - destruct (background st).
    + rewrite Hf. eexists. split; [reflexivity|].
      eexists. split; [reflexivity|exact Hpath].
    + exists st. split; [reflexivity|]. exists f. eauto.
Qed.

(** The lines that may stand before the [Feature:] line: blank lines,
    comments and tag lines. *)
Definition is_preamble_line (raw : string) : Prop :=
  skipped (Py.strip raw) = true \/ Py.startswith "@" (Py.strip raw) = true.

Lemma parse_lines_preamble (path : string) (pre : list string) :
  Forall is_preamble_line pre ->
  forall (st : PState) (n : nat),
  exists st', parse_lines path st n pre = Some st'.
Proof.
  induction 1 as [|raw rest Hraw _ IH]; intros st n; [eauto|].
  cbn [parse_lines]. unfold parse_line.
  destruct (String.eqb (Py.strip raw) "" || Py.startswith "#" (Py.strip raw))
    eqn:Hs; [apply IH|].
  destruct Hraw as [Hraw| ->]; [|apply IH].
  unfold skipped in Hraw. congruence.
Qed.

(** X18. A file whose [Feature:] line is preceded by nothing but blank
    lines, comments and tag lines always yields a feature, whatever
    follows that line; the feature names the file it came from. *)
Theorem feature_line_first_always_parses (path : string)
  (pre : list string) (fl : string) (rest : list string) :
  Forall is_preamble_line pre ->
  is_feature_line fl ->
  exists f, _parse_feature_file path (pre ++ fl :: rest) = Some f
            /\ f_file_path f = path.
Proof.
  intros Hpre Hfl. unfold _parse_feature_file.
  rewrite parse_lines_app.
  destruct (parse_lines_preamble path pre Hpre init_state 1) as (st0 & ->).
  cbn [parse_lines]. rewrite (parse_line_feature _ _ _ _ Hfl).
  destruct (parse_lines_has_feature path rest
              (with_feature st0
                 (Some {| f_name := Py.strip (Py.drop_str 8 (Py.strip fl));
                          f_description := ""; f_scenarios := [];
                          f_tags := tags st0; f_background := None;
                          f_file_path := path |}))
              (S (1 + List.length pre)))
    as (st1 & -> & F1).
  { eexists. split; reflexivity. }
  destruct (finish_has_feature path st1 F1) as (st2 & -> & f & Hf & Hpath).
  rewrite Hf. eexists. split; [reflexivity|exact Hpath].
Qed.

(** *** The tags a scenario gets *)

(** X19. The tags of a scenario are its own tags, in their order, followed
    by the tags of the feature that it does not have itself, each once. *)
Theorem inherit_tags_appends_missing (ftags scenario_tags : list string) :
  exists extra,
    inherit_tags ftags scenario_tags = scenario_tags ++ extra
    /\ NoDup extra
    /\ forall t, t ∈ extra <-> t ∈ ftags /\ t ∉ scenario_tags.
Proof.
  revert scenario_tags.
  induction ftags as [|ftag r IH]; intros stags; cbn [inherit_tags].
  - exists []. rewrite app_nil_r. split; [reflexivity|].
    split; [constructor|]. intros t. split.
    + intros H. inversion H.
    + intros [H _]. inversion H.
  - destruct (mem_str ftag stags) eqn:Hm.
    + destruct (IH stags) as (extra & Heq & Hnd & Hin).
      exists extra. split; [exact Heq|]. split; [exact Hnd|].
      intros t. rewrite Hin. apply mem_str_elem in Hm.
      rewrite elem_of_cons. split; [tauto|].
      intros [[->|H] Hn]; [contradiction|tauto].
    + assert (Hn : ftag ∉ stags).
      { intros H. apply mem_str_elem in H. congruence. }
      destruct (IH (stags ++ [ftag])) as (extra & Heq & Hnd & Hin).
      exists (ftag :: extra). split.
      { rewrite Heq, <- app_assoc. reflexivity. }
      split.
      { constructor; [|exact Hnd]. rewrite Hin, elem_of_app, list_elem_of_singleton.
        tauto. }
      intros t. rewrite !elem_of_cons, Hin, elem_of_app, list_elem_of_singleton.
      split.
      * intros [->|[H1 H2]]; [tauto|]. split; [tauto|]. tauto.
      * intros [[->|H1] H2]; [tauto|].
        destruct (decide (t = ftag)) as [->|Hne]; [tauto|]. right. tauto.
Qed.

(** *** Example tables *)

Lemma get_set_fresh_keys {V} (k : string) (v : V) (d : Dict.t V) :
  k ∉ map fst d -> Dict.set k v d = d ++ [(k, v)].
Proof.
  induction d as [|[k' v'] d IH]; intros Hk; [reflexivity|].
  cbn [Dict.set]. cbn [map fst] in Hk. apply not_elem_of_cons in Hk as [Hne Hk].
  destruct (String.eqb k k') eqn:E; [apply String.eqb_eq in E; contradiction|].
  cbn [app]. f_equal. apply IH, Hk.
Qed.

Lemma of_zip_fresh_keys {V} (ks : list string) (vs : list V) :
  forall acc : Dict.t V,
  NoDup ks ->
  (forall k, k ∈ ks -> k ∉ map fst acc) ->
  Dict.of_zip ks vs acc = acc ++ combine ks vs.
Proof.
  revert vs. induction ks as [|k ks IH]; intros vs acc Hnd Hfresh.
  - cbn. rewrite app_nil_r. reflexivity.
  - destruct vs as [|v vs]; cbn [Dict.of_zip combine];
      [rewrite app_nil_r; reflexivity|].
    apply NoDup_cons in Hnd as [Hk Hnd].
    rewrite get_set_fresh_keys by (apply Hfresh; left).
    rewrite IH.
    + rewrite <- app_assoc. reflexivity.
    + exact Hnd.
    + intros k' Hk'. rewrite map_app, elem_of_app. cbn [map fst].
      rewrite list_elem_of_singleton. intros [H|H].
      * apply (Hfresh k'); [right; exact Hk'|exact H].
      * subst k'. contradiction.
Qed.

(** X20. [_process_examples] on a table whose headers are distinct: the
    header row alone gives the empty dictionary; otherwise the rows that
    have as many cells as there are headers are kept, in their order, each
    as the headers paired with its cells, and the other rows are dropped. *)
Theorem process_examples_pairs_headers_with_cells (headers : list string)
  (data_rows : list (list string)) :
  NoDup headers ->
  _process_examples (headers :: data_rows)
  = match data_rows with
    | [] => ExEmpty
    | _ =>
        ExTable headers
          (map (combine headers)
               (List.filter
                  (fun row => List.length row =? List.length headers)
                  data_rows))
    end.
Proof.
  intros Hnd. unfold _process_examples.
  destruct data_rows as [|row rest]; [reflexivity|].
  cbn [List.length Nat.ltb Nat.leb]. f_equal.
  apply map_ext. intros r. rewrite of_zip_fresh_keys; [reflexivity|exact Hnd|].
  intros k _ H. inversion H.
Qed.

Lemma process_examples_pairs_headers_with_cells_witness :
  _process_examples [["user"; "role"]; ["ann"; "admin"]; ["bob"]]
  = ExTable ["user"; "role"] [[("user", "ann"); ("role", "admin")]].
Proof.
  apply (process_examples_pairs_headers_with_cells ["user"; "role"]
           [["ann"; "admin"]; ["bob"]]).
  apply (bool_decide_unpack _). vm_compute. exact I.
Defined.

(** *** Whitespace around a step text *)

Section Strip.

Variable p : ascii -> bool.

Lemma lstrip_by_all (l : list ascii) :
  Forall (fun c => p c = true) l -> forall x, Py.lstrip_by p (l ++ x) = Py.lstrip_by p x.
Proof.
  induction 1 as [|c l Hc _ IH]; intros x; [reflexivity|].
  cbn [app Py.lstrip_by]. rewrite Hc. apply IH.
Qed.

Lemma lstrip_by_nil (l : list ascii) :
  Py.lstrip_by p l = [] -> Forall (fun c => p c = true) l.
Proof.
  induction l as [|c l IH]; [constructor|]. cbn [Py.lstrip_by].
  destruct (p c) eqn:Hc; [|discriminate]. intros H. constructor; auto.
Qed.

Lemma lstrip_by_app (l x : list ascii) :
  Py.lstrip_by p l <> [] -> Py.lstrip_by p (l ++ x) = Py.lstrip_by p l ++ x.
Proof.
  induction l as [|c l IH]; [intros H; contradiction H; reflexivity|].
  cbn [app Py.lstrip_by]. destruct (p c); [exact IH|reflexivity].
Qed.

Lemma rstrip_by_all (l x : list ascii) :
  Forall (fun c => p c = true) x -> Py.rstrip_by p (l ++ x) = Py.rstrip_by p l.
Proof.
  intros Hx. unfold Py.rstrip_by. rewrite rev_app_distr.
  rewrite lstrip_by_all; [reflexivity|]. apply Forall_rev, Hx.
Qed.

Lemma strip_by_padding (pre l post : list ascii) :
  Forall (fun c => p c = true) pre ->
  Forall (fun c => p c = true) post ->
  Py.strip_by p (pre ++ l ++ post) = Py.strip_by p l.
Proof.
  intros Hpre Hpost. unfold Py.strip_by. rewrite (lstrip_by_all pre Hpre).
  destruct (Py.lstrip_by p l) as [|c r] eqn:Hl.
  - apply lstrip_by_nil in Hl.
    assert (Hall : Forall (fun c => p c = true) (l ++ post))
      by (apply Forall_app; split; assumption).
    pose proof (lstrip_by_all (l ++ post) Hall []) as H.
    rewrite app_nil_r in H. rewrite H. reflexivity.
  - rewrite lstrip_by_app by (rewrite Hl; discriminate).
    rewrite Hl. apply rstrip_by_all, Hpost.
Qed.

End Strip.

(** X21. White space around a step text does not count: a text with any
    white space put before and after it is classified as the text
    itself. *)
Theorem step_text_padding_is_ignored (pre post step_text : string) :
  Forall (fun c => Py.is_space c = true) (Py.chars pre) ->
  Forall (fun c => Py.is_space c = true) (Py.chars post) ->
  _parse_step_text (pre +:+ step_text +:+ post) = _parse_step_text step_text.
Proof.
  intros Hpre Hpost.
  assert (Hs : Py.strip (pre +:+ step_text +:+ post) = Py.strip step_text).
  { unfold Py.strip. rewrite !ConfigMoreFacts.chars_app.
    rewrite strip_by_padding by assumption. reflexivity. }
  unfold _parse_step_text. rewrite Hs. reflexivity.
Qed.

Lemma step_text_padding_is_ignored_witness :
  _parse_step_text ("  " +:+ "I click the Login button" +:+ " ")
  = _parse_step_text "I click the Login button".
Proof.
  apply (step_text_padding_is_ignored "  " " " "I click the Login button").
  - repeat constructor.
  - repeat constructor.
Defined.


Lemma feature_line_first_always_parses_witness :
  exists f, _parse_feature_file "login.feature"
              (["# login"; "@smoke"] ++ "Feature: Login"
               :: ["  Scenario: ok"; "    Given I am on the login page"])
            = Some f
            /\ f_file_path f = "login.feature".
Proof.
  apply (feature_line_first_always_parses "login.feature"
           ["# login"; "@smoke"] "Feature: Login"
           ["  Scenario: ok"; "    Given I am on the login page"]).
  - constructor; [left; reflexivity|].
    constructor; [right; reflexivity|constructor].
  - repeat split; reflexivity.
Defined.


End ParserMoreFacts.

(** ** More on API calls *)

Module ApiMoreFacts.
Import Doc APIExecutor ApiFacts.

(** *** Templating *)

(** A pattern that can only match a text beginning with the character
    [a]. *)
Fixpoint begins_with (a : ascii) (r : Re.re) : bool :=
  match r with
  | Re.Chr c => Ascii.eqb c a
  | Re.Seq r1 _ => begins_with a r1
  | Re.Grp _ r1 => begins_with a r1
  | _ => false
  end.

Lemma m_begins_with (a : ascii) (r : Re.re) :
  begins_with a r = true ->
  forall (s : list ascii) (c : Re.caps)
         (k : list ascii -> Re.caps -> option Re.caps),
  hd_error s <> Some a -> Re.m false r s c k = None.
Proof.
  induction r; cbn [begins_with]; try discriminate; intros Hb s caps k Hs.
  - apply Ascii.eqb_eq in Hb. subst c. cbn [Re.m].
    destruct s as [|x s]; [reflexivity|].
    cbn [Re.atom_ok Re.chr_eq]. destruct (Ascii.eqb a x) eqn:E; [|reflexivity].
    apply Ascii.eqb_eq in E. subst x. contradiction Hs. reflexivity.
  - cbn [Re.m]. apply IHr1; assumption.
  - cbn [Re.m]. apply IHr; assumption.
Qed.

Lemma match_at_begins_with (a : ascii) (rx : Re.regex) (s : list ascii) :
  begins_with a (Re.tree rx) = true ->
  hd_error s <> Some a -> Re.match_at false rx s = None.
Proof.
  intros Hb Hs. unfold Re.match_at.
  rewrite (m_begins_with a (Re.Grp (Re.ngroups rx) (Re.tree rx)) Hb);
    [reflexivity|exact Hs].
Qed.

Lemma sub_l_begins_with {E} (a : ascii) (rx : Re.regex)
  (repl : Re.groups -> E + string) (s : list ascii) :
  begins_with a (Re.tree rx) = true ->
  Forall (fun x => x <> a) s ->
  forall fuel, Re.sub_l fuel false rx repl s = inr s.
Proof.
  intros Hb. induction 1 as [|x s Hx _ IH]; intros [|fuel]; try reflexivity.
  - cbn [Re.sub_l]. rewrite (match_at_begins_with a rx [] Hb); [reflexivity|].
    discriminate.
  - cbn [Re.sub_l]. rewrite (match_at_begins_with a rx (x :: s) Hb).
    + rewrite IH. reflexivity.
    + cbn. intros [= ->]. contradiction Hx. reflexivity.
Qed.

(** X22. A text without the character [$] has no placeholder: whatever the
    context holds, [_resolve_variables] returns it as it is and raises
    nothing. *)
Theorem text_without_dollar_is_unchanged (ex : t) (text : string) :
  Forall (fun x => x <> "$"%char) (Py.chars text) ->
  _resolve_variables ex (VStr text) = inr (VStr text).
Proof.
  intros H. cbn [_resolve_variables]. unfold resolve_str, Re.re_sub.
  destruct (Re.compile "\$\{([^:}]+)(?::([^}]+))?\}") as [rx|] eqn:Hrx;
    [|reflexivity].
  assert (Hb : begins_with "$"%char (Re.tree rx) = true).
  { revert Hrx. vm_compute. intros [= <-]. reflexivity. }
  rewrite (sub_l_begins_with "$"%char rx (replacer ex) (Py.chars text) Hb H).
  cbn [bind]. rewrite ConfigMoreFacts.str_chars. reflexivity.
Qed.

Lemma text_without_dollar_is_unchanged_witness :
  _resolve_variables fresh (VStr "/users/42") = inr (VStr "/users/42").
Proof.
  apply (text_without_dollar_is_unchanged fresh "/users/42").
  repeat (constructor; [discriminate|]). constructor.
Defined.

(** *** Looking up a definition *)

Lemma find_api_unknown (api_name : string) (categories : list (string * value)) :
  Forall (fun ca => exists d, ca.2 = VMap d /\ Dict.mem api_name d = false)
         categories ->
  find_api api_name categories
  = inl (ValueError ("API '" +:+ api_name +:+ "' not found in configuration")).
Proof.
  induction 1 as [|[category apis] rest (d & Hd & Hm) _ IH]; [reflexivity|].
  cbn [find_api]. cbn [snd] in Hd. subst apis. cbn [py_in bind].
  rewrite Hm. exact IH.
Qed.

Section Network.

Variable send : request -> net_outcome.
Variable json_loads : string -> option value.
Variable falsy : value -> bool.
Variable _extract_response_values : t -> value -> value -> t.
Variable _validate_response : response -> value -> option exn.
Variable str_exn : exn -> string.
Variable str_seconds : Q -> string.
Variable unsent_elapsed : request -> Q.

Abbreviation call :=
  (execute_api send json_loads falsy _extract_response_values
     _validate_response str_exn str_seconds unsent_elapsed).

(** X23. A call of an API that no category of the configuration names ends
    with the [ValueError] that says so, before anything else happens: the
    keyword arguments are not stored, nothing is sent and nothing is
    logged. *)
Theorem unknown_api_changes_nothing (ex : t) (api_name : string)
  (test_name : option string) (kwargs : Dict.t string)
  (categories : list (string * value)) :
  Dict.get "apis" (api_config ex) = Some (VMap categories) ->
  Forall (fun ca => exists d, ca.2 = VMap d /\ Dict.mem api_name d = false)
         categories ->
  call ex api_name test_name kwargs
  = (ex, inl (ValueError
                ("API '" +:+ api_name +:+ "' not found in configuration"))).
Proof.
  intros Hapis Hnone. unfold execute_api, _get_api_config.
  cbn [py_getitem]. rewrite Hapis. cbn [bind].
  rewrite (find_api_unknown api_name categories Hnone). reflexivity.
Qed.

(** The request a record of the reporter is about. *)
Definition log_request (l : logged) : request :=
  match l with
  | LogResponse rq _ _ => rq
  | LogError rq _ _ _ => rq
  end.

(** Extracting values from a response stores them in the context and may
    set the token; it neither sends nor logs. *)
Hypothesis extract_keeps_logs :
  forall ex body cfg,
    sent (_extract_response_values ex body cfg) = sent ex
    /\ reporter (_extract_response_values ex body cfg) = reporter ex.

(** What one call adds to the requests sent and to the reporter. *)
Lemma call_effects (ex : t) (api_name : string) (test_name : option string)
  (kwargs : Dict.t string) :
  let r := call ex api_name test_name kwargs in
  (sent r.1 = sent ex
   /\ (reporter r.1 = reporter ex
       \/ (session (store_all kwargs ex) = false
           /\ exists rq msg name,
                reporter r.1
                = reporter ex ++ [LogError rq msg (unsent_elapsed rq) name]))
   /\ exists e, r.2 = inl e)
  \/ exists rq,
       sent r.1 = sent ex ++ [rq]
       /\ ((exists resp name,
              reporter r.1 = reporter ex ++ [LogResponse rq resp name]
              /\ r.2 = inr resp)
           \/ (exists l, reporter r.1 = reporter ex ++ [l]
                         /\ log_request l = rq /\ exists e, r.2 = inl e)
           \/ (exists resp name msg elapsed name',
                 reporter r.1
                 = reporter ex ++ [LogResponse rq resp name;
                                   LogError rq msg elapsed name']
                 /\ exists e, r.2 = inl e)).
Proof.
  cbv zeta. unfold execute_api.
  destruct (_get_api_config ex api_name) as [e|api];
    [left; cbn; eauto|].
  destruct (py_get "name" api) as [e|nm]; [left; cbn; eauto|].
  destruct (store_all_fields kwargs ex) as (_ & Hs & Hr).
  destruct (prepare (store_all kwargs ex) api) as [e|rq];
    [left; cbn [fst snd]; rewrite Hs, Hr; eauto|].
  destruct (negb (session (store_all kwargs ex))) eqn:Hsess.
  { left. cbn. rewrite Hs, Hr. split; [reflexivity|]. split; [|eauto].
    right. apply negb_true_iff in Hsess. eauto. }
  right. exists rq.
  destruct (send rq) as [status headers text elapsed url| |msg elapsed].
  - set (body := match json_loads text with
                 | Some j => if falsy j then VStr text else j
                 | None => VStr text
                 end).
    set (result := {| rs_status := status; rs_headers := headers;
                      rs_body := body; rs_response_time := elapsed;
                      rs_url := url |}).
    set (ex3 := with_log (with_sent (store_all kwargs ex) rq)
                  (LogResponse rq result (logged_name test_name api_name))).
    assert (H3 : sent ex3 = sent ex ++ [rq]
                 /\ reporter ex3
                    = reporter ex
                      ++ [LogResponse rq result (logged_name test_name api_name)]).
    { cbn. rewrite Hs, Hr. split; reflexivity. }
    destruct H3 as [Hs3 Hr3]. clearbody ex3.
    destruct (bind (py_in "response" api) _) as [e|ex4] eqn:Hx.
    { cbn. rewrite Hs3, Hr3, <- app_assoc. split; [reflexivity|].
      right. right. cbn. eauto 10. }
    assert (H4 : sent ex4 = sent ex3 /\ reporter ex4 = reporter ex3).
    { revert Hx. unfold bind.
      destruct (py_in "response" api) as [e|[|]]; try discriminate;
        [|intros [= <-]; split; reflexivity].
      destruct (py_getitem "response" api) as [e|rsp]; [discriminate|].
      destruct (py_in "extract" rsp) as [e|[|]]; try discriminate;
        [|intros [= <-]; split; reflexivity].
      destruct (py_getitem "extract" rsp) as [e|cfg]; [discriminate|].
      intros [= <-]. apply extract_keeps_logs. }
    destruct H4 as [Hs4 Hr4].
    destruct (bind (py_in "validation" api) _) as [e|u].
    + cbn. rewrite Hs4, Hs3, Hr4, Hr3, <- app_assoc. split; [reflexivity|].
      right. right. cbn. eauto 10.
    + cbn [fst snd]. rewrite Hs4, Hs3, Hr4, Hr3. split; [reflexivity|].
      left. eauto.
  - cbn. rewrite Hs, Hr. split; [reflexivity|]. right. left.
    eexists. split; [reflexivity|]. split; [reflexivity|eauto].
  - cbn. rewrite Hs, Hr. split; [reflexivity|]. right. left.
    eexists. split; [reflexivity|]. split; [reflexivity|eauto].
Qed.

(** X24. Every request that [execute_api] sends is logged: a call sends at
    most one request; when it sends one, it adds one or two records to
    the reporter, all about that request; when it sends none, it logs
    nothing, except for the one error record of a call made without a
    session. *)
Theorem every_sent_request_is_logged (ex : t) (api_name : string)
  (test_name : option string) (kwargs : Dict.t string) :
  let r := call ex api_name test_name kwargs in
  exists new_sent new_logs,
    sent r.1 = sent ex ++ new_sent
    /\ reporter r.1 = reporter ex ++ new_logs
    /\ match new_sent with
       | [] => new_logs = []
               \/ (session (store_all kwargs ex) = false
                   /\ exists rq msg name,
                        new_logs = [LogError rq msg (unsent_elapsed rq) name])
       | [rq] => new_logs <> []
                 /\ List.length new_logs <= 2
                 /\ Forall (fun l => log_request l = rq) new_logs
       | _ => False
       end.
Proof.
  cbv zeta.
  destruct (call_effects ex api_name test_name kwargs)
    as [(Hs & Hr & _)|(rq & Hs & Hr)].
  - exists []. destruct Hr as [Hr|(Hsess & rq & msg & name & Hr)].
    + exists []. rewrite !app_nil_r. auto.
    + eexists. rewrite app_nil_r. split; [exact Hs|]. split; [exact Hr|].
      right. eauto.
  - exists [rq].
    destruct Hr as [(resp & name & Hr & _)
                   |[(l & Hr & Hl & _)
                    |(resp & name & msg & elapsed & name' & Hr & _)]];
      eexists; (split; [exact Hs|]); (split; [exact Hr|]);
      (split; [discriminate|]); (split; [cbn; lia|]);
      repeat constructor; assumption.
Qed.

(** X25. A call that returns a response has sent exactly one request, got
    that response for it, and logged it once with the response; the
    record carries the test name, or the API name when no test name or
    an empty one was given. *)
Theorem returned_response_was_sent_and_logged_once (ex : t)
  (api_name : string) (test_name : option string) (kwargs : Dict.t string)
  (resp : response) :
  (call ex api_name test_name kwargs).2 = inr resp ->
  let r := call ex api_name test_name kwargs in
  exists rq,
    sent r.1 = sent ex ++ [rq]
    /\ reporter r.1
       = reporter ex ++ [LogResponse rq resp (logged_name test_name api_name)]
    /\ exists headers text,
         send rq = Responded (rs_status resp) headers text
                     (rs_response_time resp) (rs_url resp).
Proof.
  cbv zeta. unfold execute_api.
  destruct (_get_api_config ex api_name) as [e|api]; [discriminate|].
  destruct (py_get "name" api) as [e|nm]; [discriminate|].
  destruct (store_all_fields kwargs ex) as (_ & Hs & Hr).
  destruct (prepare (store_all kwargs ex) api) as [e|rq]; [discriminate|].
  destruct (negb (session (store_all kwargs ex))); [discriminate|].
  destruct (send rq) as [status headers text elapsed url| |msg elapsed]
    eqn:Hsend; try discriminate.
  destruct (bind (py_in "response" api) _) as [e|ex4] eqn:Hx; [discriminate|].
  assert (H4 : sent ex4 = sent ex ++ [rq]
               /\ reporter ex4
                  = reporter ex
                    ++ [LogResponse rq
                          {| rs_status := status; rs_headers := headers;
                             rs_body :=
                               match json_loads text with
                               | Some j => if falsy j then VStr text else j
                               | None => VStr text
                               end;
                             rs_response_time := elapsed; rs_url := url |}
                          (logged_name test_name api_name)]).
  { revert Hx. unfold bind.
    destruct (py_in "response" api) as [e|[|]]; try discriminate;
      [|intros [= <-]; cbn; rewrite Hs, Hr; split; reflexivity].
    destruct (py_getitem "response" api) as [e|rsp]; [discriminate|].
    destruct (py_in "extract" rsp) as [e|[|]]; try discriminate;
      [|intros [= <-]; cbn; rewrite Hs, Hr; split; reflexivity].
    destruct (py_getitem "extract" rsp) as [e|cfg]; [discriminate|].
    intros [= <-].
    destruct (extract_keeps_logs
                (with_log (with_sent (store_all kwargs ex) rq)
                   (LogResponse rq
                      {| rs_status := status; rs_headers := headers;
                         rs_body :=
                           match json_loads text with
                           | Some j => if falsy j then VStr text else j
                           | None => VStr text
                           end;
                         rs_response_time := elapsed; rs_url := url |}
                      (logged_name test_name api_name)))
                (match json_loads text with
                 | Some j => if falsy j then VStr text else j
                 | None => VStr text
                 end) cfg) as [-> ->].
    cbn. rewrite Hs, Hr. split; reflexivity. }
  destruct H4 as [Hs4 Hr4].
  destruct (bind (py_in "validation" api) _) as [e|u]; [discriminate|].
  cbn [fst snd]. intros [= <-]. exists rq. cbn.
  split; [exact Hs4|]. split; [exact Hr4|]. do 2 eexists; exact Hsend.
Qed.

End Network.

(** An executor that holds a token, and a server that answers. *)
Definition signed_in : t :=
  {| context := []; auth_token := Some "t0"; session := true; reporter := [];
     api_config := catalogue; base_url := "http://api"; timeout := 30%Q;
     sent := [] |}.

Definition answers (rq : request) : net_outcome :=
  Responded 200 [] "ok" 1%Q (rq_url rq).

Abbreviation call_plain :=
  (execute_api answers (fun _ => None) (fun _ => false)
     (fun ex _ _ => ex) (fun _ _ => None) (fun _ => "") (fun _ => "")
     (fun _ => 0%Q)).

Lemma unknown_api_changes_nothing_witness :
  call_plain signed_in "orders" None [("id", "7")]
  = (signed_in,
     inl (ValueError ("API '" +:+ "orders" +:+ "' not found in configuration"))).
Proof.
  apply (unknown_api_changes_nothing answers (fun _ => None) (fun _ => false)
           (fun ex _ _ => ex) (fun _ _ => None) (fun _ => "") (fun _ => "")
           (fun _ => 0%Q)
           signed_in "orders" None [("id", "7")]
           [("users", VMap [("profile", profile_api); ("plain", plain_api)])]).
  - reflexivity.
  - constructor; [|constructor]. eexists. split; reflexivity.
Defined.

Lemma every_sent_request_is_logged_witness :
  exists new_sent new_logs,
    sent (call_plain signed_in "plain" None []).1 = [] ++ new_sent
    /\ reporter (call_plain signed_in "plain" None []).1 = [] ++ new_logs
    /\ match new_sent with
       | [] => new_logs = []
               \/ (session (store_all [] signed_in) = false
                   /\ exists rq msg name, new_logs = [LogError rq msg 0 name])
       | [rq] => new_logs <> []
                 /\ List.length new_logs <= 2
                 /\ Forall (fun l => log_request l = rq) new_logs
       | _ => False
       end.
Proof.
  apply (every_sent_request_is_logged answers (fun _ => None) (fun _ => false)
           (fun ex _ _ => ex) (fun _ _ => None) (fun _ => "") (fun _ => "")
           (fun _ => 0%Q)
           ltac:(intros; split; reflexivity) signed_in "plain" None []).
Defined.

(** The theorem at a call with an empty test name: the record is kept
    under the name of the API. *)
Lemma returned_response_was_sent_and_logged_once_witness :
  let resp := {| rs_status := 200; rs_headers := []; rs_body := VStr "ok";
                 rs_response_time := 1%Q; rs_url := "http://api/profile" |} in
  exists rq,
    sent (call_plain signed_in "plain" (Some "") []).1 = [] ++ [rq]
    /\ reporter (call_plain signed_in "plain" (Some "") []).1
       = [] ++ [LogResponse rq resp "plain"]
    /\ exists headers text,
         answers rq = Responded 200 headers text 1%Q "http://api/profile".
Proof.
  intros resp.
  apply (returned_response_was_sent_and_logged_once answers (fun _ => None)
           (fun _ => false) (fun ex _ _ => ex) (fun _ _ => None)
           (fun _ => "") (fun _ => "") (fun _ => 0%Q)
           ltac:(intros; split; reflexivity) signed_in "plain" (Some "") []
           resp).
  vm_compute. reflexivity.
Defined.

End ApiMoreFacts.

(** ** More on running scenarios *)

Module ScenarioMoreFacts.
Import FeatureParser TestExecutor ScenarioFacts.

Section World.

Context {W : Type}.
Variable start : W -> W.
Variable execute_step : W -> string -> Params -> W * StepResult.
Variable take_screenshot : W -> string -> W * option string.
Variable stop : W -> W.

Abbreviation scenario_run :=
  (_execute_scenario start execute_step take_screenshot stop).

(** When the loop over the steps breaks, the last result it has recorded
    is the failed one. *)
Lemma run_steps_failure (steps : list Step) :
  forall (w : W) (results : list StepResult) (executed : list Step),
  let p := run_steps execute_step w steps results executed in
  p.(p_failure) <> None ->
  exists r, r ∈ p.(p_results) /\ sr_status r = failed
            /\ p.(p_failure) = Some (sr_error r).
Proof.
  induction steps as [|step rest IH]; intros w results executed; cbn zeta.
  - cbn. congruence.
  - cbn [run_steps].
    set (res := with_text (s_text step)
                  (execute_step w (s_action step) (params_of step)).2).
    destruct (sr_status res) eqn:Hst.
    + apply IH.
    + intros _. exists res. cbn [p_results p_failure].
      split; [|split; [exact Hst|reflexivity]].
      apply elem_of_app. right. apply list_elem_of_singleton. reflexivity.
Qed.

(** The background stops at its first failed step and names it. *)
Lemma run_background_failure (steps : list Step) :
  forall (w : W) (executed : list Step) (msg : string),
  (run_background execute_step w steps executed).2 = Some msg ->
  exists step, step ∈ steps
               /\ msg = "Background step failed: " +:+ s_text step.
Proof.
  induction steps as [|step rest IH]; intros w executed msg; [discriminate|].
  cbn [run_background].
  destruct (sr_status (execute_step w (s_action step) (params_of step)).2).
  - intros H. destruct (IH _ _ _ H) as (s & Hs & Hm).
    exists s. split; [right; exact Hs|exact Hm].
  - cbn [snd]. intros [= <-]. exists step. split; [left|reflexivity].
Qed.

(** X26. A scenario passes exactly when the background passes and every
    step result recorded has passed.  A passed scenario has run all its
    steps, with one result for each, has no error and no screenshot; a
    failed one has a screenshot entry. *)
Theorem scenario_passes_iff_all_steps_pass (feature : Feature)
  (scenario : Scenario) (w : W) :
  let out := scenario_run feature scenario w in
  (out.1.1.(r_status) = passed
   <-> background_passes start execute_step feature w
       /\ Forall (fun r => sr_status r = passed) out.1.1.(r_steps))
  /\ (out.1.1.(r_status) = passed ->
      out.2 = scenario.(sc_steps)
      /\ List.length out.1.1.(r_steps) = List.length scenario.(sc_steps)
      /\ out.1.1.(r_error) = None
      /\ out.1.1.(r_screenshot) = None)
  /\ (out.1.1.(r_status) = failed -> out.1.1.(r_screenshot) <> None).
Proof.
  cbv zeta. unfold _execute_scenario, background_passes. cbn zeta.
  destruct (match f_background feature with
            | Some background =>
                run_background execute_step (start w) (sc_steps background) []
            | None => (start w, [], None)
            end) as [[wb eb] [msg|]] eqn:Hbg; cbn [fst snd].
  - cbn [r_status r_steps r_error r_screenshot p_failure p_results p_executed
         fst snd].
    split; [|split; [discriminate|intros _; discriminate]].
    split; [discriminate|]. intros [Hpass _]. exfalso.
    destruct (f_background feature) as [background|].
    + rewrite Hbg in Hpass. discriminate.
    + discriminate.
  - pose proof (run_steps_shape execute_step (sc_steps scenario) wb [] [])
      as Hshape.
    pose proof (run_steps_failure (sc_steps scenario) wb [] []) as Hfail.
    cbn zeta in Hshape, Hfail.
    destruct Hshape as (k & new & Hr & He & Hl & Hk & Hf & Hn).
    cbn [app] in Hr, He.
    destruct (p_failure (run_steps execute_step wb (sc_steps scenario) [] []))
      as [err|] eqn:Hpf;
      cbn [r_status r_steps r_error r_screenshot fst snd].
    + split; [|split; [discriminate|intros _; discriminate]].
      split; [discriminate|]. intros [_ Hall]. exfalso.
      destruct Hfail as (r & Hin & Hst & _); [discriminate|].
      rewrite List.Forall_forall in Hall.
      apply list_elem_of_In in Hin. specialize (Hall r Hin). congruence.
    + destruct (Hn eq_refl) as [-> Hall].
      split; [|split; [|discriminate]].
      * split; [|reflexivity]. intros _. split.
        -- destruct (f_background feature) as [background|]; [|exact I].
           rewrite Hbg. reflexivity.
        -- rewrite Hr. exact Hall.
      * intros _. rewrite He, Hr, Hl, firstn_all.
        repeat split; reflexivity.
Qed.

(** X27. When a step of the background fails, the scenario fails without
    running any of its own steps: it has no step results, and its error
    is [Background step failed: ] followed by the text of a background
    step. *)
Theorem failed_background_skips_the_scenario (feature : Feature)
  (scenario : Scenario) (w : W) :
  ~ background_passes start execute_step feature w ->
  let out := scenario_run feature scenario w in
  out.1.1.(r_status) = failed
  /\ out.1.1.(r_steps) = []
  /\ out.2 = []
  /\ exists background step,
       f_background feature = Some background
       /\ step ∈ sc_steps background
       /\ out.1.1.(r_error)
          = Some ("Background step failed: " +:+ s_text step).
Proof.
  intros Hbg. cbv zeta. unfold _execute_scenario. cbn zeta.
  unfold background_passes in Hbg.
  destruct (f_background feature) as [background|]; [|contradiction Hbg; exact I].
  destruct (run_background execute_step (start w) (sc_steps background) [])
    as [[wb eb] [msg|]] eqn:Hrun; [|contradiction Hbg; reflexivity].
  cbn [fst snd r_status r_steps r_error p_failure p_results p_executed default].
  repeat split. exists background.
  destruct (run_background_failure (sc_steps background) (start w) [] msg)
    as (step & Hin & ->).
  { rewrite Hrun. reflexivity. }
  exists step. repeat split; assumption.
Qed.

(** *** Running the suites *)



End World.

Definition boom_background : Feature :=
  {| f_name := "F"; f_description := ""; f_scenarios := []; f_tags := [];
     f_background :=
       Some {| sc_name := "Background"; sc_description := "";
               sc_steps := [step_named "boom"]; sc_tags := [];
               sc_examples := None; sc_line_number := 0 |};
     f_file_path := "f.feature" |}.

Lemma failed_background_skips_the_scenario_witness :
  let out :=
    _execute_scenario (fun w => w) counting_step (fun w _ => (w, None))
      (fun w => w) boom_background
      {| sc_name := "S"; sc_description := "";
         sc_steps := [step_named "ok"];
         sc_tags := []; sc_examples := None; sc_line_number := 1 |} 0 in
  out.1.1.(r_status) = failed
  /\ out.1.1.(r_steps) = []
  /\ out.2 = []
  /\ exists background step,
       f_background boom_background = Some background
       /\ step ∈ sc_steps background
       /\ out.1.1.(r_error)
          = Some ("Background step failed: " +:+ s_text step).
Proof.
  apply (failed_background_skips_the_scenario (fun w => w) counting_step
           (fun w _ => (w, None)) (fun w => w) boom_background
           {| sc_name := "S"; sc_description := "";
              sc_steps := [step_named "ok"];
              sc_tags := []; sc_examples := None; sc_line_number := 1 |} 0).
  unfold background_passes. cbn. discriminate.
Defined.

End ScenarioMoreFacts.

(** ** More on the verification of tables *)

Module TableMoreFacts.
Import FeatureParser StepExecutor TableFacts.

(** The table the step names, [table] when it names none. *)
Definition identifier_of (params : Params) : string :=
  match Dict.get "table" params with
  | Some (PStr s) => s
  | _ => "table"
  end.

Lemma check_values_details (hs : list string) (column_map : Dict.t nat)
  (row_cells : list Cell) (expected_row : list string) :
  forall (i : nat) (acc : row_result),
  is_Some (rr_details acc) ->
  is_Some (rr_details
             (check_values hs column_map row_cells expected_row i acc)).
Proof.
  induction expected_row as [|v rest IH]; intros i acc Hacc; [exact Hacc|].
  cbn [check_values]. apply IH.
  destruct (hs !! i); [cbn; eauto|exact Hacc].
Qed.

(** Once the expected rows outnumber the rows of the table, the results
    hold a failed one without details, and the error message cannot be
    built. *)
Lemma verify_rows_missing (hs : list string) (column_map : Dict.t nat)
  (table_rows : list Row) (expected_rows : list (list string)) :
  forall i : nat,
  i <= List.length table_rows ->
  List.length table_rows < i + List.length expected_rows ->
  forallb (fun r => bool_decide (rr_status r = v_passed))
    (verify_rows hs column_map table_rows expected_rows i) = false
  /\ error_details (verify_rows hs column_map table_rows expected_rows i)
     = inl (KeyError "details").
Proof.
  induction expected_rows as [|row rest IH]; intros i Hi0 Hlen.
  - cbn in Hlen. lia.
  - cbn [verify_rows].
    destruct (table_rows !! i) as [actual_row|] eqn:Hrow.
    + assert (Hi : i < List.length table_rows)
        by (eapply lookup_lt_Some; eauto).
      destruct (IH (S i)) as [Hall Herr]; [lia|cbn in Hlen; lia|].
      cbn [forallb error_details]. rewrite Hall, Herr, andb_false_r.
      split; [reflexivity|].
      destruct (check_values_details hs column_map (cells actual_row) row 0
                  {| rr_row := i; rr_status := v_passed;
                     rr_details := Some []; rr_error := None |})
        as [details ->]; [cbn; eauto|].
      destruct (rr_status _); reflexivity.
    + split; reflexivity.
Qed.

(** X29. When the table on the page has fewer data rows than the step
    expects, the handler does not report the rows that are missing: it
    ends with the [KeyError] of the key [details], raised while the error
    message is being put together. *)
Theorem missing_rows_end_in_key_error (page : Page) (params : Params)
  (headers : list string) (expected_rows : list (list string))
  (table : Table) (row : Row) (rows : list Row) :
  Dict.get "data_table" params = Some (PTable (headers :: expected_rows)) ->
  find_table page (table_selectors (identifier_of params)) = Some table ->
  find_rows table row_approaches (collect_headers table header_selectors [])
  = row :: rows ->
  List.length (row :: rows) < List.length expected_rows ->
  _handle_verify_table page params = inl (KeyError "details").
Proof.
  intros Hdata Htable Hrows Hlen. unfold _handle_verify_table.
  rewrite Hdata. fold (identifier_of params).
  destruct expected_rows as [|e es]; [cbn in Hlen; lia|].
  rewrite Htable. unfold verification_results. rewrite Hrows.
  destruct (verify_rows_missing headers
              (map_columns headers
                 (collect_headers table header_selectors []) [])
              (row :: rows) (e :: es) 0) as [Hall Herr];
    [cbn; lia|exact Hlen|].
  rewrite Hall, Herr. reflexivity.
Qed.

Lemma check_values_no_columns (hs : list string) (row_cells : list Cell)
  (expected_row : list string) :
  forall (i : nat) (acc : row_result),
  rr_status (check_values hs [] row_cells expected_row i acc) = rr_status acc.
Proof.
  induction expected_row as [|v rest IH]; intros i acc; [reflexivity|].
  cbn [check_values]. rewrite IH.
  destruct (hs !! i); reflexivity.
Qed.

Lemma verify_rows_no_columns (hs : list string) (table_rows : list Row)
  (expected_rows : list (list string)) :
  forall i : nat,
  i + List.length expected_rows <= List.length table_rows ->
  forallb (fun r => bool_decide (rr_status r = v_passed))
    (verify_rows hs [] table_rows expected_rows i) = true.
Proof.
  induction expected_rows as [|row rest IH]; intros i Hlen; [reflexivity|].
  cbn [verify_rows forallb]. cbn in Hlen.
  destruct (lookup_lt_is_Some_2 table_rows i) as [actual_row ->]; [lia|].
  rewrite check_values_no_columns, IH by lia. reflexivity.
Qed.

(** X30. When none of the expected headers is found among the headers of
    the table, no cell is compared: with enough data rows on the page the
    verification passes, whatever values the step expects and whatever
    the cells hold. *)
Theorem unmatched_headers_pass_unchecked (page : Page) (params : Params)
  (headers : list string) (expected_row : list string)
  (expected_rows : list (list string)) (table : Table) (row : Row)
  (rows : list Row) :
  Dict.get "data_table" params
  = Some (PTable (headers :: expected_row :: expected_rows)) ->
  find_table page (table_selectors (identifier_of params)) = Some table ->
  find_rows table row_approaches (collect_headers table header_selectors [])
  = row :: rows ->
  map_columns headers (collect_headers table header_selectors []) [] = [] ->
  List.length (expected_row :: expected_rows) <= List.length (row :: rows) ->
  _handle_verify_table page params
  = inr (List.length (expected_row :: expected_rows)).
Proof.
  intros Hdata Htable Hrows Hmap Hlen. unfold _handle_verify_table.
  rewrite Hdata. fold (identifier_of params).
  rewrite Htable. unfold verification_results. rewrite Hrows, Hmap.
  rewrite (verify_rows_no_columns headers (row :: rows)
             (expected_row :: expected_rows) 0 Hlen).
  reflexivity.
Qed.

(** Steps that expect three people, and steps that look for columns the
    table of Alice and Bob does not have. *)
Definition three_people : Params :=
  [("data_table",
    PTable (expected_headers
            :: [["Alice"; "*"]; ["Bob"; "Active"]; ["Carol"; "Active"]]))].

Definition other_columns : Params :=
  [("data_table", PTable (["Email"; "Role"] :: [["x"; "y"]; ["z"; "w"]]))].

Lemma missing_rows_end_in_key_error_witness :
  _handle_verify_table (people_page (text_cell "Active") (text_cell "Active"))
    three_people
  = inl (KeyError "details").
Proof.
  apply (missing_rows_end_in_key_error
           (people_page (text_cell "Active") (text_cell "Active"))
           three_people expected_headers
           [["Alice"; "*"]; ["Bob"; "Active"]; ["Carol"; "Active"]]
           (people_table (text_cell "Active") (text_cell "Active"))
           (alice_row (text_cell "Active")) [bob_row (text_cell "Active")]).
  - reflexivity.
  - reflexivity.
  - reflexivity.
  - cbn. lia.
Defined.

Lemma unmatched_headers_pass_unchecked_witness :
  _handle_verify_table (people_page (text_cell "Active") (text_cell "Active"))
    other_columns
  = inr 2.
Proof.
  apply (unmatched_headers_pass_unchecked
           (people_page (text_cell "Active") (text_cell "Active"))
           other_columns ["Email"; "Role"] ["x"; "y"] [["z"; "w"]]
           (people_table (text_cell "Active") (text_cell "Active"))
           (alice_row (text_cell "Active")) [bob_row (text_cell "Active")]).
  - reflexivity.
  - reflexivity.
  - reflexivity.
  - reflexivity.
  - cbn. lia.
Defined.

End TableMoreFacts.
